(** * avoma_plain_text.py: HubSpot list -> Avoma transcript -> webhook

    A shallow embedding of [src/avoma_plain_text.py] and the properties of
    its retry layer, meeting fetcher, meeting selector, transcript
    normalizer and run summary.

    Conventions of the embedding.
    - A Python [str] is a [string]; its characters are read as code points
      below 256.
    - A decoded JSON value is a [json]; a [dict] is an association list
      whose first binding of a key is the one [get] sees.  Numbers are
      integers.
    - A Python function that may raise returns a [result]; the exceptions
      are grouped in [exn].
    - Code that talks to the network runs in the monad [M], which threads
      the number of calls made to [requests.request] and the trace of
      effects (requests, sleeps, log lines).  The network is a function
      [net] from the number of a call and its request to its outcome.
    - [datetime.fromisoformat] and [repr] are library functions the code
      calls; they are parameters of the definitions that use them.
    - The interpreter's recursion limit is a parameter [frames] of the
      normalizer: the number of nested calls of the function there is room
      for.  Memory is not modelled.
    - A delay is a rational, the value of a finite float; [time.sleep]
      raises on a negative delay and on one too long for its clock.
    - The clock and the date arithmetic of lines 298-300 are a parameter
      [window] of the run. *)

From Stdlib Require Import List String Ascii ZArith QArith Lia Bool Arith.
From Stdlib Require Import DecimalString Qminmax Sorted Permutation.
From Stdlib Require OrderedTypeEx.
Import ListNotations.

Local Open Scope list_scope.
Local Open Scope Z_scope.
Local Open Scope string_scope.

(** ** Results of Python computations *)

Inductive exn : Type :=
| RuntimeError      (* raise RuntimeError("HubSpot list not found") *)
| HTTPError         (* Response.raise_for_status() *)
| JSONDecodeError   (* whatever Response.json() raises on a body it cannot decode *)
| ShapeError        (* AttributeError / TypeError on a value of the wrong type *)
| ValueError        (* time.sleep on a negative length *)
| OverflowError     (* time.sleep on a length too long; a date out of range *)
| RecursionError.   (* the recursion limit, met by transcript_json_to_text *)

Inductive result (A : Type) : Type :=
| Ok (a : A)
| Raise (e : exn).

Arguments Ok {A} a.
Arguments Raise {A} e.

Definition bind {A B} (r : result A) (f : A -> result B) : result B :=
  match r with
  | Ok a => f a
  | Raise e => Raise e
  end.

Declare Scope py_scope.
Delimit Scope py_scope with py.
Notation "x <- c1 ;; c2" := (bind c1 (fun x => c2))
  (at level 100, c1 at next level, right associativity) : py_scope.
Local Open Scope py_scope.

Definition mapM {A B} (f : A -> result B) : list A -> result (list B) :=
  fix go (l : list A) : result (list B) :=
    match l with
    | [] => Ok []
    | x :: r => y <- f x ;; ys <- go r ;; Ok (y :: ys)
    end.

(** ** Python strings *)

Module PyStr.

(** [str.isspace] on the code points below 256. *)
Definition is_space (c : ascii) : bool :=
  let n := N_of_ascii c in
  (((9 <=? n) && (n <=? 13)) || ((28 <=? n) && (n <=? 32))
   || (n =? 133) || (n =? 160))%N.

Fixpoint lstrip (s : string) : string :=
  match s with
  | EmptyString => EmptyString
  | String c r => if is_space c then lstrip r else s
  end.

Definition is_empty (s : string) : bool :=
  match s with EmptyString => true | _ => false end.

Fixpoint rstrip (s : string) : string :=
  match s with
  | EmptyString => EmptyString
  | String c r =>
      let r' := rstrip r in
      if is_space c && is_empty r' then EmptyString else String c r'
  end.

(** [s.strip()] *)
Definition strip (s : string) : string := lstrip (rstrip s).

(** [str.lower] on the code points below 256. *)
Definition lower_char (c : ascii) : ascii :=
  let n := N_of_ascii c in
  if (((65 <=? n) && (n <=? 90)) || ((192 <=? n) && (n <=? 214))
      || ((216 <=? n) && (n <=? 222)))%N
  then ascii_of_N (n + 32) else c.

Fixpoint lower (s : string) : string :=
  match s with
  | EmptyString => EmptyString
  | String c r => String (lower_char c) (lower r)
  end.

(** [s.replace("Z", "+00:00")] *)
Fixpoint replace_Z (s : string) : string :=
  match s with
  | EmptyString => EmptyString
  | String c r =>
      if Ascii.eqb c "Z"%char then "+00:00" ++ replace_Z r
      else String c (replace_Z r)
  end.

Definition newline : string := String (ascii_of_N 10) EmptyString.

(** ["\n".join(lines)] *)
Fixpoint join (lines : list string) : string :=
  match lines with
  | [] => EmptyString
  | [l] => l
  | l :: r => l ++ newline ++ join r
  end.

(** [str(n)] for an integer. *)
Definition of_Z (n : Z) : string := NilZero.string_of_int (Z.to_int n).

End PyStr.

Definition nonempty (s : string) : bool := negb (PyStr.is_empty s).

(** ** JSON values *)

#[local] Unset Elimination Schemes.
Inductive json : Type :=
| JNull
| JBool (b : bool)
| JNum (n : Z)
| JStr (s : string)
| JList (l : list json)
| JDict (kvs : list (string * json)).
#[local] Set Elimination Schemes.

(** Python truthiness: [bool(v)]. *)
Definition truthy (v : json) : bool :=
  match v with
  | JNull => false
  | JBool b => b
  | JNum n => negb (Z.eqb n 0)
  | JStr s => nonempty s
  | JList l => match l with [] => false | _ => true end
  | JDict kvs => match kvs with [] => false | _ => true end
  end.

(** [a or b] *)
Definition por (a b : json) : json := if truthy a then a else b.

Fixpoint lookup (kvs : list (string * json)) (k : string) : option json :=
  match kvs with
  | [] => None
  | (k', v) :: r => if String.eqb k' k then Some v else lookup r k
  end.

(** [d.get(k)] on a dict [d]: [None] when the key is absent. *)
Definition dget (kvs : list (string * json)) (k : string) : json :=
  match lookup kvs k with Some v => v | None => JNull end.

(** [d.get(k, default)] on a dict [d]. *)
Definition dget_default (kvs : list (string * json)) (k : string) (d : json) : json :=
  match lookup kvs k with Some v => v | None => d end.

(** [v.get(k)]: only a dict has the attribute. *)
Definition get (v : json) (k : string) : result json :=
  match v with
  | JDict kvs => Ok (dget kvs k)
  | _ => Raise ShapeError
  end.

Definition get_default (v : json) (k : string) (d : json) : result json :=
  match v with
  | JDict kvs => Ok (dget_default kvs k d)
  | _ => Raise ShapeError
  end.

(** [v.strip()]: only a str has the attribute. *)
Definition strip_of (v : json) : result string :=
  match v with
  | JStr s => Ok (PyStr.strip s)
  | _ => Raise ShapeError
  end.

Fixpoint chars (s : string) : list json :=
  match s with
  | EmptyString => []
  | String c r => JStr (String c EmptyString) :: chars r
  end.

(** [for x in v]: a list yields its elements, a str its characters, a dict
    its keys; nothing else is iterable. *)
Definition iter (v : json) : result (list json) :=
  match v with
  | JList l => Ok l
  | JStr s => Ok (chars s)
  | JDict kvs => Ok (map (fun kv => JStr (fst kv)) kvs)
  | _ => Raise ShapeError
  end.

(** [for x in v or []] *)
Definition iter_or_empty (v : json) : result (list json) :=
  if truthy v then iter v else Ok [].

(** Hashable values: what may be a dict key or a set element. *)
Definition hashable (v : json) : bool :=
  match v with JList _ | JDict _ => false | _ => true end.

(** Equality of dict keys: [True == 1] and [False == 0] hash alike. *)
Definition key_eqb (a b : json) : bool :=
  match a, b with
  | JNull, JNull => true
  | JStr s, JStr s' => String.eqb s s'
  | JNum n, JNum n' => Z.eqb n n'
  | JBool x, JBool y => Bool.eqb x y
  | JBool x, JNum n | JNum n, JBool x => Z.eqb n (if x then 1 else 0)
  | _, _ => false
  end.

(** [str(v)] for a hashable value. *)
Definition str_of_scalar (v : json) : string :=
  match v with
  | JStr s => s
  | JNum n => PyStr.of_Z n
  | JBool true => "True"
  | JBool false => "False"
  | _ => "None"
  end.

(** ** The transcript normalizer *)

Definition flat_keys : list string := ["content"; "text"; "transcript"; "body"].

(** Lines 181-184: the first of the flat keys that holds a string with
    something besides white space. *)
Fixpoint first_text (kvs : list (string * json)) (keys : list string) : option string :=
  match keys with
  | [] => None
  | k :: ks =>
      match dget kvs k with
      | JStr s => if nonempty (PyStr.strip s) then Some (PyStr.strip s)
                  else first_text kvs ks
      | _ => first_text kvs ks
      end
  end.

(** The [speakers] dict of lines 186-191, in insertion order. *)
Definition speaker_table : Type := list (json * json).

Fixpoint table_get (tbl : speaker_table) (k : json) : option json :=
  match tbl with
  | [] => None
  | (k', v) :: r => if key_eqb k' k then Some v else table_get r k
  end.

Fixpoint table_set (tbl : speaker_table) (k v : json) : speaker_table :=
  match tbl with
  | [] => [(k, v)]
  | (k', v') :: r => if key_eqb k' k then (k', v) :: r else (k', v') :: table_set r k v
  end.

Definition is_null (v : json) : bool :=
  match v with JNull => true | _ => false end.

(** Lines 188-191, one entry [s] of [t.get("speakers") or []].  The name
    given to an id without one is [f"Speaker {sid}"]; an unhashable [sid]
    raises at [speakers[sid] = name] whatever that string was, so the test
    comes first here. *)
Definition add_speaker (tbl : speaker_table) (s : json) : result speaker_table :=
  sid <- get s "id" ;;
  nm <- get s "name" ;;
  sp <- get s "speaker" ;;
  if is_null sid then Ok tbl
  else if negb (hashable sid) then Raise ShapeError
  else
    let name := por (por nm sp) (JStr ("Speaker " ++ str_of_scalar sid)) in
    Ok (table_set tbl sid name).

Fixpoint build_speakers (tbl : speaker_table) (l : list json) : result speaker_table :=
  match l with
  | [] => Ok tbl
  | s :: r => tbl' <- add_speaker tbl s ;; build_speakers tbl' r
  end.

(** [f"{spk + ': ' if spk else ''}{txt}"] for a speaker [spk] of any type. *)
Definition speaker_line (spk : json) (txt : string) : result string :=
  if truthy spk then
    match spk with
    | JStr name => Ok (name ++ ": " ++ txt)
    | _ => Raise ShapeError
    end
  else Ok txt.

(** Lines 194-200, one turn [tr]: the line it appends, if any. *)
Definition turn_line (tbl : speaker_table) (tr : json) : result (option string) :=
  match tr with
  | JDict kvs =>
      txt <- strip_of (por (por (dget kvs "transcript") (dget kvs "text")) (JStr "")) ;;
      if negb (nonempty txt) then Ok None
      else
        let sid := dget kvs "speaker_id" in
        if negb (hashable sid) then Raise ShapeError
        else
          let spk := por (match table_get tbl sid with Some v => v | None => JNull end)
                         (JStr "") in
          line <- speaker_line spk txt ;; Ok (Some line)
  | _ => Ok None
  end.

Fixpoint turn_lines (tbl : speaker_table) (turns : list json) : result (list string) :=
  match turns with
  | [] => Ok []
  | tr :: r =>
      l <- turn_line tbl tr ;;
      ls <- turn_lines tbl r ;;
      Ok (match l with Some x => x :: ls | None => ls end)
  end.

(** Lines 185-200: the lines of the turn list, [[]] when [transcript] is
    not a list. *)
Definition transcript_lines (kvs : list (string * json)) : result (list string) :=
  match dget kvs "transcript" with
  | JList turns =>
      sps <- iter_or_empty (dget kvs "speakers") ;;
      tbl <- build_speakers [] sps ;;
      turn_lines tbl turns
  | _ => Ok []
  end.

(** Lines 206-209, one entry [it] of [paragraphs] or [segments]. *)
Definition segment_line (it : json) : result (option string) :=
  sp <- get it "speaker" ;;
  sl <- get it "speaker_label" ;;
  spk <- strip_of (por (por sp sl) (JStr "")) ;;
  tx <- get it "text" ;;
  txt <- strip_of (por tx (JStr "")) ;;
  if nonempty txt
  then Ok (Some (if nonempty spk then spk ++ ": " ++ txt else txt))
  else Ok None.

Fixpoint segment_lines_of (l : list json) : result (list string) :=
  match l with
  | [] => Ok []
  | it :: r =>
      x <- segment_line it ;;
      xs <- segment_lines_of r ;;
      Ok (match x with Some y => y :: xs | None => xs end)
  end.

(** Lines 203-209: [paragraphs] then [segments]. *)
Definition segment_lines (kvs : list (string * json)) : result (list string) :=
  ps <- iter_or_empty (dget kvs "paragraphs") ;;
  l1 <- segment_lines_of ps ;;
  ss <- iter_or_empty (dget kvs "segments") ;;
  l2 <- segment_lines_of ss ;;
  Ok (l1 ++ l2)%list.

Definition is_nil {A} (l : list A) : bool :=
  match l with [] => true | _ => false end.

(** ["\n".join(lines).strip()] *)
Definition joined (lines : list string) : string := PyStr.strip (PyStr.join lines).

(** Lines 212-216: the [results] step, for the recursive call [rec]. *)
Definition results_text (rec : json -> result string)
  : list (string * json) -> result string :=
  fix find (l : list (string * json)) : result string :=
    match l with
    | [] => Ok ""
    | kv :: r =>
        let (k, v) := kv in
        if String.eqb k "results" then
          match v with
          | JList xs =>
              parts <- mapM rec xs ;;
              let parts := filter nonempty parts in
              if negb (is_nil parts) then Ok (joined parts) else Ok ""
          | _ => Ok ""
          end
        else find r
    end.

(** Lines 177-223.  The recursion is the source's: on the elements of a
    list payload and on the elements of a dict's [results] list, with no
    depth guard of its own.  [frames] is the number of nested calls of the
    function the interpreter has room for: a call for which there is no
    room raises [RecursionError], and each call leaves one frame less to
    the calls it makes. *)
Fixpoint transcript_json_to_text (frames : nat) (t : json) {struct frames}
  : result string :=
  match frames with
  | O => Raise RecursionError
  | S frames' =>
      if negb (truthy t) then Ok ""
      else
        match t with
        | JDict kvs =>
            match first_text kvs flat_keys with
            | Some s => Ok s
            | None =>
                lines <- transcript_lines kvs ;;
                if negb (is_nil lines) then Ok (joined lines)
                else
                  lines2 <- segment_lines kvs ;;
                  if negb (is_nil lines2) then Ok (joined lines2)
                  else results_text (transcript_json_to_text frames') kvs
            end
        | JList xs =>
            parts <- mapM (transcript_json_to_text frames') xs ;;
            Ok (joined (filter nonempty parts))
        | JStr s => Ok (PyStr.strip s)
        | _ => Ok ""
        end
  end.

(** ** Requests, responses and effects *)

(** The two spellings of the organizer parameter of [/v1/meetings]. *)
Inductive param_style : Type :=
| organizer_email_style     (* {"organizer_email": ...} *)
| organizerEmail_style.     (* {"organizerEmail": ...} *)

(** The JSON body posted to the webhook (lines 346-358), without its
    constant [source] and its [processed_at] time stamp. *)
Record payload : Type := {
  p_email : string;
  p_organizer_email : string;
  p_meeting_id : json;
  p_meeting_subject : json;
  p_meeting_url : json;
  p_start_at : json;
  p_attendees_emails : list string;
  p_transcript_text : string;
  p_meeting_data : json
}.

(** What a call of [requests.request] asks for: the method, URL and
    parameters, kept apart instead of formatted into a URL.  The
    credentials, headers, time-out and page size of the HubSpot calls are
    constants of a run and are left out. *)
Inductive request : Type :=
| Hs_list (list_id : string)                         (* GET /crm/v3/lists/{id} *)
| Hs_memberships (list_id : string) (after : json)   (* GET .../memberships, [after] None or the cursor *)
| Hs_batch_read (ids : list string)                  (* POST /crm/v3/objects/contacts/batch/read *)
| Hs_owner (oid : string)                            (* GET /crm/v3/owners/{oid} *)
| Av_meetings (style : param_style) (organizer_email frm to : string) (limit : Z)
| Av_next (nxt : json)                               (* GET nxt *)
| Av_transcript (meeting_id : json)                  (* GET /v1/meetings/{id}/transcript *)
| Av_transcription (uuid : json)                     (* GET /v1/transcriptions/{uuid} *)
| Av_transcriptions (meeting_id : json)              (* GET /v1/meetings/{id}/transcriptions *)
| Webhook (url : string) (body : payload).           (* POST webhook_url *)

(** A [requests.Response]: its status and its body decoded as JSON
    ([None] when [Response.json()] raises). *)
Record response : Type := {
  status_code : Z;
  body : option json
}.

(** What one call of [requests.request] does: it answers or it raises. *)
Inductive outcome : Type :=
| Answer (r : response)
| Failure.

Inductive event : Type :=
| Request (r : request)                     (* requests.request(...) *)
| Sleep (d : Q)                             (* time.sleep(d) *)
| LogException (r : request)                (* log.warning, line 52 *)
| LogCollected (n : nat)                    (* log.info, line 86 *)
| LogBatchRead (n : nat)                    (* log.info, line 104 *)
| LogResolved (n m : nat)                   (* log.info, line 123 *)
| LogFetched (n : nat) (organizer_email : string) (tried : nat).  (* log.info, line 158 *)

(** The state threaded through a run: how many calls of
    [requests.request] were made, and the effects so far, newest first. *)
Record state : Type := {
  calls : nat;
  trace : list event
}.

(** How a computation with effects ends: it returns a value in a new
    state, an exception escapes it, or it never ends (a [while True] loop
    that used up its fuel). *)
Inductive run (A : Type) : Type :=
| Returns (a : A) (st : state)
| Raises (e : exn)
| Diverges.

Arguments Returns {A} a st.
Arguments Raises {A} e.
Arguments Diverges {A}.

Definition M (A : Type) : Type := state -> run A.

Definition ret {A} (a : A) : M A := fun st => Returns a st.

Definition bindM {A B} (m : M A) (f : A -> M B) : M B :=
  fun st =>
    match m st with
    | Returns a st' => f a st'
    | Raises e => Raises e
    | Diverges => Diverges
    end.

Definition lift {A} (r : result A) : M A :=
  fun st =>
    match r with
    | Ok a => Returns a st
    | Raise e => Raises e
    end.

Definition emit (e : event) : M unit :=
  fun st => Returns tt {| calls := calls st; trace := e :: trace st |}.

Declare Scope M_scope.
Delimit Scope M_scope with M.
Notation "x <- c1 ;; c2" := (bindM c1 (fun x => c2))
  (at level 100, c1 at next level, right associativity) : M_scope.
Notation "c1 ;;; c2" := (bindM c1 (fun _ => c2))
  (at level 100, right associativity) : M_scope.

(** [Response.ok]: no status in 400..599.  The requests library defines
    the truth value of a [Response] as its [ok], so [if not r] holds for a
    response with an error status as it does for [None]. *)
Definition ok (r : response) : bool :=
  negb ((400 <=? status_code r) && (status_code r <? 600))%Z.

(** [r.raise_for_status()] *)
Definition raise_for_status (r : response) : result unit :=
  if ok r then Ok tt else Raise HTTPError.

(** [r.json()] *)
Definition json_of (r : response) : result json :=
  match body r with
  | Some j => Ok j
  | None => Raise JSONDecodeError
  end.

(** [r.status_code in (429, 500, 502, 503, 504)] *)
Definition retry_status (s : Z) : bool :=
  ((s =? 429) || (s =? 500) || (s =? 502) || (s =? 503) || (s =? 504))%Z.

(** [Response] truthiness in [if not r] and [if r and ...]. *)
Definition truthy_response (r : option response) : option response :=
  match r with
  | Some x => if ok x then Some x else None
  | None => None
  end.

(** [r and r.status_code == 200] *)
Definition is_200 (r : option response) : option response :=
  match truthy_response r with
  | Some x => if (status_code x =? 200)%Z then Some x else None
  | None => None
  end.

(** The ceiling [12.0] and the defaults [retries = 5] and
    [backoff_start = 0.7] of [http_request].  Delays are rationals:
    doubling a binary float is exact, so the delays of the code are the
    delays computed here from the value of its first delay. *)
Definition backoff_ceiling : Q := 12.
Definition default_retries : Z := 5.
Definition default_backoff_start : Q := 7 # 10.

(** The length [time.sleep] is asked for, in nanoseconds. *)
Definition nanoseconds (d : Q) : Q := d * 1000000000.

(** The lengths [time.sleep] cannot hold.  It converts the length to a
    signed 64-bit count of nanoseconds by way of a double, so it overflows
    when the count, rounded to a double, is not in [-2^63, 2^63): from
    [2^63 - 512] nanoseconds up, and below [-(2^63 + 1024)]. *)
Definition sleep_overflows (d : Q) : bool :=
  Qle_bool 9223372036854775296 (nanoseconds d)
  || negb (Qle_bool (-9223372036854776832) (nanoseconds d)).

(** What [time.sleep(d)] raises: [OverflowError] on a length it cannot
    hold, and otherwise [ValueError] on a negative length. *)
Definition sleep_error (d : Q) : option exn :=
  if sleep_overflows d then Some OverflowError
  else if negb (Qle_bool 0 d) then Some ValueError
  else None.

(** [time.sleep(d)] *)
Definition time_sleep (d : Q) : M unit :=
  fun st =>
    match sleep_error d with
    | None => emit (Sleep d) st
    | Some e => Raises e
    end.

(** ** Containers of the pipeline *)

(** [sorted(set(xs))] for strings. *)
Fixpoint insert_uniq (x : string) (l : list string) : list string :=
  match l with
  | [] => [x]
  | y :: r =>
      match String.compare x y with
      | Lt => x :: l
      | Eq => l
      | Gt => y :: insert_uniq x r
      end
  end.

Definition sorted_set (l : list string) : list string :=
  fold_right insert_uniq [] l.

(** [x in l] for strings. *)
Definition mem (x : string) (l : list string) : bool :=
  existsb (String.eqb x) l.

(** A [Dict[str, str]] in insertion order. *)
Definition sdict : Type := list (string * string).

Fixpoint sdict_get (d : sdict) (k : string) : option string :=
  match d with
  | [] => None
  | (k', v) :: r => if String.eqb k' k then Some v else sdict_get r k
  end.

Fixpoint sdict_set (d : sdict) (k v : string) : sdict :=
  match d with
  | [] => [(k, v)]
  | (k', v') :: r =>
      if String.eqb k' k then (k', v) :: r else (k', v') :: sdict_set r k v
  end.

(** [contacts_by_owner[k].append(v)] on the [defaultdict(list)]. *)
Fixpoint group_add (g : list (string * list string)) (k v : string)
  : list (string * list string) :=
  match g with
  | [] => [(k, [v])]
  | (k', vs) :: r =>
      if String.eqb k' k then (k', vs ++ [v])%list :: r
      else (k', vs) :: group_add r k v
  end.

(** [ids[i:i+size] for i in range(0, len(ids), size)] *)
Fixpoint chunks_fuel {A} (fuel : nat) (size : nat) (l : list A) : list (list A) :=
  match fuel with
  | O => []
  | S f =>
      match l with
      | [] => []
      | _ => firstn size l :: chunks_fuel f size (skipn size l)
      end
  end.

Definition chunks_of {A} (size : nat) (l : list A) : list (list A) :=
  chunks_fuel (List.length l) size l.

(** [list.sort(key=...)]: the stable sort, by insertion with [<] on keys. *)
Fixpoint insert_by {A} (key : A -> Z) (x : A) (l : list A) : list A :=
  match l with
  | [] => [x]
  | y :: r => if (key y <? key x)%Z then y :: insert_by key x r else x :: l
  end.

Definition sort_by {A} (key : A -> Z) (l : list A) : list A :=
  fold_right (insert_by key) [] l.

(** ** Dates *)

(** A [datetime]: its wall-clock reading in microseconds since
    [datetime.min], and its UTC offset in microseconds when it is aware. *)
Record datetime : Type := {
  wall : Z;
  utcoffset : option Z
}.

(** The UTC instant of an aware datetime; comparison of aware datetimes
    compares these. *)
Definition instant (dt : datetime) : Z :=
  (wall dt - match utcoffset dt with Some o => o | None => 0 end)%Z.

(** [datetime.max.replace(tzinfo=timezone.utc)], 9999-12-31T23:59:59.999999Z. *)
Definition datetime_max_utc : datetime :=
  {| wall := 315537897599999999; utcoffset := Some 0%Z |}.

(** ** The run summary *)

(** An entry of [results["errors"]]:
    [f"Webhook failed for meeting {meeting_id}: {status}"], with [None] for
    ['no-response']. *)
Record webhook_error : Type := {
  failed_meeting : json;
  observed_status : option Z
}.

Record summary : Type := {
  contacts_processed : nat;
  emails_found : nat;
  meetings_found : nat;
  transcripts_posted : nat;
  errors : list webhook_error
}.

Definition empty_summary : summary :=
  {| contacts_processed := 0; emails_found := 0; meetings_found := 0;
     transcripts_posted := 0; errors := [] |}.

Section Run.

(** The network: the outcome of the [n]-th call of [requests.request] of
    a run, which may depend on what is asked. *)
Variable net : nat -> request -> outcome.

(** [datetime.fromisoformat]: [None] when it raises. *)
Variable fromisoformat : string -> option datetime.

(** [repr] of a list or a dict, as [str] prints one. *)
Variable repr : json -> string.

(** Lines 298-300 for the clock of the run, as a function of [days]: the
    strings [frm] and [to] and the datetime [cutoff]; [None] when the date
    arithmetic raises [OverflowError]. *)
Variable window : Z -> option (string * string * datetime).

(** The nested calls of [transcript_json_to_text] the interpreter has room
    for at line 342. *)
Variable frames : nat.

Local Open Scope M_scope.

Definition requests_request (req : request) : M outcome :=
  fun st => Returns (net (calls st) req)
                   {| calls := S (calls st); trace := Request req :: trace st |}.

(** Lines 43-55: the attempts left, the request and the current [sleep].
    The [except Exception] of line 51 also catches what [time.sleep] raises
    on line 47; what it raises on line 53 escapes. *)
Fixpoint attempts (n : nat) (req : request) (sleep : Q) : M (option response) :=
  match n with
  | O => ret None
  | S n' =>
      let handler :=                                       (* lines 52-54 *)
        emit (LogException req) ;;;
        time_sleep sleep ;;;
        attempts n' req (Qmin (sleep * 2) backoff_ceiling) in
      o <- requests_request req ;;
      match o with
      | Answer r =>
          if retry_status (status_code r)
          then
            match sleep_error sleep with
            | None => emit (Sleep sleep) ;;;
                      attempts n' req (Qmin (sleep * 2) backoff_ceiling)
            | Some _ => handler
            end
          else ret (Some r)
      | Failure => handler
      end
  end.

(** Lines 41-55. *)
Definition http_request (req : request) (retries : Z) (backoff_start : Q)
  : M (option response) :=
  attempts (Z.to_nat (Z.max 1 retries)) req backoff_start.

(** A call that leaves [retries] and [backoff_start] at their defaults, as
    every caller in the file does. *)
Definition http (req : request) : M (option response) :=
  http_request req default_retries default_backoff_start.


(** [str(v)] *)
Definition str_of (v : json) : string :=
  if hashable v then str_of_scalar v else repr v.

(** *** HubSpot *)

(** Lines 78-81: [ids.append(str(rid))] for each entry with a [recordId]. *)
Fixpoint collect_record_ids (ids : list string) (its : list json) : result (list string) :=
  match its with
  | [] => Ok ids
  | it :: r =>
      (rid <- get it "recordId" ;;
       collect_record_ids (if truthy rid then ids ++ [str_of rid] else ids)%list r)%py
  end.

(** Line 82: [data.get("paging", {}).get("next", {}).get("after")] *)
Definition after_of (data : json) : result json :=
  (paging <- get_default data "paging" (JDict []) ;;
   nxt <- get_default paging "next" (JDict []) ;;
   get nxt "after")%py.

(** Lines 70-85: the [while True] loop, one unit of fuel per page. *)
Fixpoint membership_pages (fuel : nat) (list_id : string) (delay : Q)
    (after : json) (ids : list string) : M (list string) :=
  match fuel with
  | O => fun _ => Diverges
  | S fuel' =>
      rr <- http (Hs_memberships list_id after) ;;
      match truthy_response rr with
      | None => ret ids
      | Some r =>
          if (status_code r =? 404)%Z then ret ids
          else
            lift (raise_for_status r) ;;;
            j <- lift (json_of r) ;;
            let data := por j (JDict []) in
            res <- lift (get_default data "results" (JList [])) ;;
            its <- lift (iter res) ;;
            ids' <- lift (collect_record_ids ids its) ;;
            after' <- lift (after_of data) ;;
            if negb (truthy after') then ret ids'
            else time_sleep delay ;;;
                 membership_pages fuel' list_id delay after' ids'
      end
  end.

(** Lines 61-87. *)
Definition hs_get_list_member_ids (fuel : nat) (list_id : string) (delay : Q)
  : M (list string) :=
  r <- http (Hs_list list_id) ;;
  match truthy_response r with
  | None => lift (Raise RuntimeError)
  | Some r =>
      if (status_code r =? 404)%Z then lift (Raise RuntimeError)
      else
        lift (raise_for_status r) ;;;
        ids <- membership_pages fuel list_id delay JNull [] ;;
        emit (LogCollected (List.length ids)) ;;;
        ret ids
  end.

(** Lines 95-103. *)
Fixpoint batch_read_chunks (chunks : list (list string)) (delay : Q)
    (out : list json) : M (list json) :=
  match chunks with
  | [] => ret out
  | chunk :: rest =>
      r <- http (Hs_batch_read chunk) ;;
      match truthy_response r with
      | None => ret out
      | Some r =>
          lift (raise_for_status r) ;;;
          j <- lift (json_of r) ;;
          res <- lift (get_default j "results" (JList [])) ;;
          its <- lift (iter res) ;;
          time_sleep delay ;;;
          batch_read_chunks rest delay (out ++ its)%list
      end
  end.

(** Lines 89-105. *)
Definition hs_batch_read_contacts (ids : list string) (delay : Q) : M (list json) :=
  if is_nil ids then ret []
  else
    out <- batch_read_chunks (chunks_of 100 ids) delay [] ;;
    emit (LogBatchRead (List.length out)) ;;;
    ret out.

(** Lines 115-119, the body of the [try]. *)
Definition owner_entry (r : response) (oid : string) (mapping : sdict) : result sdict :=
  (_ <- raise_for_status r ;;
   j <- json_of r ;;
   let data := por j (JDict []) in
   e <- get data "email" ;;
   e' <- strip_of (por e (JStr "")) ;;
   let email := PyStr.lower e' in
   if nonempty email then
     i <- get data "id" ;;
     Ok (sdict_set mapping (str_of (por i (JStr oid))) email)
   else Ok mapping)%py.

(** Lines 110-122. *)
Fixpoint owner_lookups (ids : list string) (delay : Q) (mapping : sdict) : M sdict :=
  match ids with
  | [] => ret mapping
  | oid :: rest =>
      r <- http (Hs_owner oid) ;;
      match truthy_response r with
      | None => owner_lookups rest delay mapping
      | Some r =>
          if (status_code r =? 404)%Z then owner_lookups rest delay mapping
          else
            let mapping' :=
              match owner_entry r oid mapping with
              | Ok m => m
              | _ => mapping          (* except Exception: pass *)
              end in
            time_sleep delay ;;;
            owner_lookups rest delay mapping'
      end
  end.

(** Lines 107-124, for owner ids that are strings. *)
Definition hs_owner_email_map (owner_ids : list string) (delay : Q) : M sdict :=
  let unique_ids := sorted_set (filter nonempty owner_ids) in
  mapping <- owner_lookups unique_ids delay [] ;;
  emit (LogResolved (List.length mapping) (List.length unique_ids)) ;;;
  ret mapping.

(** [c.get("properties") or {}] *)
Definition props_of (c : json) : result json :=
  (p <- get c "properties" ;; Ok (por p (JDict [])))%py.

(** Lines 273-277.  An owner id that is truthy and not a string makes the
    run raise a [TypeError] or an [AttributeError]: here when it is not
    hashable, in [sorted] when it is compared with a string, and at the
    latest at its [.strip()] on line 284, which every contact reaches.
    The model raises at once. *)
Fixpoint owner_ids_of (contacts : list json) : result (list string) :=
  match contacts with
  | [] => Ok []
  | c :: r =>
      (props <- props_of c ;;
       o <- get props "hubspot_owner_id" ;;
       if truthy o then
         match o with
         | JStr s => rest <- owner_ids_of r ;; Ok (s :: rest)
         | _ => Raise ShapeError
         end
       else owner_ids_of r)%py
  end.

(** Lines 280-289. *)
Fixpoint correlate (owner_email_by_id : sdict) (contacts : list json)
    (cust_to_owner : sdict) : result sdict :=
  match contacts with
  | [] => Ok cust_to_owner
  | c :: r =>
      (props <- props_of c ;;
       e <- get props "email" ;;
       e' <- strip_of (por e (JStr "")) ;;
       let ce := PyStr.lower e' in
       o <- get props "hubspot_owner_id" ;;
       oid <- strip_of (por o (JStr "")) ;;
       if negb (nonempty ce) then correlate owner_email_by_id r cust_to_owner
       else
         match sdict_get owner_email_by_id oid with
         | Some oe =>
             if nonempty oe
             then correlate owner_email_by_id r (sdict_set cust_to_owner ce oe)
             else correlate owner_email_by_id r cust_to_owner
         | None => correlate owner_email_by_id r cust_to_owner
         end)%py
  end.

(** Lines 291-293. *)
Definition select_emails (cust_to_owner : sdict) (only_emails : option (list string))
  : list string :=
  let emails := sorted_set (map fst cust_to_owner) in
  match only_emails with
  | Some (x :: xs) =>
      let allowed := map (fun y => PyStr.lower (PyStr.strip y)) (x :: xs) in
      filter (fun e => mem e allowed) emails
  | _ => emails
  end.

(** Lines 302-304.  Every email is a key of [cust_to_owner]. *)
Fixpoint group_by_owner (cust_to_owner : sdict) (emails : list string)
    (g : list (string * list string)) : list (string * list string) :=
  match emails with
  | [] => g
  | ce :: r =>
      match sdict_get cust_to_owner ce with
      | Some oe => group_by_owner cust_to_owner r (group_add g oe ce)
      | None => group_by_owner cust_to_owner r g
      end
  end.

(** *** Avoma *)

(** Lines 140-155: the pages of one parameter style, at most [n] of them. *)
Fixpoint av_pages (n : nat) (first : request) (nxt : json) (delay : Q)
    (items : list json) : M (list json) :=
  match n with
  | O => ret items
  | S n' =>
      r <- http (if truthy nxt then Av_next nxt else first) ;;
      match truthy_response r with
      | None => ret items
      | Some r =>
          if ((status_code r =? 400) || (status_code r =? 404))%Z then ret items
          else
            lift (raise_for_status r) ;;;
            j <- lift (json_of r) ;;
            let data := por j (JDict []) in
            res <- lift (get data "results") ;;
            mts <- lift (get data "meetings") ;;
            match por (por res mts) (JList []) with
            | JList chunk =>
                nxt' <- lift (get data "next") ;;
                if negb (truthy nxt') then ret (items ++ chunk)%list
                else time_sleep delay ;;;
                     av_pages n' first nxt' delay (items ++ chunk)%list
            | _ => ret items
            end
      end
  end.

(** Lines 134-157: the loop over the two parameter styles. *)
Fixpoint av_styles (styles : list param_style) (organizer_email frm to : string)
    (limit : Z) (pages : Z) (delay : Q) (items : list json) (tried : nat)
  : M (list json * nat) :=
  match styles with
  | [] => ret (items, tried)
  | style :: rest =>
      items' <- av_pages (Z.to_nat (Z.max 1 pages))
                  (Av_meetings style organizer_email frm to limit) JNull delay items ;;
      if negb (is_nil items') then ret (items', S tried)
      else av_styles rest organizer_email frm to limit pages delay items' (S tried)
  end.

(** Lines 130-159. *)
Definition av_list_meetings_by_organizer (organizer_email frm to : string)
    (limit pages : Z) (delay : Q) : M (list json) :=
  r <- av_styles [organizer_email_style; organizerEmail_style]
         organizer_email frm to limit pages delay [] 0%nat ;;
  emit (LogFetched (List.length (fst r)) organizer_email (snd r)) ;;;
  ret (fst r).

(** Lines 161-175; [JNull] is [None]. *)
Definition av_fetch_transcript_json (meeting_id transcription_uuid : json) : M json :=
  r <- http (Av_transcript meeting_id) ;;
  match is_200 r with
  | Some x => lift (json_of x)
  | None =>
      second <- (if truthy transcription_uuid then
                   r2 <- http (Av_transcription transcription_uuid) ;;
                   match is_200 r2 with
                   | Some x => j <- lift (json_of x) ;; ret (Some j)
                   | None => ret None
                   end
                 else ret None) ;;
      match second with
      | Some j => ret j
      | None =>
          r3 <- http (Av_transcriptions meeting_id) ;;
          match is_200 r3 with
          | Some x =>
              data <- lift (json_of x) ;;
              let items := match data with
                           | JDict kvs => dget_default kvs "results" data
                           | _ => data
                           end in
              match items with
              | JList (first :: _) => ret first
              | _ => ret JNull
              end
          | None => ret JNull
          end
      end
  end.

(** *** Meetings *)

(** Lines 225-235. *)
Definition parse_iso (dt_str : json) : option datetime :=
  if negb (truthy dt_str) then None
  else
    match dt_str with
    | JStr s =>
        match fromisoformat (PyStr.replace_Z s) with
        | Some dt =>
            match utcoffset dt with
            | Some _ => Some dt
            | None => Some {| wall := wall dt; utcoffset := Some 0%Z |}
            end
        | None => None
        end
    | _ => None          (* AttributeError in the try *)
    end.

(** Lines 237-244. *)
Definition looks_like_call (m : json) : result bool :=
  (a <- get m "transcript_ready" ;;
   b <- get m "transcription_uuid" ;;
   c <- get m "audio_ready" ;;
   d <- get m "video_ready" ;;
   if truthy a || truthy b || truthy c || truthy d then Ok true
   else
     ps <- get m "processing_status" ;;
     if negb (hashable ps) then Raise ShapeError
     else Ok (key_eqb ps (JStr "transcription_available")
              || key_eqb ps (JStr "completed")))%py.

(** Lines 248-251. *)
Fixpoint attendee_emails_of (l : list json) : result (list string) :=
  match l with
  | [] => Ok []
  | a :: r =>
      (e <- get a "email" ;;
       e' <- strip_of (por e (JStr "")) ;;
       rest <- attendee_emails_of r ;;
       let em := PyStr.lower e' in
       Ok (if nonempty em then em :: rest else rest))%py
  end.

(** Lines 246-252. *)
Definition attendees_emails (m : json) : result (list string) :=
  (a <- get m "attendees" ;;
   l <- iter_or_empty a ;;
   out <- attendee_emails_of l ;;
   Ok (sorted_set out))%py.

(** [m.get("start_at") or m.get("startTime") or m.get("start_time") or m.get("start")] *)
Definition start_field (m : json) : result json :=
  (a <- get m "start_at" ;;
   b <- get m "startTime" ;;
   c <- get m "start_time" ;;
   d <- get m "start" ;;
   Ok (por (por (por a b) c) d))%py.

(** Lines 314-326: whether meeting [m] is appended to [filtered]. *)
Definition keeps (organizer_email customer_email : string) (cutoff : datetime)
    (m : json) : result bool :=
  (atts <- attendees_emails m ;;
   o <- get m "organizer_email" ;;
   o' <- strip_of (por o (JStr "")) ;;
   let org := PyStr.lower o' in
   let owner_in_attendees := mem organizer_email atts in
   if negb (String.eqb org organizer_email || owner_in_attendees) then Ok false
   else if negb (mem customer_email atts) then Ok false
   else
     call <- looks_like_call m ;;
     if negb call then Ok false
     else
       st <- start_field m ;;
       match parse_iso st with
       | Some dt => Ok (negb (instant dt <? instant cutoff)%Z)
       | None => Ok true
       end)%py.

(** Lines 312-328. *)
Fixpoint filter_meetings (organizer_email customer_email : string)
    (cutoff : datetime) (all_items : list json) : result (list json) :=
  match all_items with
  | [] => Ok []
  | m :: r =>
      (k <- keeps organizer_email customer_email cutoff m ;;
       rest <- filter_meetings organizer_email customer_email cutoff r ;;
       Ok (if k then m :: rest else rest))%py
  end.

(** The sort key of line 333: an aware datetime, compared as the UTC
    instant it denotes.  [filtered] holds dicts only. *)
Definition sort_key (mm : json) : Z :=
  match start_field mm with
  | Ok st =>
      match parse_iso st with
      | Some dt => instant dt
      | None => instant datetime_max_utc
      end
  | _ => instant datetime_max_utc
  end.

(** Lines 333-334: [filtered.sort(key=...); m = filtered[0]]. *)
Definition select_meeting (filtered : list json) : option json :=
  hd_error (sort_by sort_key filtered).

(** Line 335. *)
Definition meeting_id_of (m : json) : result json :=
  (a <- get m "uuid" ;;
   b <- get m "id" ;;
   c <- get m "meetingId" ;;
   Ok (por (por a b) c))%py.

(** Lines 346-358. *)
Definition make_payload (customer_email organizer_email : string)
    (meeting_id : json) (m : json) (plain : string) : result payload :=
  (subject <- get m "subject" ;;
   url <- get m "url" ;;
   app_url <- get m "app_url" ;;
   a <- get m "start_at" ;;
   b <- get m "startTime" ;;
   c <- get m "start_time" ;;
   atts <- attendees_emails m ;;
   Ok {| p_email := customer_email;
         p_organizer_email := organizer_email;
         p_meeting_id := meeting_id;
         p_meeting_subject := subject;
         p_meeting_url := por url app_url;
         p_start_at := por (por a b) c;
         p_attendees_emails := atts;
         p_transcript_text := plain;
         p_meeting_data := m |})%py.

(** Lines 360-364. *)
Definition deliver (webhook_url : string) (meeting_id : json) (body : payload)
    (results : summary) : M summary :=
  wr <- http (Webhook webhook_url body) ;;
  let success :=
    match truthy_response wr with
    | Some r => let s := status_code r in
                ((s =? 200) || (s =? 201) || (s =? 202) || (s =? 204))%Z
    | None => false
    end in
  if success then
    ret {| contacts_processed := contacts_processed results;
           emails_found := emails_found results;
           meetings_found := meetings_found results;
           transcripts_posted := S (transcripts_posted results);
           errors := errors results |}
  else
    ret {| contacts_processed := contacts_processed results;
           emails_found := emails_found results;
           meetings_found := meetings_found results;
           transcripts_posted := transcripts_posted results;
           errors := (errors results ++
                      [{| failed_meeting := meeting_id;
                          observed_status :=
                            match truthy_response wr with
                            | Some r => Some (status_code r)
                            | None => None
                            end |}])%list |}.

Definition add_meetings_found (n : nat) (results : summary) : summary :=
  {| contacts_processed := contacts_processed results;
     emails_found := emails_found results;
     meetings_found := (meetings_found results + n)%nat;
     transcripts_posted := transcripts_posted results;
     errors := errors results |}.

(** Lines 312-367: the body of the loop over [customers]. *)
Definition process_customer (webhook_url organizer_email : string)
    (cutoff : datetime) (delay : Q) (all_items : list json)
    (customer_email : string) (results : summary) : M summary :=
  filtered <- lift (filter_meetings organizer_email customer_email cutoff all_items) ;;
  match select_meeting filtered with
  | None => ret results                                   (* if not filtered: continue *)
  | Some m =>
      meeting_id <- lift (meeting_id_of m) ;;
      if negb (truthy meeting_id) then ret results
      else
        uuid <- lift (get m "transcription_uuid") ;;
        t_json <- av_fetch_transcript_json meeting_id uuid ;;
        if negb (truthy t_json) then ret results
        else
          plain <- lift (transcript_json_to_text frames t_json) ;;
          if negb (nonempty plain) then ret results
          else
            body <- lift (make_payload customer_email organizer_email meeting_id m plain) ;;
            results' <- deliver webhook_url meeting_id body results ;;
            time_sleep delay ;;;
            ret (add_meetings_found (List.length filtered) results')
  end.

(** Lines 311-367. *)
Fixpoint process_customers (webhook_url organizer_email : string)
    (cutoff : datetime) (delay : Q) (all_items : list json)
    (customers : list string) (results : summary) : M summary :=
  match customers with
  | [] => ret results
  | customer_email :: rest =>
      results' <- process_customer webhook_url organizer_email cutoff delay
                    all_items customer_email results ;;
      process_customers webhook_url organizer_email cutoff delay all_items rest results'
  end.

(** Lines 306-367. *)
Fixpoint process_organizers (webhook_url frm to : string) (cutoff : datetime)
    (limit pages : Z) (delay : Q)
    (contacts_by_owner : list (string * list string)) (results : summary)
  : M summary :=
  match contacts_by_owner with
  | [] => ret results
  | (organizer_email, customers) :: rest =>
      all_items <- av_list_meetings_by_organizer organizer_email frm to limit pages delay ;;
      results' <- (if is_nil all_items then ret results
                   else process_customers webhook_url organizer_email cutoff delay
                          all_items customers results) ;;
      process_organizers webhook_url frm to cutoff limit pages delay rest results'
  end.

(** Lines 298-300. *)
Definition window_of (days : Z) : result (string * string * datetime) :=
  match window days with
  | Some w => Ok w
  | None => Raise OverflowError
  end.

(** Lines 254-369; [fuel] bounds the membership pages. *)
Definition run_pipeline (fuel : nat) (hubspot_list_id webhook_url : string)
    (only_emails : option (list string)) (days : Z)
    (limit pages : Z) (delay : Q) : M summary :=
  ids <- hs_get_list_member_ids fuel hubspot_list_id delay ;;
  let results :=
    {| contacts_processed := List.length ids; emails_found := 0;
       meetings_found := 0; transcripts_posted := 0; errors := [] |} in
  if is_nil ids then ret results
  else
    contacts <- hs_batch_read_contacts ids delay ;;
    owner_ids <- lift (owner_ids_of contacts) ;;
    owner_email_by_id <- hs_owner_email_map owner_ids delay ;;
    cust_to_owner <- lift (correlate owner_email_by_id contacts []) ;;
    let emails := select_emails cust_to_owner only_emails in
    let results :=
      {| contacts_processed := List.length ids; emails_found := List.length emails;
         meetings_found := 0; transcripts_posted := 0; errors := [] |} in
    if is_nil emails then ret results
    else
      w <- lift (window_of days) ;;
      let '(frm, to, cutoff) := w in
      process_organizers webhook_url frm to cutoff limit pages delay
        (group_by_owner cust_to_owner emails []) results.

End Run.

(** * Vocabulary of the properties *)

(** A payload wrapped in [d] one-element lists. *)
Fixpoint nest (d : nat) (t : json) : json :=
  match d with
  | O => t
  | S d' => JList [nest d' t]
  end.

(** The nesting depth of a payload. *)
Fixpoint depth (t : json) : nat :=
  match t with
  | JList l => S (fold_right (fun x acc => Nat.max (depth x) acc) 0%nat l)
  | JDict kvs => S (fold_right (fun kv acc => Nat.max (depth (snd kv)) acc) 0%nat kvs)
  | _ => 0%nat
  end.

(** The turn-list-plus-speaker-table shape of a transcript payload. *)
Definition str_or_none (v : json) : bool :=
  match v with JStr _ | JNull => true | _ => false end.

(** A [{id, name}] entry of the speaker table. *)
Definition is_speaker_entry (s : json) : bool :=
  match s with
  | JDict kvs =>
      hashable (dget kvs "id") && str_or_none (dget kvs "name")
      && str_or_none (dget kvs "speaker")
  | _ => false
  end.

(** A turn object: its text under [transcript] or [text], its speaker id. *)
Definition is_turn (tr : json) : bool :=
  match tr with
  | JDict kvs =>
      str_or_none (dget kvs "transcript") && str_or_none (dget kvs "text")
      && hashable (dget kvs "speaker_id")
  | _ => false
  end.

Definition turn_shape (kvs : list (string * json)) (turns sps : list json) : Prop :=
  dget kvs "transcript" = JList turns /\ forallb is_turn turns = true /\
  dget kvs "speakers" = JList sps /\ forallb is_speaker_entry sps = true.

(** The text of a turn and its speaker id. *)
Definition turn_text (tr : json) : string :=
  match tr with
  | JDict kvs =>
      match por (por (dget kvs "transcript") (dget kvs "text")) (JStr "") with
      | JStr s => PyStr.strip s
      | _ => ""
      end
  | _ => ""
  end.

Definition turn_speaker_id (tr : json) : json :=
  match tr with
  | JDict kvs => dget kvs "speaker_id"
  | _ => JNull
  end.

(** The name a speaker entry gives to its id. *)
Definition entry_name (s : json) : json :=
  match s with
  | JDict kvs =>
      por (por (dget kvs "name") (dget kvs "speaker"))
          (JStr ("Speaker " ++ str_of_scalar (dget kvs "id")))
  | _ => JNull
  end.

Definition entry_id (s : json) : json :=
  match s with
  | JDict kvs => dget kvs "id"
  | _ => JNull
  end.

(** A line of the output attributed to turn [tr]: the resolved name, then
    [": "], then the text; or the bare text when no name resolves. *)
Definition attributed (tbl : speaker_table) (sps : list json) (tr : json)
    (line : string) : Prop :=
  (exists name s,
      table_get tbl (turn_speaker_id tr) = Some (JStr name) /\
      In s sps /\ key_eqb (entry_id s) (turn_speaker_id tr) = true /\
      entry_name s = JStr name /\
      line = name ++ ": " ++ turn_text tr)
  \/ (table_get tbl (turn_speaker_id tr) = None /\ line = turn_text tr).

(** Every entry of the table comes from a speaker entry seen so far. *)
Definition table_from (seen : list json) (tbl : speaker_table) : Prop :=
  forall k v, table_get tbl k = Some v ->
    exists name s, v = JStr name /\ nonempty name = true /\ In s seen /\
                   key_eqb (entry_id s) k = true /\ entry_name s = JStr name.

(** A payload with two named speakers and one unknown speaker id. *)
Definition turns_example : list (string * json) :=
  [("transcript",
    JList [JDict [("speaker_id", JNum 1); ("text", JStr " hello ")];
           JDict [("speaker_id", JNum 2); ("transcript", JStr "hi")];
           JDict [("speaker_id", JNum 7); ("text", JStr "who")]]);
   ("speakers",
    JList [JDict [("id", JNum 1); ("name", JStr "Ann")];
           JDict [("id", JNum 2)]])].

(** ** Vocabulary: the retry layer *)

(** An outcome after which [http_request] tries again. *)
Definition retryable (o : outcome) : bool :=
  match o with
  | Failure => true
  | Answer r => retry_status (status_code r)
  end.

(** The sleep before retry [i + 1] when the first sleep is [b]: doubled
    each time and capped, as line 48 and line 54 compute it. *)
Fixpoint backoff (b : Q) (i : nat) : Q :=
  match i with
  | O => b
  | S i' => Qmin (backoff b i' * 2) backoff_ceiling
  end.

(** The requests and sleeps of a trace, without the log lines. *)
Definition timeline (tr : list event) : list event :=
  filter (fun e => match e with Request _ | Sleep _ => true | _ => false end) tr.

(** [k] attempts each followed by its sleep, then a last attempt when
    [last] is set. *)
Definition retry_timeline (req : request) (b : Q) (k : nat) (last : bool) : list event :=
  (flat_map (fun i => [Request req; Sleep (backoff b i)]) (seq 0 k)
   ++ (if last then [Request req] else []))%list.

Definition is_some {A} (o : option A) : bool :=
  match o with Some _ => true | None => false end.

(** The events a computation added to the trace, oldest first. *)
Definition added (st st' : state) (evs : list event) : Prop :=
  trace st' = (rev evs ++ trace st)%list.

(** The sleeps of a list of events. *)
Definition sleeps (evs : list event) : list Q :=
  flat_map (fun e => match e with Sleep d => [d] | _ => [] end) evs.

(** A server that answers 503 three times and then 200 with a body. *)
Definition flaky_net (n : nat) (_ : request) : outcome :=
  if (n <? 3)%nat then Answer {| status_code := 503; body := None |}
  else Answer {| status_code := 200; body := Some (JStr "hello world") |}.

Definition state0 : state := {| calls := 0; trace := [] |}.

(** ** Vocabulary: meeting selection *)

(** A field of a meeting record. *)
Definition field (m : json) (k : string) : json :=
  match m with
  | JDict kvs => dget kvs k
  | _ => JNull
  end.

(** A string, or a value that [or ""] replaces. *)
Definition str_or_falsy (v : json) : bool :=
  match v with
  | JStr _ => true
  | _ => negb (truthy v)
  end.

(** A list whose elements satisfy [p], or a value that [or []] replaces. *)
Definition list_of (p : json -> bool) (v : json) : bool :=
  match v with
  | JList l => forallb p l
  | _ => negb (truthy v)
  end.

Definition well_shaped_attendee (a : json) : bool :=
  match a with
  | JDict kvs => str_or_falsy (dget kvs "email")
  | _ => false
  end.

(** A meeting record as the selection reads it: a dict whose attendees
    are dicts with a string email, whose organizer is a string and whose
    processing status is a scalar. *)
Definition well_shaped_meeting (m : json) : bool :=
  match m with
  | JDict kvs =>
      list_of well_shaped_attendee (dget kvs "attendees")
      && str_or_falsy (dget kvs "organizer_email")
      && hashable (dget kvs "processing_status")
  | _ => false
  end.

(** The organizer field of a meeting, trimmed and in lower case. *)
Definition organizer_of (m : json) : string :=
  match por (field m "organizer_email") (JStr "") with
  | JStr s => PyStr.lower (PyStr.strip s)
  | _ => ""
  end.

(** The attendee emails of a meeting. *)
Definition attendee_set (m : json) : list string :=
  match attendees_emails m with
  | Ok l => l
  | Raise _ => []
  end.

(** At least one call-completed signal. *)
Definition call_completed (m : json) : Prop :=
  truthy (field m "transcript_ready") = true \/
  truthy (field m "transcription_uuid") = true \/
  truthy (field m "audio_ready") = true \/
  truthy (field m "video_ready") = true \/
  field m "processing_status" = JStr "transcription_available" \/
  field m "processing_status" = JStr "completed".

Section Eligibility.

Variable fromisoformat : string -> option datetime.

(** The start time of a meeting, when one of its start fields parses. *)
Definition start_time (m : json) : option datetime :=
  parse_iso fromisoformat
    (por (por (por (field m "start_at") (field m "startTime"))
              (field m "start_time")) (field m "start")).

(** The four predicates of the selection filter. *)
Definition eligible (organizer_email leaf_email : string) (cutoff : datetime)
    (m : json) : Prop :=
  (organizer_of m = organizer_email \/ In organizer_email (attendee_set m)) /\
  In leaf_email (attendee_set m) /\
  call_completed m /\
  (forall dt, start_time m = Some dt -> (instant cutoff <= instant dt)%Z).

End Eligibility.

(** *** Example data *)

(** [datetime.fromisoformat] at the strings of the examples. *)
Definition iso_examples (s : string) : option datetime :=
  if String.eqb s "2024-01-02T10:00:00+00:00"
  then Some {| wall := 63839786400000000; utcoffset := Some 0%Z |}
  else if String.eqb s "2024-01-03T10:00:00+00:00"
  then Some {| wall := 63839872800000000; utcoffset := Some 0%Z |}
  else if String.eqb s "2024-01-05T10:00:00+00:00"
  then Some {| wall := 63840045600000000; utcoffset := Some 0%Z |}
  else if String.eqb s "9999-12-31T23:59:59.999999+00:00"
  then Some datetime_max_utc
  else None.

(** 2023-06-01T00:00:00Z *)
Definition cutoff_example : datetime :=
  {| wall := 63821174400000000; utcoffset := Some 0%Z |}.

(** A meeting record with a ready transcript. *)
Definition meeting (id organizer : string) (attendees : list string) (start : json)
  : json :=
  JDict [("uuid", JStr id);
         ("organizer_email", JStr organizer);
         ("attendees", JList (map (fun e => JDict [("email", JStr e)]) attendees));
         ("start_at", start);
         ("transcript_ready", JBool true)].

Definition meeting_day2 : json :=
  meeting "m2" "owner@x.com" ["owner@x.com"; "leaf@y.com"] (JStr "2024-01-02T10:00:00Z").
Definition meeting_day3 : json :=
  meeting "m3" "owner@x.com" ["owner@x.com"; "leaf@y.com"] (JStr "2024-01-03T10:00:00Z").
Definition meeting_day5 : json :=
  meeting "m5" "owner@x.com" ["owner@x.com"; "leaf@y.com"] (JStr "2024-01-05T10:00:00Z").
Definition meeting_no_start : json :=
  meeting "m0" "owner@x.com" ["owner@x.com"; "leaf@y.com"] JNull.
Definition meeting_at_sentinel : json :=
  meeting "m9" "owner@x.com" ["owner@x.com"; "leaf@y.com"]
          (JStr "9999-12-31T23:59:59.999999Z").
Definition meeting_other_leaf : json :=
  meeting "mx" "owner@x.com" ["owner@x.com"; "else@y.com"] (JStr "2024-01-02T10:00:00Z").

(** The requests of a list of events. *)
Definition requests_of (evs : list event) : list request :=
  flat_map (fun e => match e with Request r => [r] | _ => [] end) evs.

(** The organizers of the meeting fetches logged in a list of events. *)
Definition fetched (evs : list event) : list string :=
  flat_map (fun e => match e with LogFetched _ o _ => [o] | _ => [] end) evs.


(** What [http_request] for [req] may add to the trace. *)
Definition http_event (req : request) (e : event) : Prop :=
  match e with
  | Request r | LogException r => r = req
  | Sleep _ => True
  | _ => False
  end.


(** A meeting API that knows only the second parameter style. *)
Definition second_style_only (_ : nat) (r : request) : outcome :=
  match r with
  | Av_meetings organizerEmail_style _ _ _ _ =>
      Answer {| status_code := 200;
                body := Some (JDict [("meetings", JList [meeting_day3])]) |}
  | _ => Answer {| status_code := 400; body := None |}
  end.


(** [repr] of a container; none is printed in the examples. *)
Definition repr_examples (_ : json) : string := "[]".

Definition contact (id email owner : string) : json :=
  JDict [("id", JStr id);
         ("properties", JDict [("email", JStr email);
                               ("hubspot_owner_id", JStr owner)])].

Definition ok_response (j : json) : outcome :=
  Answer {| status_code := 200; body := Some j |}.

(** A CRM list of two contacts of one owner, each with one ready meeting
    whose transcript is a flat string; the webhook accepts. *)
Definition two_leaves_net (_ : nat) (r : request) : outcome :=
  match r with
  | Hs_list _ => ok_response (JDict [("listId", JStr "7")])
  | Hs_memberships _ _ =>
      ok_response (JDict [("results", JList [JDict [("recordId", JStr "1")];
                                             JDict [("recordId", JStr "2")]])])
  | Hs_batch_read _ =>
      ok_response (JDict [("results", JList [contact "1" "Ann@y.com" "77";
                                             contact "2" "bob@y.com" "77"])])
  | Hs_owner _ => ok_response (JDict [("id", JStr "77"); ("email", JStr "owner@x.com")])
  | Av_meetings organizer_email_style _ _ _ _ =>
      ok_response
        (JDict [("results",
                 JList [meeting "ma" "owner@x.com" ["owner@x.com"; "ann@y.com"]
                                (JStr "2024-01-02T10:00:00Z");
                        meeting "mb" "owner@x.com" ["owner@x.com"; "bob@y.com"]
                                (JStr "2024-01-03T10:00:00Z")])])
  | Av_transcript _ => ok_response (JDict [("text", JStr "hello world")])
  | Webhook _ _ => Answer {| status_code := 200; body := None |}
  | _ => Answer {| status_code := 404; body := None |}
  end.

(** The window of the examples: from 2023-06-01 to 2024-06-01. *)
Definition window_example (_ : Z) : option (string * string * datetime) :=
  Some ("2023-06-01", "2024-06-01", cutoff_example).

(** Room for the normalizer in the examples. *)
Definition frames_example : nat := 400.

(** The run of the examples: fuel for ten membership pages, list 7, no
    allow-list, the default days, limit, pages and delay. *)
Definition run_example (net : nat -> request -> outcome) : run summary :=
  run_pipeline net iso_examples repr_examples window_example frames_example 10 "7"
    "https://hook.example" None 365 100 5 (1 # 2) state0.

Definition not_webhook (r : request) : Prop :=
  match r with
  | Webhook _ _ => False
  | _ => True
  end.

(** One contact whose owner has one ready meeting with the contact, but
    no transcript can be fetched for it. *)
Definition no_transcript_net (_ : nat) (r : request) : outcome :=
  match r with
  | Hs_list _ => ok_response (JDict [("listId", JStr "7")])
  | Hs_memberships _ _ =>
      ok_response (JDict [("results", JList [JDict [("recordId", JStr "1")]])])
  | Hs_batch_read _ =>
      ok_response (JDict [("results", JList [contact "1" "leaf@y.com" "77"])])
  | Hs_owner _ => ok_response (JDict [("id", JStr "77"); ("email", JStr "owner@x.com")])
  | Av_meetings organizer_email_style _ _ _ _ =>
      ok_response (JDict [("results", JList [meeting_day2])])
  | _ => Answer {| status_code := 404; body := None |}
  end.

(** ** Vocabulary: well-shaped payloads *)

Definition is_dict (v : json) : bool :=
  match v with JDict _ => true | _ => false end.

(** A value that [or {}] replaces, or a dict that satisfies [p]. *)
Definition dict_or_falsy (p : list (string * json) -> bool) (v : json) : bool :=
  match v with
  | JDict kvs => match kvs with [] => true | _ => p kvs end
  | _ => negb (truthy v)
  end.

(** An optional field (what [d.get(k, default)] reads): absent, or ... *)
Definition absent_or (p : json -> bool) (o : option json) : bool :=
  match o with
  | None => true
  | Some v => p v
  end.

Definition is_list_of (p : json -> bool) (v : json) : bool :=
  match v with
  | JList l => forallb p l
  | _ => false
  end.

(** The body of a page of list memberships: [results], when present, is a
    list of dicts; [paging] and its [next], when present, are dicts. *)
Definition memberships_shape (j : json) : bool :=
  dict_or_falsy
    (fun kvs =>
       absent_or (is_list_of is_dict) (lookup kvs "results")
       && absent_or (fun p => match p with
                              | JDict pk => absent_or is_dict (lookup pk "next")
                              | _ => false
                              end) (lookup kvs "paging")) j.

(** A contact record: a dict whose [properties], when present, is a dict
    with string [email] and [hubspot_owner_id]. *)
Definition well_shaped_contact (c : json) : bool :=
  match c with
  | JDict kvs =>
      dict_or_falsy
        (fun p => str_or_falsy (dget p "email")
                  && str_or_falsy (dget p "hubspot_owner_id"))
        (dget kvs "properties")
  | _ => false
  end.

(** The body of a batch read: a dict whose [results], when present, is a
    list of contact records. *)
Definition batch_shape (j : json) : bool :=
  match j with
  | JDict kvs => absent_or (is_list_of well_shaped_contact) (lookup kvs "results")
  | _ => false
  end.

(** The body of a page of meetings: when [results] (or else [meetings])
    is a list, it is a list of meeting records. *)
Definition meetings_shape (j : json) : bool :=
  dict_or_falsy
    (fun kvs =>
       match por (por (dget kvs "results") (dget kvs "meetings")) (JList []) with
       | JList l => forallb well_shaped_meeting l
       | _ => true
       end) j.

(** A turn of a turn list: anything that is not a dict, or a turn object. *)
Definition turn_ok (tr : json) : bool :=
  match tr with
  | JDict _ => is_turn tr
  | _ => true
  end.

(** An entry of [paragraphs] or [segments]: a dict with string fields. *)
Definition segment_ok (it : json) : bool :=
  match it with
  | JDict kvs =>
      str_or_falsy (dget kvs "speaker") && str_or_falsy (dget kvs "speaker_label")
      && str_or_falsy (dget kvs "text")
  | _ => false
  end.

(** The schema of a transcript payload: a dict whose turn list, when
    [transcript] is a list, holds turn objects and goes with a speaker
    table of [{id, name}] entries, whose [paragraphs] and [segments] are
    lists of string-valued dicts, and whose [results] list, like a list
    payload, holds payloads of this schema; or anything that is not a
    dict. *)
Fixpoint transcript_schema (t : json) : bool :=
  match t with
  | JDict kvs =>
      match dget kvs "transcript" with
      | JList turns =>
          forallb turn_ok turns && list_of is_speaker_entry (dget kvs "speakers")
      | _ => true
      end
      && list_of segment_ok (dget kvs "paragraphs")
      && list_of segment_ok (dget kvs "segments")
      && (fix find (l : list (string * json)) : bool :=
            match l with
            | [] => true
            | kv :: r =>
                let (k, v) := kv in
                if String.eqb k "results" then
                  match v with
                  | JList xs => forallb transcript_schema xs
                  | _ => true
                  end
                else find r
            end) kvs
  | JList xs => forallb transcript_schema xs
  | _ => true
  end.

(** The body of [/v1/meetings/{id}/transcriptions]: the first item of its
    list, when it has one, is such a payload. *)
Definition transcriptions_shape (j : json) : bool :=
  match (match j with
         | JDict kvs => dget_default kvs "results" j
         | _ => j
         end) with
  | JList (first :: _) => transcript_schema first
  | _ => true
  end.

(** The shape of the body of a response to [req], where the run reads it. *)
Definition body_shape (req : request) (b : option json) : bool :=
  match req with
  | Hs_memberships _ _ => match b with Some j => memberships_shape j | None => false end
  | Hs_batch_read _ => match b with Some j => batch_shape j | None => false end
  | Av_meetings _ _ _ _ _ | Av_next _ =>
      match b with Some j => meetings_shape j | None => false end
  | Av_transcript _ | Av_transcription _ =>
      match b with Some j => transcript_schema j | None => false end
  | Av_transcriptions _ =>
      match b with Some j => transcriptions_shape j | None => false end
  | Hs_list _ | Hs_owner _ | Webhook _ _ => true
  end.

(** Every response whose status is below 400 has a well-shaped body. *)
Definition well_shaped_net (net : nat -> request -> outcome) : Prop :=
  forall n req r, net n req = Answer r -> ok r = true ->
                  body_shape req (body r) = true.

(** The cursor of a page of list memberships. *)
Definition cursor_of (b : option json) : json :=
  match b with
  | Some j =>
      match after_of (por j (JDict [])) with
      | Ok v => v
      | Raise _ => JNull
      end
  | None => JNull
  end.

(** From call [n0] on, no page of list memberships carries a cursor. *)
Definition pages_end (net : nat -> request -> outcome) (n0 : nat) : Prop :=
  forall n list_id after r,
    (n0 <= n)%nat -> net n (Hs_memberships list_id after) = Answer r ->
    truthy (cursor_of (body r)) = false.

(** [wr and wr.status_code in (200, 201, 202, 204)] *)
Definition delivered (wr : option response) : bool :=
  match truthy_response wr with
  | Some r => let s := status_code r in
              ((s =? 200) || (s =? 201) || (s =? 202) || (s =? 204))%Z
  | None => false
  end.

(** The summary after a delivery that succeeded. *)
Definition posted_one_more (results : summary) : summary :=
  {| contacts_processed := contacts_processed results;
     emails_found := emails_found results;
     meetings_found := meetings_found results;
     transcripts_posted := S (transcripts_posted results);
     errors := errors results |}.

(** The summary after a delivery that failed. *)
Definition with_error (results : summary) (meeting_id : json) (wr : option response)
  : summary :=
  {| contacts_processed := contacts_processed results;
     emails_found := emails_found results;
     meetings_found := meetings_found results;
     transcripts_posted := transcripts_posted results;
     errors := (errors results ++
                [{| failed_meeting := meeting_id;
                    observed_status := match truthy_response wr with
                                       | Some r => Some (status_code r)
                                       | None => None
                                       end |}])%list |}.

Definition status_net (s : Z) (_ : nat) (_ : request) : outcome :=
  Answer {| status_code := s; body := None |}.

Definition down_net (_ : nat) (_ : request) : outcome := Failure.

(** The list lookup succeeds, every later call gets a 403 or fails. *)
Definition forbidden_net (n : nat) (r : request) : outcome :=
  match r with
  | Hs_list _ => ok_response (JDict [])
  | _ => if Nat.even n then Answer {| status_code := 403; body := None |}
         else Failure
  end.

(** The schema of the elements of a dict's [results] list. *)
Definition results_schema (rec : json -> bool) : list (string * json) -> bool :=
  fix find (l : list (string * json)) : bool :=
    match l with
    | [] => true
    | kv :: r =>
        let (k, v) := kv in
        if String.eqb k "results" then
          match v with
          | JList xs => forallb rec xs
          | _ => true
          end
        else find r
    end.

(** The bodies posted to the webhook in a list of events. *)
Definition webhook_bodies (evs : list event) : list payload :=
  flat_map (fun e => match e with Request (Webhook _ b) => [b] | _ => [] end) evs.

(** One list member with a resolvable owner and one eligible meeting whose
    transcript is the flat string "hello world"; the webhook accepts. *)
Definition one_leaf_net (_ : nat) (r : request) : outcome :=
  match r with
  | Hs_list _ => ok_response (JDict [("listId", JStr "7")])
  | Hs_memberships _ _ =>
      ok_response (JDict [("results", JList [JDict [("recordId", JNum 1)]])])
  | Hs_batch_read _ =>
      ok_response (JDict [("results", JList [contact "1" " Leaf@Y.com " "77"])])
  | Hs_owner _ => ok_response (JDict [("id", JStr "77"); ("email", JStr "Owner@X.com")])
  | Av_meetings organizer_email_style _ _ _ _ =>
      ok_response (JDict [("results", JList [meeting_day2])])
  | Av_transcript _ => ok_response (JStr "hello world")
  | Webhook _ _ => Answer {| status_code := 200; body := None |}
  | _ => Answer {| status_code := 404; body := None |}
  end.


(** A list whose every page of memberships carries a cursor. *)
Definition endless_net (_ : nat) (r : request) : outcome :=
  match r with
  | Hs_list _ => ok_response (JDict [("listId", JStr "7")])
  | Hs_memberships _ _ =>
      ok_response
        (JDict [("results", JList [JDict [("recordId", JStr "1")]]);
                ("paging", JDict [("next", JDict [("after", JStr "more")])])])
  | _ => Answer {| status_code := 404; body := None |}
  end.

(** ** Vocabulary: normalized emails, sorted sets and groups *)

(** An email as the pipeline writes it before it compares it:
    [e.strip().lower()]. *)
Definition normalize (s : string) : string := PyStr.lower (PyStr.strip s).

(** A string that [strip] and [lower] leave alone. *)
Definition normalized (s : string) : Prop :=
  PyStr.strip s = s /\ PyStr.lower s = s.

(** The order of [sorted] on strings. *)
Definition str_lt (a b : string) : Prop := String.compare a b = Lt.

(** The entries of a meeting's [attendees]; none when the field is falsy. *)
Definition attendees_of (m : json) : list json :=
  match iter_or_empty (field m "attendees") with
  | Ok l => l
  | Raise _ => []
  end.

(** The email of an attendee as line 249 reads it. *)
Definition attendee_email (a : json) : string :=
  match por (field a "email") (JStr "") with
  | JStr s => normalize s
  | _ => ""
  end.

(** [c.get("properties") or {}] of a contact record. *)
Definition properties_of (c : json) : json := por (field c "properties") (JDict []).

(** The leaf email of a contact record as line 283 reads it. *)
Definition contact_email (c : json) : string :=
  match por (field (properties_of c) "email") (JStr "") with
  | JStr s => normalize s
  | _ => ""
  end.

(** The owner id of a contact record as line 284 reads it. *)
Definition contact_owner_id (c : json) : string :=
  match por (field (properties_of c) "hubspot_owner_id") (JStr "") with
  | JStr s => PyStr.strip s
  | _ => ""
  end.

(** The owner email that [owner_email_by_id] gives a contact, when it is
    not empty. *)
Definition resolved_owner (owner_email_by_id : sdict) (c : json) : option string :=
  match sdict_get owner_email_by_id (contact_owner_id c) with
  | Some oe => if nonempty oe then Some oe else None
  | None => None
  end.

(** The leaves of all groups, group after group. *)
Definition leaves_of (groups : list (string * list string)) : list string :=
  List.concat (map snd groups).

(** A meeting with three attendee entries for one address and a blank one. *)
Definition meeting_mixed_case : json :=
  JDict [("attendees",
          JList [JDict [("email", JStr " Bob@Y.com ")];
                 JDict [("email", JStr "ann@y.com")];
                 JDict [("email", JStr "BOB@y.com")];
                 JDict [("email", JStr "   ")];
                 JDict [("name", JStr "no email")]])].

(** Every group holds a leaf, and every leaf of a group maps to the
    group's organizer. *)
Definition groups_sound (c2o : sdict) (g : list (string * list string)) : Prop :=
  forall o cs, In (o, cs) g ->
               cs <> [] /\ forall ce, In ce cs -> sdict_get c2o ce = Some o.

(** What one contact does to [cust_to_owner] (lines 282-289). *)
Definition correlate_step (owner_email_by_id : sdict) (acc : sdict) (c : json) : sdict :=
  if nonempty (contact_email c) then
    match resolved_owner owner_email_by_id c with
    | Some oe => sdict_set acc (contact_email c) oe
    | None => acc
    end
  else acc.

(** Two contact records for one address, with different owners. *)
Definition contacts_same_leaf : list json :=
  [contact "1" "Ann@Y.com" "77"; contact "2" " ann@y.com " "78"].

Definition owners_example : sdict := [("77", "first@x.com"); ("78", "second@x.com")].

(** Every email of an owner map is non-empty, trimmed and in lower case. *)
Definition emails_normalized (mapping : sdict) : Prop :=
  forall k v, sdict_get mapping k = Some v -> nonempty v = true /\ normalized v.

(** The requests of one call of [http_request] for each of [xs] in turn,
    as long as [ns] lasts: [S n] attempts for the element that goes with
    [n]. *)
Definition calls_of {A} (mk : A -> request) (xs : list A) (ns : list nat)
  : list request :=
  flat_map (fun p => repeat (mk (fst p)) (S (snd p))) (combine xs ns).

(** ** Vocabulary: the exceptions of a computation *)

(** A Python computation that raises, if at all, an exception of [P]. *)
Definition may_raise {A} (P : exn -> Prop) (r : result A) : Prop :=
  match r with
  | Ok _ => True
  | Raise e => P e
  end.

(** The same for a computation with effects. *)
Definition may_escape {A} (P : exn -> Prop) (r : run A) : Prop :=
  match r with
  | Raises e => P e
  | _ => True
  end.

(** An [AttributeError] or [TypeError] on a value of the wrong type. *)
Definition shape_error (e : exn) : Prop := e = ShapeError.

(** What a response that was accepted can make the code raise: the wrong
    type of a value, or a body that is not JSON. *)
Definition payload_error (e : exn) : Prop := e = ShapeError \/ e = JSONDecodeError.

(** A value that lines 183-184 pass over: not a string, or a string of
    white space. *)
Definition flat_blank (v : json) : bool :=
  match v with
  | JStr s => negb (nonempty (PyStr.strip s))
  | _ => true
  end.

(** A payload with a blank [content], a flat [text] and an entry of
    [paragraphs] that is not a dict. *)
Definition flat_and_paragraphs : list (string * json) :=
  [("paragraphs", JList [JStr "x"]); ("text", JStr " hi "); ("content", JStr "  ")].

(** The time slept in all, for a list of delays. *)
Definition Qsum (l : list Q) : Q := fold_right Qplus 0%Q l.

(** ** Vocabulary: the transcript fetch *)



(** What may escape a run: the refusal of the list lookup, or an accepted
    response that is not what the code expects. *)
Definition run_error (e : exn) : Prop := e = RuntimeError \/ payload_error e.

(** ** Vocabulary: the counters of the summary *)

(** The deliveries a summary accounts for, posted or failed. *)
Definition deliveries (s : summary) : nat :=
  (transcripts_posted s + List.length (errors s))%nat.

(** [status in (200, 201, 202, 204)] *)
Definition success_status (s : Z) : bool :=
  ((s =? 200) || (s =? 201) || (s =? 202) || (s =? 204))%Z.

(** What an entry of [errors] can say: ['no-response'], or a status that
    is neither a success nor an error status. *)
Definition error_entry (e : webhook_error) : Prop :=
  match observed_status e with
  | None => True
  | Some c => success_status c = false /\ ~ (400 <= c < 600)%Z
  end.

(** The fields of a summary that the loop over the leaves leaves alone. *)
Definition same_header (s s' : summary) : Prop :=
  contacts_processed s' = contacts_processed s /\ emails_found s' = emails_found s.

(** One (organizer, leaf) pair, or a run of them, on a summary: [d] more
    deliveries, at most [most]. *)
Definition accounts (most : nat) (s s' : summary) : Prop :=
  same_header s s' /\
  (deliveries s <= deliveries s' <= deliveries s + most)%nat /\
  (meetings_found s + (deliveries s' - deliveries s) <= meetings_found s')%nat /\
  (deliveries s' = deliveries s -> meetings_found s' = meetings_found s) /\
  (Forall error_entry (errors s) -> Forall error_entry (errors s')).

(** ** The environment check *)

(** [os.environ]: the value of a variable, [None] when it is not set. *)
Definition environ : Type := string -> option string.

(** How [require_env] ends: it returns a dict, it raises
    [RuntimeError(message)], or [os.environ[k]] raises [KeyError]. *)
Inductive env_result : Type :=
| Env (d : sdict)
| MissingEnv (message : string)
| EnvKeyError (k : string).

(** [bool(os.environ.get(k))] *)
Definition env_set (env : environ) (k : string) : bool :=
  match env k with
  | Some v => nonempty v
  | None => false
  end.

(** [sep.join(l)] *)
Fixpoint join_with (sep : string) (l : list string) : string :=
  match l with
  | [] => ""
  | [x] => x
  | x :: r => x ++ sep ++ join_with sep r
  end.

(** Line 384: [{k: os.environ[k] for k in keys}], from the dict [d] on. *)
Fixpoint env_dict (env : environ) (keys : list string) (d : sdict) : env_result :=
  match keys with
  | [] => Env d
  | k :: r =>
      match env k with
      | Some v => env_dict env r (sdict_set d k v)
      | None => EnvKeyError k
      end
  end.

(** Line 381: [[k for k in keys if not os.environ.get(k)]] *)
Definition missing_env (env : environ) (keys : list string) : list string :=
  filter (fun k => negb (env_set env k)) keys.

(** Lines 380-384. *)
Definition require_env (env : environ) (keys : list string) : env_result :=
  let missing := missing_env env keys in
  if negb (is_nil missing)
  then MissingEnv ("Missing env: " ++ join_with ", " missing)
  else env_dict env keys [].

(** The variables line 388 requires. *)
Definition required_keys : list string :=
  ["HUBSPOT_TOKEN"; "HUBSPOT_LIST_ID"; "AVOMA_API_KEY"; "WEBHOOK_URL"].

(** An environment with an empty list id and no webhook URL. *)
Definition env_example : environ :=
  fun k =>
    if String.eqb k "HUBSPOT_TOKEN" then Some "pat-1"
    else if String.eqb k "HUBSPOT_LIST_ID" then Some ""
    else if String.eqb k "AVOMA_API_KEY" then Some "key-1"
    else None.

(** Whether line 328 appends meeting [m]. *)
Definition kept (fromisoformat : string -> option datetime)
    (organizer_email customer_email : string) (cutoff : datetime) (m : json) : bool :=
  match keeps fromisoformat organizer_email customer_email cutoff m with
  | Ok true => true
  | _ => false
  end.

(** ** Vocabulary: the members of the list *)

(** The record ids that lines 77-81 collect from the body [j] of one page
    of memberships. *)
Definition page_record_ids (repr : json -> string) (j : json) : list string :=
  match (res <- get_default (por j (JDict [])) "results" (JList []) ;;
         its <- iter res ;;
         collect_record_ids repr [] its)%py with
  | Ok ids => ids
  | Raise _ => []
  end.

Definition is_membership_request (list_id : string) (r : request) : Prop :=
  exists after, r = Hs_memberships list_id after.

(** A list of three members on two pages; the second record of the first
    page has no id. *)
Definition two_pages_net (_ : nat) (r : request) : outcome :=
  match r with
  | Hs_list _ => ok_response (JDict [("listId", JStr "7")])
  | Hs_memberships _ JNull =>
      ok_response
        (JDict [("results", JList [JDict [("recordId", JNum 11)];
                                   JDict [("recordId", JNull)];
                                   JDict [("recordId", JStr "12")]]);
                ("paging", JDict [("next", JDict [("after", JStr "c1")])])])
  | Hs_memberships _ _ =>
      ok_response (JDict [("results", JList [JDict [("recordId", JNum 13)]])])
  | _ => Answer {| status_code := 404; body := None |}
  end.

(** ** Vocabulary: the specification's speaker lookup *)

(** The id -> name lookup of the specification: the name that the last
    entry of [sps] whose id equals [sid] gives, and none when no entry has
    that id.  An entry without an id is in no lookup. *)
Fixpoint resolve (sps : list json) (sid : json) : option json :=
  match sps with
  | [] => None
  | s :: r =>
      match resolve r sid with
      | Some v => Some v
      | None =>
          if negb (is_null (entry_id s)) && key_eqb (entry_id s) sid
          then Some (entry_name s) else None
      end
  end.

(** The line the specification gives a turn: none for a turn without
    text, the text after the resolved name and [": "], or the bare text
    when no name resolves for the speaker id of the turn. *)
Definition spoken (sps : list json) (tr : json) : option string :=
  if nonempty (turn_text tr) then
    match resolve sps (turn_speaker_id tr) with
    | Some (JStr name) => Some (name ++ ": " ++ turn_text tr)
    | _ => Some (turn_text tr)
    end
  else None.

Definition spoken_lines (sps turns : list json) : list string :=
  flat_map (fun tr => match spoken sps tr with Some l => [l] | None => [] end) turns.

(** [s.split("\n")] *)
Fixpoint split_lines (s : string) : list string :=
  match s with
  | EmptyString => [EmptyString]
  | String c r =>
      if Ascii.eqb c (ascii_of_N 10) then EmptyString :: split_lines r
      else
        match split_lines r with
        | l :: ls => String c l :: ls
        | [] => [String c EmptyString]
        end
  end.

(** One turn of a named speaker whose text has two lines. *)
Definition two_line_turn : list json :=
  [JDict [("speaker_id", JNum 1); ("text", JStr ("a" ++ PyStr.newline ++ "b"))]].

Definition one_speaker : list json := [JDict [("id", JNum 1); ("name", JStr "Ann")]].

Definition two_line_example : list (string * json) :=
  [("transcript", JList two_line_turn); ("speakers", JList one_speaker)].

(** The speakers of [turns_example]. *)
Definition speakers_example : list json :=
  [JDict [("id", JNum 1); ("name", JStr "Ann")]; JDict [("id", JNum 2)]].

(** ** Vocabulary: the leaves served from one fetched list *)




Section Serving.

Variable net : nat -> request -> outcome.
Variable fromisoformat : string -> option datetime.
Variable frames : nat.
Variable url frm to : string.
Variable cutoff : datetime.
Variable limit pages : Z.
Variable delay : Q.



End Serving.

(** ** Vocabulary: the depth of the transcripts *)

(** The transcript payload that the transcript fetch reads from the body
    of a response to [req] (lines 163-174), if it reads one. *)
Definition transcript_of (req : request) (b : option json) : option json :=
  match req, b with
  | Av_transcript _, Some j => Some j
  | Av_transcription _, Some j => Some j
  | Av_transcriptions _, Some j =>
      match (match j with
             | JDict kvs => dget_default kvs "results" j
             | _ => j
             end) with
      | JList (first :: _) => Some first
      | _ => None
      end
  | _, _ => None
  end.

(** The interpreter has room for the nesting of every transcript payload
    that a response with a status below 400 carries. *)
Definition transcripts_fit (net : nat -> request -> outcome) (frames : nat) : Prop :=
  forall n req r t,
    net n req = Answer r -> ok r = true -> transcript_of req (body r) = Some t ->
    (depth t < frames)%nat.

(** [net] with the transcript of every meeting replaced by [t]. *)
Definition with_transcript (t : json) (net : nat -> request -> outcome)
    (n : nat) (r : request) : outcome :=
  match r with
  | Av_transcript _ => Answer {| status_code := 200; body := Some t |}
  | _ => net n r
  end.

(** A clock whose date arithmetic overflows. *)
Definition window_overflow (_ : Z) : option (string * string * datetime) := None.

(** ** Vocabulary: the exchanges of a computation *)

(** The requests of a computation whose first request is call [n] of the
    run, each with its outcome, in the order in which they were made. *)
Fixpoint exchanges (net : nat -> request -> outcome) (n : nat) (reqs : list request)
  : list (request * outcome) :=
  match reqs with
  | [] => []
  | r :: rest => (r, net n r) :: exchanges net (S n) rest
  end.



(** The bodies of the pages of memberships that were accepted, that is
    answered with a status below 400, in the order of the exchanges. *)
Definition accepted_bodies (xs : list (request * outcome)) : list json :=
  flat_map (fun x => match x with
                     | (Hs_memberships _ _, Answer r) =>
                         if ok r then match body r with
                                      | Some j => [j]
                                      | None => []
                                      end
                         else []
                     | _ => []
                     end) xs.



(** What a step of a run lets escape: an accepted response that is not
    what the code expects, or what [time.sleep] raises on the delay. *)
Definition step_error (delay : Q) (e : exn) : Prop :=
  payload_error e \/ sleep_error delay = Some e.

(** What the processing of a leaf lets escape: that, or the recursion
    limit met by the normalizer on a transcript that does not fit. *)
Definition leaf_error (net : nat -> request -> outcome) (frames : nat) (delay : Q)
    (e : exn) : Prop :=
  step_error delay e \/ (e = RecursionError /\ ~ transcripts_fit net frames).

(** * Properties *)

(** ** Strings *)

Lemma lstrip_idem (s : string) : PyStr.lstrip (PyStr.lstrip s) = PyStr.lstrip s.
Proof.
  induction s as [|c r IH]; simpl; [reflexivity|].
  destruct (PyStr.is_space c) eqn:E; [exact IH|].
  simpl. now rewrite E.
Qed.

Lemma rstrip_idem (s : string) : PyStr.rstrip (PyStr.rstrip s) = PyStr.rstrip s.
Proof.
  induction s as [|c r IH]; simpl; [reflexivity|].
  destruct (PyStr.is_space c && PyStr.is_empty (PyStr.rstrip r)) eqn:E; [reflexivity|].
  simpl. rewrite IH, E. reflexivity.
Qed.

Lemma rstrip_lstrip (s : string) :
  PyStr.rstrip (PyStr.lstrip s) = PyStr.lstrip (PyStr.rstrip s).
Proof.
  induction s as [|c r IH]; simpl; [reflexivity|].
  destruct (PyStr.is_space c) eqn:E; simpl.
  - destruct (PyStr.is_empty (PyStr.rstrip r)) eqn:E'; simpl.
    + rewrite IH. destruct (PyStr.rstrip r); [reflexivity|discriminate].
    + now rewrite E.
  - now rewrite E.
Qed.

Lemma strip_idem (s : string) : PyStr.strip (PyStr.strip s) = PyStr.strip s.
Proof.
  unfold PyStr.strip.
  rewrite (rstrip_lstrip (PyStr.rstrip s)), rstrip_idem, lstrip_idem.
  reflexivity.
Qed.

Lemma nonempty_false (s : string) : nonempty s = false -> s = "".
Proof. destruct s; [reflexivity|discriminate]. Qed.

(** ** The normalizer: recursion *)


Lemma normalizer_singleton (frames : nat) (x : json) (p : string) :
  transcript_json_to_text frames x = Ok p ->
  transcript_json_to_text (S frames) (JList [x]) = Ok (PyStr.strip p).
Proof.
  intros H. cbn [transcript_json_to_text truthy negb mapM]. rewrite H. cbn.
  destruct (nonempty p) eqn:E; cbn; [reflexivity|].
  apply nonempty_false in E. now subst.
Qed.

Lemma normalizer_str (frames : nat) (s : string) :
  transcript_json_to_text (S frames) (JStr s) = Ok (PyStr.strip s).
Proof. destruct s; reflexivity. Qed.



Lemma normalizer_dict (frames : nat) (kv : string * json) (r : list (string * json)) :
  transcript_json_to_text (S frames) (JDict (kv :: r)) =
  match first_text (kv :: r) flat_keys with
  | Some s => Ok s
  | None =>
      (lines <- transcript_lines (kv :: r) ;;
       if negb (is_nil lines) then Ok (joined lines)
       else
         lines2 <- segment_lines (kv :: r) ;;
         if negb (is_nil lines2) then Ok (joined lines2)
         else results_text (transcript_json_to_text frames) (kv :: r))%py
  end.
Proof. reflexivity. Qed.

Lemma normalizer_list (frames : nat) (x : json) (r : list json) :
  transcript_json_to_text (S frames) (JList (x :: r)) =
  (parts <- mapM (transcript_json_to_text frames) (x :: r) ;;
   Ok (joined (filter nonempty parts)))%py.
Proof. reflexivity. Qed.

(** ** The normalizer: speaker attribution *)

Lemma key_eqb_sym (a b : json) : key_eqb a b = key_eqb b a.
Proof.
  destruct a, b; simpl; try reflexivity.
  - now destruct b, b0.
  - apply Z.eqb_sym.
  - apply String.eqb_sym.
Qed.

Lemma key_eqb_trans (a b c : json) :
  key_eqb a b = true -> key_eqb b c = true -> key_eqb a c = true.
Proof.
  destruct a, b, c; simpl; try discriminate; try reflexivity;
    rewrite ?Z.eqb_eq, ?String.eqb_eq, ?Bool.eqb_true_iff;
    try (intros; subst; reflexivity);
    try (intros H1 H2; congruence).
  all: intros H1 H2; subst;
    repeat match goal with b : bool |- _ => destruct b end;
    try reflexivity; try discriminate; try lia; try congruence.
Qed.

Lemma table_get_set (tbl : speaker_table) (k v k' w : json) :
  table_get (table_set tbl k v) k' = Some w ->
  (key_eqb k k' = true /\ w = v) \/ table_get tbl k' = Some w.
Proof.
  induction tbl as [|[k0 v0] r IH]; simpl.
  - destruct (key_eqb k k'); [intros [= <-]; auto | discriminate].
  - destruct (key_eqb k0 k) eqn:E0; simpl.
    + destruct (key_eqb k0 k') eqn:E1.
      * intros [= <-]. left. split; [|reflexivity].
        apply key_eqb_trans with k0; [rewrite key_eqb_sym|]; assumption.
      * auto.
    + destruct (key_eqb k0 k'); auto.
Qed.

Lemma entry_name_str (kvs : list (string * json)) :
  str_or_none (dget kvs "name") = true ->
  str_or_none (dget kvs "speaker") = true ->
  exists name, entry_name (JDict kvs) = JStr name /\ nonempty name = true.
Proof.
  intros Hn Hs. unfold entry_name, por.
  destruct (dget kvs "name") as [| | |n| |] eqn:En; try discriminate; simpl.
  - destruct (dget kvs "speaker") as [| | |sp| |] eqn:Es; try discriminate; simpl.
    + eexists; split; reflexivity.
    + destruct (nonempty sp) eqn:E; simpl; eexists; split; eauto.
  - destruct (nonempty n) eqn:E; simpl.
    + rewrite E. eexists; split; eauto.
    + destruct (dget kvs "speaker") as [| | |sp| |] eqn:Es; try discriminate; simpl.
      * eexists; split; reflexivity.
      * destruct (nonempty sp) eqn:E'; simpl; eexists; split; eauto.
Qed.

Lemma add_speaker_from (seen : list json) (tbl : speaker_table) (s : json) :
  is_speaker_entry s = true -> table_from seen tbl ->
  exists tbl', add_speaker tbl s = Ok tbl' /\ table_from (seen ++ [s]) tbl'.
Proof.
  intros Hs Hinv. destruct s as [| | | | |kvs]; try discriminate.
  simpl in Hs. apply andb_true_iff in Hs as [Hs Hsp].
  apply andb_true_iff in Hs as [Hid Hname].
  unfold add_speaker. simpl.
  assert (Hweak : table_from (seen ++ [JDict kvs]) tbl).
  { intros k v Hk. destruct (Hinv k v Hk) as (n & s & ? & ? & ? & ? & ?).
    exists n, s. repeat split; auto. apply in_or_app; auto. }
  destruct (is_null (dget kvs "id")) eqn:Enull; [eauto|].
  rewrite Hid. simpl. eexists; split; [reflexivity|].
  destruct (entry_name_str kvs Hname Hsp) as (name & Hen & Hne).
  intros k v Hk. apply table_get_set in Hk as [[Hkey ->]|Hk].
  - exists name, (JDict kvs). simpl in Hen. repeat split; auto.
    apply in_or_app; right; left; reflexivity.
  - apply Hweak; assumption.
Qed.

Lemma build_speakers_from (sps seen : list json) (tbl : speaker_table) :
  forallb is_speaker_entry sps = true -> table_from seen tbl ->
  exists tbl', build_speakers tbl sps = Ok tbl' /\ table_from (seen ++ sps) tbl'.
Proof.
  revert seen tbl. induction sps as [|s r IH]; intros seen tbl Hall Hinv; simpl.
  - rewrite app_nil_r. eauto.
  - simpl in Hall. apply andb_true_iff in Hall as [Hs Hr].
    destruct (add_speaker_from seen tbl s Hs Hinv) as (tbl1 & -> & H1). simpl.
    destruct (IH _ _ Hr H1) as (tbl' & -> & H2).
    rewrite <- app_assoc in H2. eauto.
Qed.

Lemma str_or_none_text (a b : json) :
  str_or_none a = true -> str_or_none b = true ->
  exists s, por (por a b) (JStr "") = JStr s.
Proof.
  intros Ha Hb. unfold por.
  destruct a as [| | |x| |]; try discriminate; simpl;
    destruct b as [| | |y| |]; try discriminate; simpl;
    repeat match goal with |- context [nonempty ?z] => destruct (nonempty z) eqn:?; simpl end;
    eauto.
Qed.

Lemma turn_line_attributed (tbl : speaker_table) (sps : list json) (tr : json) :
  is_turn tr = true -> table_from sps tbl ->
  exists o, turn_line tbl tr = Ok o /\
            match o with Some line => attributed tbl sps tr line | None => True end.
Proof.
  intros Ht Hinv. destruct tr as [| | | | |kvs]; try discriminate.
  simpl in Ht. apply andb_true_iff in Ht as [Ht Hsid].
  apply andb_true_iff in Ht as [Ha Hb].
  destruct (str_or_none_text _ _ Ha Hb) as (s & Hs).
  unfold turn_line. rewrite Hs. simpl.
  assert (Htxt : turn_text (JDict kvs) = PyStr.strip s) by (simpl; now rewrite Hs).
  destruct (nonempty (PyStr.strip s)) eqn:Ene; simpl;
    [|exists None; split; [reflexivity|exact I]].
  rewrite Hsid. simpl.
  destruct (table_get tbl (dget kvs "speaker_id")) as [v|] eqn:Eg.
  - destruct (Hinv _ _ Eg) as (name & e & -> & Hne & Hin & Hkey & Hen).
    unfold por, speaker_line. simpl. rewrite Hne. simpl. rewrite Hne.
    eexists; split; [reflexivity|]. left. exists name, e.
    simpl. rewrite Eg, Hs. repeat split; auto.
  - unfold por, speaker_line. simpl.
    eexists; split; [reflexivity|]. right. simpl. rewrite Eg, Hs. auto.
Qed.

Lemma turn_lines_attributed (tbl : speaker_table) (sps turns : list json) :
  forallb is_turn turns = true -> table_from sps tbl ->
  exists lines, turn_lines tbl turns = Ok lines /\
    Forall (fun line => exists tr, In tr turns /\ attributed tbl sps tr line) lines.
Proof.
  intros Hall Hinv. induction turns as [|tr r IH]; simpl.
  - eauto.
  - simpl in Hall. apply andb_true_iff in Hall as [Ht Hr].
    destruct (turn_line_attributed tbl sps tr Ht Hinv) as (o & -> & Ho). simpl.
    destruct (IH Hr) as (ls & -> & Hls). simpl.
    assert (Hls' : Forall (fun line => exists tr0, In tr0 (tr :: r) /\
                                       attributed tbl sps tr0 line) ls).
    { eapply Forall_impl; [|exact Hls]. intros l (t & Hin & Hat).
      exists t. split; [right|]; assumption. }
    destruct o as [line|]; eexists; split; try reflexivity; auto.
    constructor; auto. exists tr. split; [left; reflexivity|assumption].
Qed.

Lemma key_eqb_refl (v : json) : hashable v = true -> key_eqb v v = true.
Proof.
  destruct v as [|b|n|s| |]; cbn; try discriminate; intros _.
  - reflexivity.
  - now destruct b.
  - apply Z.eqb_refl.
  - apply String.eqb_refl.
Qed.

Lemma table_get_set_eq (tbl : speaker_table) (k v k' : json) :
  table_get (table_set tbl k v) k'
  = if key_eqb k k' then Some v else table_get tbl k'.
Proof.
  induction tbl as [|[k0 v0] r IH]; cbn.
  - now destruct (key_eqb k k').
  - destruct (key_eqb k0 k) eqn:E0; cbn.
    + destruct (key_eqb k0 k') eqn:E1.
      * rewrite key_eqb_sym in E0.
        now rewrite (key_eqb_trans _ _ _ E0 E1).
      * destruct (key_eqb k k') eqn:E2; [|reflexivity].
        rewrite (key_eqb_trans _ _ _ E0 E2) in E1. discriminate E1.
    + destruct (key_eqb k0 k') eqn:E1; [|exact IH].
      destruct (key_eqb k k') eqn:E2; [|reflexivity].
      rewrite key_eqb_sym in E2.
      rewrite (key_eqb_trans _ _ _ E1 E2) in E0. discriminate E0.
Qed.

Lemma add_speaker_entry (tbl : speaker_table) (s : json) :
  is_speaker_entry s = true ->
  add_speaker tbl s
  = Ok (if is_null (entry_id s) then tbl
        else table_set tbl (entry_id s) (entry_name s)).
Proof.
  destruct s as [| | | | |kvs]; try discriminate. cbn [is_speaker_entry].
  intros H. apply andb_true_iff in H as [H _]. apply andb_true_iff in H as [Hid _].
  unfold add_speaker. cbn [get bind entry_id entry_name].
  destruct (is_null (dget kvs "id")); [reflexivity|]. now rewrite Hid.
Qed.

Lemma build_speakers_resolve (sps : list json) (tbl tbl' : speaker_table) :
  forallb is_speaker_entry sps = true ->
  build_speakers tbl sps = Ok tbl' ->
  forall sid, table_get tbl' sid
              = match resolve sps sid with
                | Some v => Some v
                | None => table_get tbl sid
                end.
Proof.
  revert tbl. induction sps as [|s r IH]; intros tbl Hall Hb sid.
  - cbn in Hb. now injection Hb as <-.
  - cbn [forallb] in Hall. apply andb_true_iff in Hall as [Hs Hr].
    cbn [build_speakers] in Hb. rewrite (add_speaker_entry tbl s Hs) in Hb.
    cbn [bind] in Hb. rewrite (IH _ Hr Hb sid). cbn [resolve].
    destruct (resolve r sid) as [v|]; [reflexivity|].
    destruct (is_null (entry_id s)); cbn [negb andb]; [reflexivity|].
    rewrite table_get_set_eq. now destruct (key_eqb (entry_id s) sid).
Qed.

Lemma resolve_sound (sps : list json) (sid v : json) :
  resolve sps sid = Some v ->
  exists s, In s sps /\ is_null (entry_id s) = false /\
            key_eqb (entry_id s) sid = true /\ v = entry_name s.
Proof.
  induction sps as [|s r IH]; cbn; [discriminate|].
  destruct (resolve r sid) as [w|].
  - intros H. destruct (IH H) as (x & Hx & H1). exists x. split; [now right | exact H1].
  - destruct (is_null (entry_id s)) eqn:En; cbn; [discriminate|].
    destruct (key_eqb (entry_id s) sid) eqn:Ek; [|discriminate].
    intros H. injection H as <-. exists s. now repeat split; [left|..].
Qed.

Lemma resolve_complete (sps : list json) (s : json) :
  In s sps -> hashable (entry_id s) = true -> is_null (entry_id s) = false ->
  exists v, resolve sps (entry_id s) = Some v.
Proof.
  intros Hin Hh Hn. induction sps as [|x r IH]; [destruct Hin|].
  cbn [resolve]. destruct (resolve r (entry_id s)) as [w|] eqn:Er; [now exists w|].
  destruct Hin as [->|Hin]; [|destruct (IH Hin) as (v & Hv); discriminate Hv].
  rewrite Hn, (key_eqb_refl _ Hh). cbn. now eexists.
Qed.

Lemma speaker_entry_name (sps : list json) (s : json) :
  forallb is_speaker_entry sps = true -> In s sps ->
  hashable (entry_id s) = true /\
  exists name, entry_name s = JStr name /\ nonempty name = true.
Proof.
  intros Hall Hin. rewrite forallb_forall in Hall. specialize (Hall s Hin).
  destruct s as [| | | | |kvs]; try discriminate. cbn [is_speaker_entry] in Hall.
  apply andb_true_iff in Hall as [H Hsp]. apply andb_true_iff in H as [Hid Hname].
  split; [exact Hid | exact (entry_name_str kvs Hname Hsp)].
Qed.

Lemma turn_line_spoken (tbl : speaker_table) (sps : list json) (tr : json) :
  is_turn tr = true -> forallb is_speaker_entry sps = true ->
  (forall sid, table_get tbl sid = resolve sps sid) ->
  turn_line tbl tr = Ok (spoken sps tr).
Proof.
  intros Ht Hall Htbl. destruct tr as [| | | | |kvs]; try discriminate.
  cbn [is_turn] in Ht. apply andb_true_iff in Ht as [Ht Hsid].
  apply andb_true_iff in Ht as [Ha Hb].
  destruct (str_or_none_text _ _ Ha Hb) as (s & Hs).
  unfold turn_line, spoken. cbn [turn_text turn_speaker_id]. rewrite Hs. cbn [strip_of bind].
  destruct (nonempty (PyStr.strip s)) eqn:Ene; cbn [negb]; [|reflexivity].
  rewrite Hsid. cbn [negb]. rewrite Htbl.
  destruct (resolve sps (dget kvs "speaker_id")) as [v|] eqn:Er; [|reflexivity].
  destruct (resolve_sound _ _ _ Er) as (e & Hin & _ & _ & ->).
  destruct (speaker_entry_name sps e Hall Hin) as (_ & name & -> & Hne).
  unfold por, speaker_line. cbn [truthy]. rewrite Hne. cbn [truthy]. now rewrite Hne.
Qed.

Lemma turn_lines_spoken (tbl : speaker_table) (sps turns : list json) :
  forallb is_turn turns = true -> forallb is_speaker_entry sps = true ->
  (forall sid, table_get tbl sid = resolve sps sid) ->
  turn_lines tbl turns = Ok (spoken_lines sps turns).
Proof.
  intros Hall Hsps Htbl. induction turns as [|tr r IH]; [reflexivity|].
  cbn [forallb] in Hall. apply andb_true_iff in Hall as [Ht Hr].
  cbn [turn_lines]. rewrite (turn_line_spoken tbl sps tr Ht Hsps Htbl).
  cbn [bind]. rewrite (IH Hr). cbn [bind].
  unfold spoken_lines. cbn [flat_map]. now destruct (spoken sps tr).
Qed.

(** C8, as stated, fails for the lines of the output.  A turn whose text
    holds a newline gives two lines of output; the second has no name in
    front of it, though the speaker table resolves a name for the speaker
    id of the turn. *)
Lemma turn_text_newline_unprefixed_line :
  turn_shape two_line_example two_line_turn one_speaker /\
  resolve one_speaker (JNum 1) = Some (JStr "Ann") /\
  transcript_json_to_text 1 (JDict two_line_example)
  = Ok ("Ann: a" ++ PyStr.newline ++ "b") /\
  split_lines ("Ann: a" ++ PyStr.newline ++ "b") = ["Ann: a"; "b"].
Proof. repeat split; reflexivity. Qed.

(** C8, amended.  For a payload of the turn-list-plus-speaker-table shape
    the turn loop appends exactly one line for each turn with text, in the
    order of the turns: the name the speaker table resolves for the
    speaker id of the turn, then [": "], then the text of the turn, or the
    bare text when the table resolves no name for the id.  The table
    resolves a name for every id an entry of [speakers] carries, namely
    the name of the last entry with that id (its [name], else its
    [speaker], else ["Speaker <id>"]), and for no other id.  When no flat
    key holds text and a line was appended, the output is these lines
    joined with newlines and trimmed. *)
Theorem turn_lines_named_or_bare (kvs : list (string * json)) (turns sps : list json) :
  turn_shape kvs turns sps ->
  transcript_lines kvs = Ok (spoken_lines sps turns) /\
  (forall tr, In tr turns -> nonempty (turn_text tr) = true ->
     match resolve sps (turn_speaker_id tr) with
     | Some v => exists name,
                   v = JStr name /\ nonempty name = true /\
                   spoken sps tr = Some (name ++ ": " ++ turn_text tr)
     | None => spoken sps tr = Some (turn_text tr)
     end) /\
  (forall s, In s sps -> is_null (entry_id s) = false ->
     exists name, resolve sps (entry_id s) = Some (JStr name) /\
                  nonempty name = true) /\
  (forall sid v, resolve sps sid = Some v ->
     exists s, In s sps /\ is_null (entry_id s) = false /\
               key_eqb (entry_id s) sid = true /\ v = entry_name s) /\
  (first_text kvs flat_keys = None -> spoken_lines sps turns <> [] ->
   forall frames,
     transcript_json_to_text (S frames) (JDict kvs)
     = Ok (joined (spoken_lines sps turns))).
Proof.
  intros (Htr & Hturns & Hsp & Hsps).
  assert (Hname : forall sid v, resolve sps sid = Some v ->
                    exists name, v = JStr name /\ nonempty name = true).
  { intros sid v Hv. destruct (resolve_sound _ _ _ Hv) as (e & Hin & _ & _ & ->).
    destruct (speaker_entry_name sps e Hsps Hin) as (_ & name & Hn & Hne). exists name. now split. }
  assert (Htl : transcript_lines kvs = Ok (spoken_lines sps turns)).
  { unfold transcript_lines. rewrite Htr, Hsp.
    assert (Hit : iter_or_empty (JList sps) = Ok sps) by (destruct sps; reflexivity).
    rewrite Hit. cbn [bind].
    destruct (build_speakers_from sps [] [] Hsps) as (tbl & Hb & _);
      [intros k v; discriminate|].
    rewrite Hb. cbn [bind].
    apply turn_lines_spoken; [exact Hturns | exact Hsps|].
    intros sid. rewrite (build_speakers_resolve sps [] tbl Hsps Hb sid).
    now destruct (resolve sps sid). }
  split; [exact Htl|]. split; [|split; [|split]].
  - intros tr Hin Htxt. unfold spoken. rewrite Htxt.
    destruct (resolve sps (turn_speaker_id tr)) as [v|] eqn:Er; [|reflexivity].
    destruct (Hname _ _ Er) as (name & -> & Hne). now exists name.
  - intros s Hin Hnull.
    destruct (speaker_entry_name sps s Hsps Hin) as (Hh & _).
    destruct (resolve_complete sps s Hin Hh Hnull) as (v & Hv).
    destruct (Hname _ _ Hv) as (name & -> & Hne). now exists name.
  - exact (resolve_sound sps).
  - intros Hft Hne frames.
    destruct kvs as [|kv kvs']; [discriminate Htr|].
    rewrite normalizer_dict, Hft, Htl. cbn [bind].
    now destruct (spoken_lines sps turns).
Qed.

Lemma turn_lines_named_or_bare_witness :
  turn_shape turns_example
    [JDict [("speaker_id", JNum 1); ("text", JStr " hello ")];
     JDict [("speaker_id", JNum 2); ("transcript", JStr "hi")];
     JDict [("speaker_id", JNum 7); ("text", JStr "who")]] speakers_example /\
  transcript_lines turns_example = Ok ["Ann: hello"; "Speaker 2: hi"; "who"] /\
  transcript_json_to_text 1 (JDict turns_example)
  = Ok (joined ["Ann: hello"; "Speaker 2: hi"; "who"]).
Proof.
  assert (H : turn_shape turns_example
                [JDict [("speaker_id", JNum 1); ("text", JStr " hello ")];
                 JDict [("speaker_id", JNum 2); ("transcript", JStr "hi")];
                 JDict [("speaker_id", JNum 7); ("text", JStr "who")]]
                speakers_example) by (repeat split; reflexivity).
  split; [exact H|].
  pose proof (turn_lines_named_or_bare turns_example _ _ H) as (Hl & _ & _ & _ & Hout).
  split; [exact Hl|]. apply Hout; [reflexivity | discriminate].
Defined.



(** C2.  A [paragraphs] list that holds strings instead of dicts makes the
    normalizer raise ([it.get] on a [str]): it does not return a string,
    however much room the interpreter has for the call. *)
Theorem normalizer_raises_on_string_paragraphs (frames : nat) :
  transcript_json_to_text (S frames) (JDict [("paragraphs", JList [JStr "hello"])])
  = Raise ShapeError.
Proof. reflexivity. Qed.

(** The turn loop skips what is not a dict, the speaker loop does not. *)
Example normalizer_skips_string_turn (frames : nat) :
  transcript_json_to_text (S frames)
    (JDict [("transcript", JList [JStr "x"; JDict [("text", JStr "hi")]])])
  = Ok "hi".
Proof. reflexivity. Qed.

Example normalizer_raises_on_string_speaker (frames : nat) :
  transcript_json_to_text (S frames)
    (JDict [("transcript", JList [JDict [("text", JStr "hi")]]);
            ("speakers", JList [JStr "Ann"])])
  = Raise ShapeError.
Proof. reflexivity. Qed.

Example normalizer_empty_payloads (frames : nat) :
  transcript_json_to_text (S frames) JNull = Ok "" /\
  transcript_json_to_text (S frames) (JDict []) = Ok "" /\
  transcript_json_to_text (S frames) (JList []) = Ok "" /\
  transcript_json_to_text (S frames) (JStr "") = Ok "" /\
  transcript_json_to_text (S frames) (JNum 7) = Ok "" /\
  transcript_json_to_text (S frames) (JDict [("data", JStr "x")]) = Ok "".
Proof. repeat split; reflexivity. Qed.

(** ** The retry layer *)

Lemma backoff_shift (b : Q) (i : nat) :
  backoff (Qmin (b * 2) backoff_ceiling) i = backoff b (S i).
Proof.
  induction i as [|i IH]; [reflexivity|].
  simpl. simpl in IH. now rewrite IH.
Qed.

Lemma flat_map_seq_shift {A} (f : nat -> list A) (a k : nat) :
  flat_map f (seq (S a) k) = flat_map (fun i => f (S i)) (seq a k).
Proof.
  revert a. induction k as [|k IH]; intros a; [reflexivity|].
  simpl. now rewrite IH.
Qed.

Lemma retry_timeline_step (req : request) (b : Q) (k : nat) (last : bool) :
  (Request req :: Sleep b
     :: retry_timeline req (Qmin (b * 2) backoff_ceiling) k last)%list
  = retry_timeline req b (S k) last.
Proof.
  unfold retry_timeline. cbn [seq flat_map app]. f_equal. f_equal.
  rewrite flat_map_seq_shift. f_equal.
  apply flat_map_ext. intros i. now rewrite backoff_shift.
Qed.

Lemma added_refl (st : state) : added st st [].
Proof. reflexivity. Qed.

Lemma added_trans (st1 st2 st3 : state) (e1 e2 : list event) :
  added st1 st2 e1 -> added st2 st3 e2 -> added st1 st3 (e1 ++ e2).
Proof.
  unfold added. intros H1 H2. rewrite H2, H1, rev_app_distr, app_assoc.
  reflexivity.
Qed.

Lemma timeline_app (a b : list event) :
  timeline (a ++ b) = (timeline a ++ timeline b)%list.
Proof. apply filter_app. Qed.

Lemma sleep_error_none (d : Q) :
  sleep_error d = None <-> (0 <= d)%Q /\ sleep_overflows d = false.
Proof.
  unfold sleep_error. rewrite <- Qle_bool_iff.
  destruct (sleep_overflows d), (Qle_bool 0 d); cbn; intuition congruence.
Qed.

Lemma sleep_within_ceiling (d : Q) :
  (0 <= d)%Q -> (d <= backoff_ceiling)%Q -> sleep_overflows d = false.
Proof.
  intros H0 H12. unfold sleep_overflows, nanoseconds.
  apply orb_false_iff. split.
  - destruct (Qle_bool 9223372036854775296 (d * 1000000000)) eqn:E; [|reflexivity].
    apply Qle_bool_iff in E. exfalso.
    assert (H : (d * 1000000000 <= backoff_ceiling * 1000000000)%Q)
      by (apply Qmult_le_compat_r; [exact H12 | discriminate]).
    pose proof (Qle_trans _ _ _ E H) as Hc. vm_compute in Hc. now apply Hc.
  - apply negb_false_iff, Qle_bool_iff.
    apply Qle_trans with (0 * 1000000000)%Q; [discriminate|].
    apply Qmult_le_compat_r; [exact H0 | discriminate].
Qed.

Lemma sleep_error_backoff (b : Q) :
  sleep_error b = None -> sleep_error (Qmin (b * 2) backoff_ceiling) = None.
Proof.
  rewrite !sleep_error_none. intros [H0 _].
  assert (Hmin : (0 <= Qmin (b * 2) backoff_ceiling)%Q).
  { apply Q.min_glb; [|discriminate].
    setoid_replace 0%Q with (0 * 2)%Q by ring.
    apply Qmult_le_compat_r; [exact H0 | discriminate]. }
  split; [exact Hmin|].
  apply sleep_within_ceiling; [exact Hmin | apply Q.le_min_r].
Qed.

Lemma time_sleep_ok (d : Q) (st : state) :
  sleep_error d = None -> time_sleep d st = emit (Sleep d) st.
Proof. unfold time_sleep. now intros ->. Qed.

Lemma time_sleep_run (d : Q) (st : state) :
  sleep_error d = None ->
  time_sleep d st = Returns tt {| calls := calls st; trace := Sleep d :: trace st |}.
Proof. unfold time_sleep. now intros ->. Qed.

Lemma time_sleep_raises (d : Q) (st : state) (e : exn) :
  sleep_error d = Some e -> time_sleep d st = Raises e.
Proof. unfold time_sleep. now intros ->. Qed.

Lemma time_sleep_returns (d : Q) (st st' : state) (u : unit) :
  time_sleep d st = Returns u st' ->
  sleep_error d = None /\
  st' = {| calls := calls st; trace := Sleep d :: trace st |}.
Proof.
  unfold time_sleep. destruct (sleep_error d); [discriminate|].
  unfold emit. intros H. now injection H as _ <-.
Qed.

(** What a bounded number of attempts does, for any first sleep that
    [time.sleep] takes. *)
Lemma attempts_spec (net : nat -> request -> outcome) (n : nat) (req : request)
    (b : Q) (st : state) :
  sleep_error b = None ->
  exists (k : nat) (res : option response) (st' : state) (evs : list event),
    attempts net n req b st = Returns res st' /\
    (forall i, (i < k)%nat -> retryable (net (calls st + i)%nat req) = true) /\
    match res with
    | Some r => (k < n)%nat /\ net (calls st + k)%nat req = Answer r /\
                retry_status (status_code r) = false /\
                calls st' = (calls st + S k)%nat
    | None => k = n /\ calls st' = (calls st + k)%nat
    end /\
    added st st' evs /\
    timeline evs = retry_timeline req b k (is_some res) /\
    Forall (http_event req) evs.
Proof.
  revert b st. induction n as [|n IH]; intros b st Hb.
  - exists 0%nat, None, st, []. simpl. repeat split; auto; try lia.
  - cbn [attempts]. cbv zeta. unfold bindM at 1, requests_request at 1.
    set (st1 := {| calls := S (calls st); trace := Request req :: trace st |}).
    destruct (net (calls st) req) as [r|] eqn:Eo.
    + destruct (retry_status (status_code r)) eqn:Er.
      * rewrite Hb. unfold bindM at 1, emit at 1.
        set (st2 := {| calls := calls st1; trace := Sleep b :: trace st1 |}).
        destruct (IH (Qmin (b * 2) backoff_ceiling) st2 (sleep_error_backoff b Hb))
          as (k & res & st' & evs & Hrun & Hretry & Hres & Hadd & Htl & Hev).
        exists (S k), res, st', ([Request req; Sleep b] ++ evs)%list.
        split; [exact Hrun|]. split; [|split; [|split; [|split]]].
        -- intros [|i] Hi.
           ++ rewrite Nat.add_0_r, Eo. exact Er.
           ++ specialize (Hretry i ltac:(lia)). simpl in Hretry.
              now replace (calls st + S i)%nat with (S (calls st + i)) by lia.
        -- simpl in Hres.
           replace (calls st + S k)%nat with (S (calls st + k)) by lia.
           destruct res as [r'|].
           ++ destruct Hres as (? & ? & ? & ?). repeat split; auto; lia.
           ++ destruct Hres. split; lia.
        -- eapply (added_trans st st2 st'); [reflexivity|exact Hadd].
        -- rewrite timeline_app. cbn [timeline filter app]. fold (timeline evs).
           rewrite Htl. apply retry_timeline_step.
        -- repeat constructor; auto.
      * exists 0%nat, (Some r), st1, [Request req].
        split; [reflexivity|]. repeat split; auto; try lia.
        -- now rewrite Nat.add_0_r.
        -- simpl. lia.
        -- repeat constructor.
    + unfold bindM at 1, emit at 1. unfold bindM at 1. rewrite (time_sleep_ok b _ Hb).
      unfold emit at 1.
      set (st2 := {| calls := _; trace := Sleep b :: _ |}).
      destruct (IH (Qmin (b * 2) backoff_ceiling) st2 (sleep_error_backoff b Hb))
        as (k & res & st' & evs & Hrun & Hretry & Hres & Hadd & Htl & Hev).
      exists (S k), res, st', ([Request req; LogException req; Sleep b] ++ evs)%list.
      split; [exact Hrun|]. split; [|split; [|split; [|split]]].
      * intros [|i] Hi.
        -- rewrite Nat.add_0_r, Eo. reflexivity.
        -- specialize (Hretry i ltac:(lia)). simpl in Hretry.
           now replace (calls st + S i)%nat with (S (calls st + i)) by lia.
      * simpl in Hres.
        replace (calls st + S k)%nat with (S (calls st + k)) by lia.
        destruct res as [r'|].
        -- destruct Hres as (? & ? & ? & ?). repeat split; auto; lia.
        -- destruct Hres. split; lia.
      * eapply (added_trans st st2 st'); [reflexivity|exact Hadd].
      * rewrite timeline_app. cbn [timeline filter app]. fold (timeline evs).
        rewrite Htl. apply retry_timeline_step.
      * repeat constructor; auto.
Qed.

Lemma Qmin_double_cap (x : Q) :
  (Qmin (Qmin x backoff_ceiling * 2) backoff_ceiling
   == Qmin (x * 2) backoff_ceiling)%Q.
Proof.
  unfold backoff_ceiling.
  destruct (Q.min_spec x 12%Q) as [[Hlt ->]|[Hle ->]]; [reflexivity|].
  assert (H24 : (12 <= 12 * 2)%Q) by (unfold Qle; simpl; lia).
  rewrite (Q.min_r (12 * 2)%Q 12%Q H24).
  symmetry. apply Q.min_r.
  apply Qle_trans with (12 * 2)%Q; [exact H24|].
  apply Qmult_le_compat_r; [exact Hle|]. unfold Qle; simpl; lia.
Qed.

(** The closed form of the sleeps: [min(b * 2^i, 12)]. *)
Lemma backoff_closed_form (b : Q) (i : nat) :
  (b <= backoff_ceiling)%Q ->
  (backoff b i == Qmin (b * inject_Z (2 ^ Z.of_nat i)) backoff_ceiling)%Q.
Proof.
  intros Hb. induction i as [|i IH].
  - simpl. rewrite Qmult_1_r. symmetry. apply Q.min_l. exact Hb.
  - cbn [backoff]. rewrite IH, Qmin_double_cap.
    assert (E : (b * inject_Z (2 ^ Z.of_nat i) * 2
                 == b * inject_Z (2 ^ Z.of_nat (S i)))%Q).
    { rewrite Nat2Z.inj_succ, Z.pow_succ_r by lia.
      rewrite inject_Z_mult. ring. }
    rewrite E. reflexivity.
Qed.

(** C3.  A call of [http_request] with the default [retries] and
    [backoff_start] always returns.  It makes [k] attempts that end in a
    transport exception or a status in {429, 500, 502, 503, 504}, each
    followed by a sleep, the sleep after attempt [i + 1] being
    [min(0.7 * 2^i, 12)]; then either a further attempt, at most the
    fifth, gets a response with a status outside that set, which is
    returned as it is, with no sleep after it; or [k = 5], no further
    attempt is made and the result is [None]. *)
Theorem http_request_retry_policy (net : nat -> request -> outcome)
    (req : request) (st : state) :
  exists (k : nat) (res : option response) (st' : state) (evs : list event),
    http net req st = Returns res st' /\
    (forall i, (i < k)%nat -> retryable (net (calls st + i)%nat req) = true) /\
    match res with
    | Some r => (k < 5)%nat /\ net (calls st + k)%nat req = Answer r /\
                retry_status (status_code r) = false /\
                calls st' = (calls st + S k)%nat
    | None => k = 5%nat /\ calls st' = (calls st + 5)%nat
    end /\
    added st st' evs /\
    timeline evs = retry_timeline req (7 # 10) k (is_some res) /\
    (forall i, (backoff (7 # 10) i == Qmin ((7 # 10) * inject_Z (2 ^ Z.of_nat i)) 12)%Q).
Proof.
  destruct (attempts_spec net 5 req (7 # 10) st eq_refl)
    as (k & res & st' & evs & Hrun & Hretry & Hres & Hadd & Htl & _).
  exists k, res, st', evs.
  split; [exact Hrun|]. split; [exact Hretry|]. split.
  - destruct res; [exact Hres|]. destruct Hres as [-> ?]. auto.
  - split; [exact Hadd|]. split; [exact Htl|].
    intros i. apply backoff_closed_form. unfold backoff_ceiling, Qle. simpl. lia.
Qed.

(** Section 8 of the specification: 503 three times, then 200. *)
Example http_request_flaky :
  exists st',
    http flaky_net (Hs_list "7") state0
    = Returns (Some {| status_code := 200; body := Some (JStr "hello world") |}) st' /\
    calls st' = 4%nat /\
    Forall2 Qeq (sleeps (rev (trace st'))) [7 # 10; 14 # 10; 28 # 10]%Q.
Proof.
  eexists. split; [vm_compute; reflexivity|]. split; [reflexivity|].
  repeat constructor.
Qed.

(** A permanent failure status is returned at once, as it is. *)
Example http_request_403 :
  http (fun _ _ => Answer {| status_code := 403; body := None |}) (Hs_list "7") state0
  = Returns (Some {| status_code := 403; body := None |})
            {| calls := 1; trace := [Request (Hs_list "7")] |}.
Proof. reflexivity. Qed.

(** Five transport exceptions: five attempts, then [None]. *)
Example http_request_exhausted :
  exists st',
    http (fun _ _ => Failure) (Hs_list "7") state0 = Returns None st' /\
    calls st' = 5%nat /\
    Forall2 Qeq (sleeps (rev (trace st')))
      [7 # 10; 14 # 10; 28 # 10; 56 # 10; 112 # 10]%Q.
Proof.
  eexists. split; [vm_compute; reflexivity|]. split; [reflexivity|].
  repeat constructor.
Qed.

(** ** The selection filter *)

Lemma mem_In (x : string) (l : list string) : mem x l = true <-> In x l.
Proof.
  unfold mem. rewrite existsb_exists. split.
  - intros (y & Hy & E). apply String.eqb_eq in E. now subst.
  - intros H. exists x. split; [exact H|apply String.eqb_refl].
Qed.

Lemma key_eqb_str (v : json) (s : string) :
  key_eqb v (JStr s) = true <-> v = JStr s.
Proof.
  destruct v; simpl; split; try discriminate.
  - intros H. apply String.eqb_eq in H. now subst.
  - intros [= ->]. apply String.eqb_refl.
Qed.

Lemma strip_or_empty (v : json) :
  str_or_falsy v = true ->
  exists s, por v (JStr "") = JStr s /\ strip_of (por v (JStr "")) = Ok (PyStr.strip s).
Proof.
  intros H. unfold por.
  destruct v; simpl in *; try (exists ""; split; reflexivity);
    try (apply negb_true_iff in H; rewrite H; exists ""; split; reflexivity).
  destruct (nonempty s); eexists; split; reflexivity.
Qed.

Lemma attendee_emails_of_ok (l : list json) :
  forallb well_shaped_attendee l = true ->
  exists out, attendee_emails_of l = Ok out.
Proof.
  induction l as [|a r IH]; simpl; [eauto|].
  intros H. apply andb_true_iff in H as [Ha Hr].
  destruct a as [| | | | |kvs]; try discriminate. simpl in Ha. simpl.
  destruct (strip_or_empty _ Ha) as (s & _ & ->). simpl.
  destruct (IH Hr) as (out & ->). simpl. eauto.
Qed.

Lemma iter_or_empty_list_of (p : json -> bool) (v : json) :
  list_of p v = true ->
  exists l, iter_or_empty v = Ok l /\ forallb p l = true.
Proof.
  unfold iter_or_empty. destruct v; simpl; intros H;
    try (exists []; split; reflexivity);
    try (apply negb_true_iff in H; rewrite H; exists []; split; reflexivity).
  exists l. split; [|exact H]. destruct l; reflexivity.
Qed.

Lemma attendees_emails_ok (m : json) :
  well_shaped_meeting m = true -> exists atts, attendees_emails m = Ok atts.
Proof.
  destruct m as [| | | | |kvs]; try discriminate. simpl.
  intros H. apply andb_true_iff in H as [H _]. apply andb_true_iff in H as [H _].
  unfold attendees_emails. simpl.
  destruct (iter_or_empty_list_of _ _ H) as (l & -> & Hl). simpl.
  destruct (attendee_emails_of_ok l Hl) as (out & ->). simpl. eauto.
Qed.

Lemma looks_like_call_spec (kvs : list (string * json)) :
  hashable (dget kvs "processing_status") = true ->
  exists c, looks_like_call (JDict kvs) = Ok c /\
            (c = true <-> call_completed (JDict kvs)).
Proof.
  intros Hh. unfold looks_like_call, call_completed. simpl.
  destruct (truthy (dget kvs "transcript_ready")) eqn:E1; simpl;
    [exists true; split; [reflexivity|tauto]|].
  destruct (truthy (dget kvs "transcription_uuid")) eqn:E2; simpl;
    [exists true; split; [reflexivity|tauto]|].
  destruct (truthy (dget kvs "audio_ready")) eqn:E3; simpl;
    [exists true; split; [reflexivity|tauto]|].
  destruct (truthy (dget kvs "video_ready")) eqn:E4; simpl;
    [exists true; split; [reflexivity|tauto]|].
  rewrite Hh. simpl. eexists; split; [reflexivity|].
  rewrite orb_true_iff, !key_eqb_str. split.
  - intros [H|H]; auto 10.
  - intros [H|[H|[H|[H|[H|H]]]]]; try discriminate; auto.
Qed.

Section Filter.

Variable fromisoformat : string -> option datetime.

Lemma keeps_spec (organizer_email leaf_email : string) (cutoff : datetime) (m : json) :
  well_shaped_meeting m = true ->
  exists k, keeps fromisoformat organizer_email leaf_email cutoff m = Ok k /\
            (k = true <-> eligible fromisoformat organizer_email leaf_email cutoff m).
Proof.
  intros Hm. destruct (attendees_emails_ok m Hm) as (atts & Hatts).
  destruct m as [| | | | |kvs]; try discriminate.
  pose proof Hm as Hm'. simpl in Hm'.
  apply andb_true_iff in Hm' as [Hm' Hps]. apply andb_true_iff in Hm' as [_ Horg].
  destruct (strip_or_empty _ Horg) as (s & Hs & Hstrip).
  destruct (looks_like_call_spec kvs Hps) as (c & Hc & Hcall).
  unfold keeps, eligible, attendee_set, organizer_of, start_time.
  rewrite Hatts. cbn [bind get field]. rewrite Hstrip, Hs. cbn [bind].
  destruct (String.eqb (PyStr.lower (PyStr.strip s)) organizer_email
            || mem organizer_email atts) eqn:E1; cbn [negb].
  - apply orb_true_iff in E1. rewrite String.eqb_eq, mem_In in E1.
    destruct (mem leaf_email atts) eqn:E2; cbn [negb].
    + apply mem_In in E2. rewrite Hc. cbn [bind].
      destruct c; cbn [negb].
      * unfold start_field. cbn [bind get].
        destruct (parse_iso fromisoformat _) as [dt|] eqn:Ep.
        -- eexists; split; [reflexivity|]. rewrite negb_true_iff, Z.ltb_ge.
           split.
           ++ intros Hle. repeat split; auto; [tauto|].
              intros dt' [= <-]. exact Hle.
           ++ intros (_ & _ & _ & H). apply H. reflexivity.
        -- exists true. split; [reflexivity|]. split; [|reflexivity].
           intros _. repeat split; auto; [tauto|]. discriminate.
      * exists false. split; [reflexivity|]. split; [discriminate|].
        intros (_ & _ & H & _). apply Hcall in H. discriminate.
    + exists false. split; [reflexivity|]. split; [discriminate|].
      intros (_ & H & _). apply mem_In in H. congruence.
  - exists false. split; [reflexivity|]. split; [discriminate|].
    intros (H & _). apply orb_false_iff in E1 as [Ea Eb].
    destruct H as [H|H].
    + apply String.eqb_eq in H. congruence.
    + apply mem_In in H. congruence.
Qed.

(** The filter on well-shaped records: it returns, and keeps the eligible. *)
Lemma filter_meetings_spec (organizer_email leaf_email : string)
    (cutoff : datetime) (all_items : list json) :
  forallb well_shaped_meeting all_items = true ->
  exists filtered,
    filter_meetings fromisoformat organizer_email leaf_email cutoff all_items
    = Ok filtered /\
    forall m, In m filtered <->
              In m all_items /\
              eligible fromisoformat organizer_email leaf_email cutoff m.
Proof.
  induction all_items as [|m r IH]; intros Hall.
  - exists []. split; [reflexivity|]. simpl. tauto.
  - simpl in Hall. apply andb_true_iff in Hall as [Hm Hr].
    destruct (keeps_spec organizer_email leaf_email cutoff m Hm) as (k & Hk & Hiff).
    destruct (IH Hr) as (rest & Hrest & Hin).
    cbn [filter_meetings]. rewrite Hk. cbn [bind]. rewrite Hrest. cbn [bind].
    eexists; split; [reflexivity|].
    intros m'. destruct k.
    + simpl. rewrite Hin. split.
      * intros [<-|[H1 H2]]; [split; [auto|apply Hiff; reflexivity]|auto].
      * intros [[<-|H1] H2]; auto.
    + rewrite Hin. simpl. split.
      * intros [H1 H2]; auto.
      * intros [[<-|H1] H2]; [|auto].
        apply Hiff in H2. discriminate.
Qed.

Lemma looks_like_call_sound (kvs : list (string * json)) (c : bool) :
  looks_like_call (JDict kvs) = Ok c -> (c = true <-> call_completed (JDict kvs)).
Proof.
  unfold looks_like_call. cbn [get bind].
  destruct (truthy (dget kvs "transcript_ready") || truthy (dget kvs "transcription_uuid")
            || truthy (dget kvs "audio_ready") || truthy (dget kvs "video_ready"))
    eqn:E.
  - intros [= <-]. split; [intros _|reflexivity].
    unfold call_completed. simpl.
    repeat (apply orb_true_iff in E as [E|E]); auto 10.
  - destruct (hashable (dget kvs "processing_status")) eqn:Eh; [|discriminate].
    intros H. destruct (looks_like_call_spec kvs Eh) as (c' & Hc' & Hiff).
    unfold looks_like_call in Hc'. cbn [get bind] in Hc'. rewrite E, Eh in Hc'.
    cbn [negb] in *. congruence.
Qed.

(** Whatever the record, when the test of the filter returns it tells
    whether the four predicates hold. *)
Lemma keeps_sound (organizer_email leaf_email : string) (cutoff : datetime)
    (m : json) (k : bool) :
  keeps fromisoformat organizer_email leaf_email cutoff m = Ok k ->
  (k = true <-> eligible fromisoformat organizer_email leaf_email cutoff m).
Proof.
  unfold keeps, eligible, attendee_set, organizer_of, start_time.
  destruct (attendees_emails m) as [atts|] eqn:Hatts; [|discriminate].
  destruct m as [| | | | |kvs]; try discriminate.
  cbn [bind get field].
  destruct (por (dget kvs "organizer_email") (JStr "")) as [| | |s| |];
    try discriminate.
  cbn [strip_of bind].
  destruct (String.eqb (PyStr.lower (PyStr.strip s)) organizer_email
            || mem organizer_email atts) eqn:E1; cbn [negb].
  - apply orb_true_iff in E1. rewrite String.eqb_eq, mem_In in E1.
    destruct (mem leaf_email atts) eqn:E2; cbn [negb].
    + apply mem_In in E2.
      destruct (looks_like_call (JDict kvs)) as [c|] eqn:Hc; [|discriminate].
      apply looks_like_call_sound in Hc. cbn [bind].
      destruct c; cbn [negb].
      * unfold start_field. cbn [bind get].
        destruct (parse_iso fromisoformat _) as [dt|] eqn:Ep.
        -- intros [= <-]. rewrite negb_true_iff, Z.ltb_ge. split.
           ++ intros Hle. repeat split; auto; [tauto|].
              intros dt' [= <-]. exact Hle.
           ++ intros (_ & _ & _ & H). apply H. reflexivity.
        -- intros [= <-]. split; [|reflexivity].
           intros _. repeat split; auto; [tauto|]. discriminate.
      * intros [= <-]. split; [discriminate|].
        intros (_ & _ & H & _). apply Hc in H. discriminate.
    + intros [= <-]. split; [discriminate|].
      intros (_ & H & _). apply mem_In in H. congruence.
  - intros [= <-]. split; [discriminate|].
    intros (H & _). apply orb_false_iff in E1 as [Ea Eb].
    destruct H as [H|H].
    + apply String.eqb_eq in H. congruence.
    + apply mem_In in H. congruence.
Qed.

Lemma filter_meetings_sound (organizer_email leaf_email : string)
    (cutoff : datetime) (all_items filtered : list json) :
  filter_meetings fromisoformat organizer_email leaf_email cutoff all_items
  = Ok filtered ->
  forall m, In m filtered <->
            In m all_items /\
            eligible fromisoformat organizer_email leaf_email cutoff m.
Proof.
  revert filtered. induction all_items as [|x r IH]; intros filtered H m.
  - injection H as <-. simpl. tauto.
  - cbn [filter_meetings] in H.
    destruct (keeps fromisoformat organizer_email leaf_email cutoff x) as [k|] eqn:Hk;
      [|discriminate].
    apply keeps_sound in Hk. cbn [bind] in H.
    destruct (filter_meetings fromisoformat organizer_email leaf_email cutoff r)
      as [rest|]; [|discriminate].
    cbn [bind] in H. injection H as <-. specialize (IH rest eq_refl m).
    destruct k.
    + simpl. rewrite IH. split.
      * intros [<-|[H1 H2]]; [split; [auto|apply Hk; reflexivity]|auto].
      * intros [[<-|H1] H2]; auto.
    + rewrite IH. simpl. split.
      * intros [H1 H2]; auto.
      * intros [[<-|H1] H2]; [|auto]. apply Hk in H2. discriminate.
Qed.

(** C4.  Whatever the meeting list, when the selection filter returns, a
    meeting is in what it returns exactly when it is in the list and all
    four predicates hold: the organizer is its organizer field or among
    its attendee emails, the leaf is among its attendee emails, it shows a
    call-completed signal, and its start time, when it parses, is not
    before the cutoff.  On a list of well-shaped meeting records the
    filter does return. *)
Theorem filter_keeps_eligible (organizer_email leaf_email : string)
    (cutoff : datetime) (all_items : list json) :
  (forall filtered,
      filter_meetings fromisoformat organizer_email leaf_email cutoff all_items
      = Ok filtered ->
      forall m, In m filtered <->
                In m all_items /\
                eligible fromisoformat organizer_email leaf_email cutoff m) /\
  (forallb well_shaped_meeting all_items = true ->
   exists filtered,
     filter_meetings fromisoformat organizer_email leaf_email cutoff all_items
     = Ok filtered).
Proof.
  split.
  - intros filtered H. now apply filter_meetings_sound.
  - intros H.
    destruct (filter_meetings_spec organizer_email leaf_email cutoff all_items H)
      as (f & Hf & _).
    eauto.
Qed.

End Filter.

Lemma filter_keeps_eligible_witness :
  forallb well_shaped_meeting [meeting_day5; meeting_other_leaf; meeting_no_start]
  = true /\
  filter_meetings iso_examples "owner@x.com" "leaf@y.com" cutoff_example
    [meeting_day5; meeting_other_leaf; meeting_no_start]
  = Ok [meeting_day5; meeting_no_start] /\
  forall m, In m [meeting_day5; meeting_no_start] <->
            In m [meeting_day5; meeting_other_leaf; meeting_no_start] /\
            eligible iso_examples "owner@x.com" "leaf@y.com" cutoff_example m.
Proof.
  split; [reflexivity|]. split; [reflexivity|].
  apply (proj1 (filter_keeps_eligible iso_examples "owner@x.com" "leaf@y.com"
                  cutoff_example
                  [meeting_day5; meeting_other_leaf; meeting_no_start])).
  reflexivity.
Defined.

Example filter_example :
  filter_meetings iso_examples "owner@x.com" "leaf@y.com" cutoff_example
    [meeting_day5; meeting_other_leaf; meeting_no_start]
  = Ok [meeting_day5; meeting_no_start].
Proof. reflexivity. Qed.

(** ** The selector *)

Section Selector.

Variable fromisoformat : string -> option datetime.

Lemma sort_key_start_time (m : json) :
  sort_key fromisoformat m =
  match start_time fromisoformat m with
  | Some dt => instant dt
  | None => instant datetime_max_utc
  end.
Proof.
  unfold sort_key, start_time, start_field.
  destruct m; try reflexivity.
Qed.

(** The head of a stable sort is the leftmost element of least key. *)
Lemma sort_by_head {A} (key : A -> Z) (l : list A) :
  l <> [] ->
  exists m pre post,
    hd_error (sort_by key l) = Some m /\ l = (pre ++ m :: post)%list /\
    (forall x, In x pre -> (key m < key x)%Z) /\
    (forall x, In x post -> (key m <= key x)%Z).
Proof.
  induction l as [|x r IH]; [congruence|]. intros _.
  destruct r as [|y r'].
  - exists x, [], []. simpl. repeat split; auto; contradiction.
  - destruct IH as (m & pre & post & Hhd & Hl & Hpre & Hpost); [discriminate|].
    change (sort_by key (x :: y :: r')) with (insert_by key x (sort_by key (y :: r'))).
    destruct (sort_by key (y :: r')) as [|h t] eqn:Es; [discriminate|].
    simpl in Hhd. injection Hhd as ->. simpl.
    destruct (key m <? key x)%Z eqn:E.
    + apply Z.ltb_lt in E. exists m, (x :: pre), post. rewrite Hl.
      repeat split; auto. intros z [<-|Hz]; auto.
    + apply Z.ltb_ge in E. exists x, [], (y :: r'). rewrite Hl.
      repeat split; auto; [contradiction|].
      intros z Hz. apply in_app_or in Hz as [Hz|[<-|Hz]].
      * specialize (Hpre z Hz). lia.
      * exact E.
      * specialize (Hpost z Hz). lia.
Qed.

(** C5, amended.  From a non-empty list of eligible meetings the selector
    takes the meeting of least sort key that comes first in fetch order:
    every meeting before it in the list has a strictly later key, every
    meeting after it a key that is not earlier.  When some meeting of the
    list has a start time that parses to an instant before the sentinel
    [datetime.max] (UTC), the selected meeting has a start time that
    parses, and it is the earliest of the parseable start times. *)
Theorem select_earliest_first (filtered : list json) :
  filtered <> [] ->
  exists m pre post,
    select_meeting fromisoformat filtered = Some m /\
    filtered = (pre ++ m :: post)%list /\
    (forall x, In x pre -> (sort_key fromisoformat m < sort_key fromisoformat x)%Z) /\
    (forall x, In x post -> (sort_key fromisoformat m <= sort_key fromisoformat x)%Z) /\
    ((exists x dt, In x filtered /\ start_time fromisoformat x = Some dt /\
                   (instant dt < instant datetime_max_utc)%Z) ->
     exists dt, start_time fromisoformat m = Some dt /\
                forall x dt', In x filtered -> start_time fromisoformat x = Some dt' ->
                              (instant dt <= instant dt')%Z).
Proof.
  intros Hne.
  destruct (sort_by_head (sort_key fromisoformat) filtered Hne)
    as (m & pre & post & Hhd & Hl & Hpre & Hpost).
  exists m, pre, post. repeat split; auto.
  assert (Hmin : forall x, In x filtered ->
                           (sort_key fromisoformat m <= sort_key fromisoformat x)%Z).
  { intros x Hx. rewrite Hl in Hx. apply in_app_or in Hx as [Hx|[<-|Hx]].
    - specialize (Hpre x Hx). lia.
    - lia.
    - auto. }
  intros (x & dt & Hx & Hdt & Hlt).
  pose proof (Hmin x Hx) as Hmx. rewrite !sort_key_start_time, Hdt in Hmx.
  destruct (start_time fromisoformat m) as [dm|] eqn:Em; [|lia].
  exists dm. split; [reflexivity|].
  intros y dy Hy Hdy. specialize (Hmin y Hy).
  rewrite !sort_key_start_time, Hdy, Em in Hmin. exact Hmin.
Qed.

End Selector.

Lemma select_earliest_first_witness :
  exists m pre post,
    select_meeting iso_examples [meeting_no_start; meeting_day3] = Some m /\
    [meeting_no_start; meeting_day3] = (pre ++ m :: post)%list /\
    (forall x, In x pre -> (sort_key iso_examples m < sort_key iso_examples x)%Z) /\
    (forall x, In x post -> (sort_key iso_examples m <= sort_key iso_examples x)%Z) /\
    ((exists x dt, In x [meeting_no_start; meeting_day3] /\
                   start_time iso_examples x = Some dt /\
                   (instant dt < instant datetime_max_utc)%Z) ->
     exists dt, start_time iso_examples m = Some dt /\
                forall x dt', In x [meeting_no_start; meeting_day3] ->
                              start_time iso_examples x = Some dt' ->
                              (instant dt <= instant dt')%Z).
Proof.
  apply (select_earliest_first iso_examples [meeting_no_start; meeting_day3]).
  discriminate.
Defined.

(** Section 8 of the specification. *)
Example select_earliest_wins :
  select_meeting iso_examples [meeting_day5; meeting_day2] = Some meeting_day2.
Proof. reflexivity. Qed.

Example select_unparseable_last :
  select_meeting iso_examples [meeting_no_start; meeting_day3] = Some meeting_day3.
Proof. reflexivity. Qed.

(** C5, as stated, fails.  A start time that parses to the sentinel
    itself ties with the unparseable ones: of a meeting without a start
    time and a later-fetched meeting that starts at
    9999-12-31T23:59:59.999999Z, the selector takes the one without a
    start time, not the one with the earliest parseable start time. *)
Lemma select_unparseable_before_parseable :
  select_meeting iso_examples [meeting_no_start; meeting_at_sentinel]
  = Some meeting_no_start /\
  start_time iso_examples meeting_no_start = None /\
  start_time iso_examples meeting_at_sentinel = Some datetime_max_utc.
Proof. repeat split; reflexivity. Qed.

(** ** Reasoning about runs *)

Lemma bindM_returns {A B} (m : M A) (f : A -> M B) (st st'' : state) (b : B) :
  bindM m f st = Returns b st'' ->
  exists a st', m st = Returns a st' /\ f a st' = Returns b st''.
Proof.
  unfold bindM. destruct (m st) as [a st'| |]; try discriminate. eauto.
Qed.

Lemma lift_returns {A} (r : result A) (st st' : state) (a : A) :
  lift r st = Returns a st' -> r = Ok a /\ st' = st.
Proof.
  unfold lift. destruct r; [|discriminate]. intros [= -> ->]. auto.
Qed.

Lemma ret_returns {A} (x a : A) (st st' : state) :
  ret x st = Returns a st' -> a = x /\ st' = st.
Proof. unfold ret. intros [= -> ->]. auto. Qed.

Lemma emit_returns (e : event) (st st' : state) (u : unit) :
  emit e st = Returns u st' -> added st st' [e] /\ calls st' = calls st.
Proof. unfold emit. intros [= _ <-]. split; reflexivity. Qed.

Lemma sleep_returns (d : Q) (st st' : state) (u : unit) :
  time_sleep d st = Returns u st' -> added st st' [Sleep d] /\ calls st' = calls st.
Proof.
  intros H. apply time_sleep_returns in H as [_ ->]. split; reflexivity.
Qed.

Lemma requests_of_app (a b : list event) :
  requests_of (a ++ b) = (requests_of a ++ requests_of b)%list.
Proof. apply flat_map_app. Qed.


Lemma requests_of_timeline (evs : list event) :
  requests_of (timeline evs) = requests_of evs.
Proof.
  induction evs as [|e r IH]; [reflexivity|].
  destruct e; simpl; rewrite ?IH; reflexivity.
Qed.

Lemma requests_of_retry_timeline (req : request) (b : Q) (k : nat) (last : bool) :
  requests_of (retry_timeline req b k last) = repeat req (k + if last then 1 else 0).
Proof.
  unfold retry_timeline. rewrite requests_of_app.
  assert (H : forall a, requests_of
                (flat_map (fun i => [Request req; Sleep (backoff b i)]) (seq a k))
              = repeat req k).
  { induction k as [|k IH]; intros a; [reflexivity|]. simpl. now rewrite IH. }
  rewrite H, repeat_app. destruct last; reflexivity.
Qed.

Lemma http_event_fetched (req : request) (evs : list event) :
  Forall (http_event req) evs -> fetched evs = [].
Proof.
  induction 1 as [|e r He _ IH]; [reflexivity|].
  destruct e; simpl in *; try contradiction; assumption.
Qed.

(** A call of [http_request] returns; what it adds to the trace are
    requests for [req], at least one, sleeps and warnings. *)
Lemma http_total (net : nat -> request -> outcome) (req : request) (st : state) :
  exists res st' evs n,
    http net req st = Returns res st' /\ added st st' evs /\
    requests_of evs = repeat req (S n) /\ fetched evs = [] /\
    calls st' = (calls st + S n)%nat /\
    match res with
    | Some r => net (calls st + n)%nat req = Answer r
    | None => True
    end.
Proof.
  destruct (attempts_spec net 5 req (7 # 10) st eq_refl)
    as (k & res & st' & evs & Hrun & _ & Hres & Hadd & Htl & Hev).
  assert (Hreq : requests_of evs = repeat req (k + if is_some res then 1 else 0)).
  { rewrite <- requests_of_timeline, Htl. apply requests_of_retry_timeline. }
  pose proof (http_event_fetched req evs Hev) as Hf.
  destruct res as [r|].
  - destruct Hres as (_ & Hnet & _ & Hcalls).
    exists (Some r), st', evs, k. simpl in Hreq.
    replace (k + 1)%nat with (S k) in Hreq by lia. auto 10.
  - destruct Hres as (-> & Hcalls).
    exists None, st', evs, 4%nat. simpl in Hreq. auto 10.
Qed.

(** An attempt answered with a status outside the retry set ends the
    call. *)
Lemma http_answer (net : nat -> request -> outcome) (req : request) (st : state)
    (r : response) :
  net (calls st) req = Answer r -> retry_status (status_code r) = false ->
  http net req st
  = Returns (Some r) {| calls := S (calls st); trace := Request req :: trace st |}.
Proof.
  intros Hn Hs. unfold http, http_request.
  change (Z.to_nat (Z.max 1 default_retries)) with 5%nat. cbn [attempts].
  unfold bindM, requests_request. now rewrite Hn, Hs.
Qed.

(** ** The meeting fetcher *)

Ltac inv_bind H :=
  let a := fresh "a" in
  let s := fresh "s" in
  let H1 := fresh "Hrun" in
  apply bindM_returns in H as (a & s & H1 & H).

Ltac inv_lift H :=
  let E := fresh "E" in
  apply lift_returns in H as [E ->].

Ltac inv_ret H :=
  apply ret_returns in H as [-> ->].

Section Fetcher.

Variable net : nat -> request -> outcome.

Lemma http_returns (req : request) (st st' : state) (res : option response) :
  http net req st = Returns res st' ->
  exists evs n,
    added st st' evs /\ requests_of evs = repeat req (S n) /\ fetched evs = [] /\
    calls st' = (calls st + S n)%nat /\
    match res with
    | Some r => net (calls st + n)%nat req = Answer r
    | None => True
    end.
Proof.
  intros H. destruct (http_total net req st)
    as (res0 & st0 & evs & n & Hrun & Hadd & Hreq & Hf & Hc & Hres).
  rewrite Hrun in H. injection H as <- <-. eauto 10.
Qed.




End Fetcher.




(** ** Fetching once per organizer *)





Section Quiet.

Variable net : nat -> request -> outcome.
Variable fromisoformat : string -> option datetime.
Variable repr : json -> string.
Variable frames : nat.













End Quiet.

Lemma added_unique (st st' : state) (e1 e2 : list event) :
  added st st' e1 -> added st st' e2 -> e1 = e2.
Proof.
  unfold added. intros H1 H2. rewrite H1 in H2.
  apply app_inv_tail in H2. apply (f_equal (@rev event)) in H2.
  now rewrite !rev_involutive in H2.
Qed.

Lemma group_add_keys (g : list (string * list string)) (k v : string) :
  map fst (group_add g k v)
  = if mem k (map fst g) then map fst g else (map fst g ++ [k])%list.
Proof.
  induction g as [|[k' vs] r IH]; [reflexivity|].
  unfold mem in *. simpl. rewrite (String.eqb_sym k k').
  destruct (String.eqb k' k) eqn:E; simpl; [reflexivity|].
  rewrite IH. destruct (existsb (String.eqb k) (map fst r)); reflexivity.
Qed.

Lemma group_add_NoDup (g : list (string * list string)) (k v : string) :
  NoDup (map fst g) -> NoDup (map fst (group_add g k v)).
Proof.
  intros H. rewrite group_add_keys. destruct (mem k (map fst g)) eqn:E; [exact H|].
  apply NoDup_app; [exact H|repeat constructor; intros []|].
  intros x Hx [<-|[]]. apply mem_In in Hx. congruence.
Qed.


Lemma group_by_owner_NoDup (c2o : sdict) (emails : list string)
    (g : list (string * list string)) :
  NoDup (map fst g) -> NoDup (map fst (group_by_owner c2o emails g)).
Proof.
  revert g. induction emails as [|ce r IH]; intros g H; simpl; [exact H|].
  destruct (sdict_get c2o ce); apply IH; [apply group_add_NoDup|]; exact H.
Qed.






Section FetchOnce.

Variable net : nat -> request -> outcome.
Variable fromisoformat : string -> option datetime.
Variable repr : json -> string.
Variable window : Z -> option (string * string * datetime).
Variable frames : nat.






End FetchOnce.

Example two_leaves_run :
  exists st',
    run_example two_leaves_net
    = Returns {| contacts_processed := 2; emails_found := 2; meetings_found := 2;
                 transcripts_posted := 2; errors := [] |} st' /\
    fetched (rev (trace st')) = ["owner@x.com"].
Proof. eexists. split; vm_compute; reflexivity. Qed.


(** ** The meetings_found counter *)

Section Counter.

Variable net : nat -> request -> outcome.
Variable fromisoformat : string -> option datetime.
Variable frames : nat.

Lemma http_requests (req : request) (st st' : state) (r : option response) :
  http net req st = Returns r st' ->
  exists evs, added st st' evs /\ In req (requests_of evs) /\
              forall x, In x (requests_of evs) -> x = req.
Proof.
  intros H. apply http_returns in H as (evs & n & Hadd & Hreq & _).
  exists evs. rewrite Hreq. repeat split; auto.
  - left. reflexivity.
  - intros x Hx. now apply repeat_spec in Hx.
Qed.

Lemma av_fetch_transcript_json_requests (meeting_id uuid t : json) (st st' : state) :
  av_fetch_transcript_json net meeting_id uuid st = Returns t st' ->
  exists evs, added st st' evs /\ Forall not_webhook (requests_of evs).
Proof.
  unfold av_fetch_transcript_json. intros H.
  apply bindM_returns in H as (r1 & s1 & H1 & H).
  apply http_requests in H1 as (e1 & Ha1 & _ & Hr1).
  assert (Hn1 : Forall not_webhook (requests_of e1)).
  { apply Forall_forall. intros x Hx. rewrite (Hr1 x Hx). exact I. }
  destruct (is_200 r1).
  { inv_lift H. eauto. }
  apply bindM_returns in H as (second & s2 & H2 & H).
  assert (Hq : exists e2, added s1 s2 e2 /\ Forall not_webhook (requests_of e2)).
  { destruct (truthy uuid).
    - apply bindM_returns in H2 as (r2 & s2' & H2 & H2').
      apply http_requests in H2 as (e2 & Ha2 & _ & Hr2).
      assert (s2 = s2') as <-.
      { destruct (is_200 r2).
        - apply bindM_returns in H2' as (j & sj & Hj & H2').
          inv_lift Hj. now apply ret_returns in H2' as [_ ->].
        - now apply ret_returns in H2' as [_ ->]. }
      exists e2. split; [exact Ha2|].
      apply Forall_forall. intros x Hx. rewrite (Hr2 x Hx). exact I.
    - apply ret_returns in H2 as [_ ->]. exists []. split; [reflexivity|constructor]. }
  destruct Hq as (e2 & Ha2 & Hn2).
  assert (H12 : exists e, added st s2 e /\ Forall not_webhook (requests_of e)).
  { exists (e1 ++ e2)%list. split; [eapply added_trans; eassumption|].
    rewrite requests_of_app. apply Forall_app. auto. }
  destruct second as [j|]; [inv_ret H; exact H12|].
  destruct H12 as (e12 & Ha12 & Hn12).
  apply bindM_returns in H as (r3 & s3 & H3 & H).
  apply http_requests in H3 as (e3 & Ha3 & _ & Hr3).
  assert (st' = s3) as ->.
  { destruct (is_200 r3).
    - apply bindM_returns in H as (d & sd & Hd & H). inv_lift Hd.
      destruct (match d with JDict kvs => dget_default kvs "results" d | _ => d end)
        as [| | | |[|f l]|]; now apply ret_returns in H as [_ ->].
    - now apply ret_returns in H as [_ ->]. }
  exists (e12 ++ e3)%list. split; [eapply added_trans; eassumption|].
  rewrite requests_of_app. apply Forall_app. split; [exact Hn12|].
  apply Forall_forall. intros x Hx. rewrite (Hr3 x Hx). exact I.
Qed.

Lemma deliver_spec (url : string) (meeting_id : json) (body0 : payload)
    (results results' : summary) (st st' : state) :
  deliver net url meeting_id body0 results st = Returns results' st' ->
  meetings_found results' = meetings_found results /\
  contacts_processed results' = contacts_processed results /\
  emails_found results' = emails_found results /\
  exists evs, added st st' evs /\ In (Webhook url body0) (requests_of evs).
Proof.
  unfold deliver. intros H.
  apply bindM_returns in H as (wr & s1 & Hh & H).
  apply http_requests in Hh as (evs & Ha & Hin & _).
  cbv zeta in H.
  destruct (match truthy_response wr with Some r => _ | None => false end);
    inv_ret H; simpl; eauto 10.
Qed.

(** The ways one (organizer, leaf) pair can go when its processing returns. *)
Lemma process_customer_cases (url organizer_email : string) (cutoff : datetime)
    (delay : Q) (all_items : list json) (customer_email : string)
    (results results' : summary) (st st' : state) :
  process_customer net fromisoformat frames url organizer_email cutoff delay all_items
    customer_email results st = Returns results' st' ->
  exists filtered,
    filter_meetings fromisoformat organizer_email customer_email cutoff all_items
    = Ok filtered /\
    ((select_meeting fromisoformat filtered = None /\ results' = results /\ st' = st)
     \/
     exists m id,
       select_meeting fromisoformat filtered = Some m /\ meeting_id_of m = Ok id /\
       ((truthy id = false /\ results' = results /\ st' = st)
        \/
        truthy id = true /\
        exists uuid t s1,
          get m "transcription_uuid" = Ok uuid /\
          av_fetch_transcript_json net id uuid st = Returns t s1 /\
          ((truthy t = false /\ results' = results /\ st' = s1)
           \/
           truthy t = true /\
           exists plain,
             transcript_json_to_text frames t = Ok plain /\
             ((nonempty plain = false /\ results' = results /\ st' = s1)
              \/
              nonempty plain = true /\
              exists body0 r2 s2,
                make_payload customer_email organizer_email id m plain = Ok body0 /\
                deliver net url id body0 results s1 = Returns r2 s2 /\
                results' = add_meetings_found (List.length filtered) r2 /\
                added s2 st' [Sleep delay])))).
Proof.
  unfold process_customer. intros H.
  apply bindM_returns in H as (filtered & s0 & Hf & H). inv_lift Hf.
  exists filtered. split; [assumption|].
  destruct (select_meeting fromisoformat filtered) as [m|]; [|inv_ret H; auto].
  right.
  apply bindM_returns in H as (id & s0 & Hid & H). inv_lift Hid.
  exists m, id. split; [reflexivity|]. split; [assumption|].
  destruct (truthy id) eqn:Eid; cbn [negb] in H; [|inv_ret H; auto].
  right. split; [reflexivity|].
  apply bindM_returns in H as (uuid & s0 & Hu & H). inv_lift Hu.
  apply bindM_returns in H as (t & s1 & Ht & H).
  exists uuid, t, s1. split; [assumption|]. split; [assumption|].
  destruct (truthy t) eqn:Et; cbn [negb] in H; [|inv_ret H; auto].
  right. split; [reflexivity|].
  apply bindM_returns in H as (plain & s0 & Hp & H). inv_lift Hp.
  exists plain. split; [assumption|].
  destruct (nonempty plain) eqn:Ep; cbn [negb] in H; [|inv_ret H; auto].
  right. split; [reflexivity|].
  apply bindM_returns in H as (body0 & s0 & Hb & H). inv_lift Hb.
  apply bindM_returns in H as (r2 & s2 & Hd & H).
  apply bindM_returns in H as (u & s3 & He & H).
  apply sleep_returns in He as [He _]. inv_ret H.
  exists body0, r2, s2. auto.
Qed.

End Counter.

Lemma not_webhook_In (evs : list event) :
  Forall not_webhook (requests_of evs) ->
  forall u b, ~ In (Webhook u b) (requests_of evs).
Proof.
  intros H u b Hin. rewrite Forall_forall in H. exact (H _ Hin).
Qed.

(** A pair processed without a request to the webhook leaves the summary
    as it was. *)
Lemma process_customer_skipped (net : nat -> request -> outcome)
    (fromisoformat : string -> option datetime) (frames : nat)
    (url organizer_email : string) (cutoff : datetime) (delay : Q)
    (all_items : list json) (customer_email : string)
    (results results' : summary) (st st' : state) (evs : list event) :
  process_customer net fromisoformat frames url organizer_email cutoff delay
    all_items customer_email results st = Returns results' st' ->
  added st st' evs ->
  (forall u body0, ~ In (Webhook u body0) (requests_of evs)) ->
  results' = results.
Proof.
  intros H Hadd Hno.
  apply process_customer_cases in H as (filtered & _ & Hcases).
  destruct Hcases as [(_ & -> & _)|(m & id & _ & _ & Hcases)]; [reflexivity|].
  destruct Hcases as [(_ & -> & _)|(_ & uuid & t & s1 & _ & Ht & Hcases)];
    [reflexivity|].
  destruct Hcases as [(_ & -> & _)|(_ & plain & _ & Hcases)]; [reflexivity|].
  destruct Hcases as [(_ & -> & _)|(_ & body0 & r2 & s2 & _ & Hd & _ & Hs)];
    [reflexivity|].
  exfalso.
  apply av_fetch_transcript_json_requests in Ht as (e1 & Ha1 & _).
  apply deliver_spec in Hd as (_ & _ & _ & e2 & Ha2 & Hin).
  rewrite (added_unique _ _ _ _ Hadd
             (added_trans _ _ _ _ _ Ha1 (added_trans _ _ _ _ _ Ha2 Hs))) in Hno.
  apply (Hno url body0). rewrite !requests_of_app.
  apply in_or_app. right. apply in_or_app. now left.
Qed.

(** C10.  When the processing of an (organizer, leaf) pair returns, either
    a webhook delivery was attempted for it and [meetings_found] grew by
    the number of the pair's eligible meetings, or no delivery was
    attempted and the summary is unchanged.  A pair whose selected meeting
    has no identifier, whose transcript fetch returns nothing, or whose
    normalized transcript is empty is of the second kind: its eligible
    meetings add nothing.  So the final [meetings_found] can be smaller
    than the number of eligible meetings met: there is a run that meets
    one eligible meeting and ends with [meetings_found = 0]. *)
Theorem meetings_found_after_delivery (net : nat -> request -> outcome)
    (fromisoformat : string -> option datetime) (frames : nat)
    (url organizer_email : string) (cutoff : datetime) (delay : Q)
    (all_items : list json) (customer_email : string)
    (results results' : summary) (st st' : state) (evs : list event) :
  process_customer net fromisoformat frames url organizer_email cutoff delay all_items
    customer_email results st = Returns results' st' ->
  added st st' evs ->
  (exists filtered,
      filter_meetings fromisoformat organizer_email customer_email cutoff all_items
      = Ok filtered /\
      (((exists body0, In (Webhook url body0) (requests_of evs)) /\
        meetings_found results'
        = (meetings_found results + List.length filtered)%nat)
       \/
       ((forall u body0, ~ In (Webhook u body0) (requests_of evs)) /\
        results' = results)) /\
      (forall m id,
          select_meeting fromisoformat filtered = Some m ->
          meeting_id_of m = Ok id ->
          (truthy id = false \/
           exists uuid t s1,
             get m "transcription_uuid" = Ok uuid /\
             av_fetch_transcript_json net id uuid st = Returns t s1 /\
             (truthy t = false \/
              exists plain, transcript_json_to_text frames t = Ok plain /\
                            nonempty plain = false)) ->
          (forall u body0, ~ In (Webhook u body0) (requests_of evs)) /\
          results' = results)) /\
  (exists s st2,
      run_example no_transcript_net = Returns s st2 /\
      meetings_found s = 0%nat /\ emails_found s = 1%nat /\
      filter_meetings iso_examples "owner@x.com" "leaf@y.com" cutoff_example
        [meeting_day2] = Ok [meeting_day2]).
Proof.
  intros H Hadd. split;
    [|eexists; eexists; repeat split; vm_compute; reflexivity].
  apply process_customer_cases in H as (filtered & Hf & Hcases).
  exists filtered. split; [exact Hf|].
  assert (Hnil : forall u b, ~ In (Webhook u b) (requests_of (@nil event)))
    by (intros u b []).
  destruct Hcases as [(Hsel & -> & ->)|(m & id & Hsel & Hid & Hcases)].
  { rewrite (added_unique _ _ _ _ Hadd (added_refl st)). split; [auto|].
    intros m id Hm. congruence. }
  destruct Hcases as [(Eid & -> & ->)|(Eid & uuid & t & s1 & Hu & Ht & Hcases)].
  { rewrite (added_unique _ _ _ _ Hadd (added_refl st)). split; auto. }
  pose proof (av_fetch_transcript_json_requests net _ _ _ _ _ Ht) as (e1 & Ha1 & Hn1).
  destruct Hcases as [(Et & -> & ->)|(Et & plain & Hp & Hcases)].
  { rewrite (added_unique _ _ _ _ Hadd Ha1). split; [right|]; split; auto;
      now apply not_webhook_In. }
  destruct Hcases as [(Ep & -> & ->)|(Ep & body0 & r2 & s2 & Hb & Hd & -> & Hs)].
  { rewrite (added_unique _ _ _ _ Hadd Ha1). split; [right|]; split; auto;
      now apply not_webhook_In. }
  apply deliver_spec in Hd as (Hmf & _ & _ & e2 & Ha2 & Hin).
  rewrite (added_unique _ _ _ _ Hadd
             (added_trans _ _ _ _ _ Ha1 (added_trans _ _ _ _ _ Ha2 Hs))).
  split.
  - left. split.
    + exists body0. rewrite !requests_of_app. apply in_or_app. right.
      apply in_or_app. left. exact Hin.
    + simpl. now rewrite Hmf.
  - intros m' id' Hm' Hid' Hskip. exfalso.
    rewrite Hsel in Hm'. injection Hm' as <-.
    rewrite Hid in Hid'. injection Hid' as <-.
    destruct Hskip as [E|(uuid' & t' & s1' & Hu' & Ht' & Hskip)]; [congruence|].
    rewrite Hu in Hu'. injection Hu' as <-.
    rewrite Ht in Ht'. injection Ht' as <- <-.
    destruct Hskip as [E|(plain' & Hp' & E)]; [congruence|].
    rewrite Hp in Hp'. injection Hp' as <-. congruence.
Qed.

Lemma meetings_found_after_delivery_witness :
  exists results' st',
    process_customer no_transcript_net iso_examples frames_example
      "https://hook.example"
      "owner@x.com" cutoff_example (1 # 2) [meeting_day2] "leaf@y.com"
      empty_summary state0 = Returns results' st' /\
    results' = empty_summary /\
    exists filtered,
      filter_meetings iso_examples "owner@x.com" "leaf@y.com" cutoff_example
        [meeting_day2] = Ok filtered /\
      (((exists body0, In (Webhook "https://hook.example" body0)
                          (requests_of (rev (trace st')))) /\
        meetings_found results'
        = (meetings_found empty_summary + List.length filtered)%nat)
       \/
       ((forall u body0, ~ In (Webhook u body0) (requests_of (rev (trace st')))) /\
        results' = empty_summary)) /\
      (forall m id,
          select_meeting iso_examples filtered = Some m ->
          meeting_id_of m = Ok id ->
          (truthy id = false \/
           exists uuid t s1,
             get m "transcription_uuid" = Ok uuid /\
             av_fetch_transcript_json no_transcript_net id uuid state0
             = Returns t s1 /\
             (truthy t = false \/
              exists plain, transcript_json_to_text frames_example t = Ok plain /\
                            nonempty plain = false)) ->
          (forall u body0, ~ In (Webhook u body0) (requests_of (rev (trace st')))) /\
          results' = empty_summary).
Proof.
  eexists. eexists. split; [vm_compute; reflexivity|]. split; [reflexivity|].
  refine (proj1 (meetings_found_after_delivery no_transcript_net iso_examples
                   frames_example "https://hook.example" "owner@x.com" cutoff_example (1 # 2)
                   [meeting_day2] "leaf@y.com" empty_summary _ state0 _ _ _ _)).
  - vm_compute. reflexivity.
  - vm_compute. reflexivity.
Defined.

(** ** The normalizer on payloads of the transcript schema *)

Lemma schema_dict (kvs : list (string * json)) :
  transcript_schema (JDict kvs) =
  match dget kvs "transcript" with
  | JList turns =>
      forallb turn_ok turns && list_of is_speaker_entry (dget kvs "speakers")
  | _ => true
  end
  && list_of segment_ok (dget kvs "paragraphs")
  && list_of segment_ok (dget kvs "segments")
  && results_schema transcript_schema kvs.
Proof. reflexivity. Qed.

Lemma strip_or_or_empty (a b : json) :
  str_or_falsy a = true -> str_or_falsy b = true ->
  exists s, strip_of (por (por a b) (JStr "")) = Ok s.
Proof.
  intros Ha Hb.
  assert (Hab : str_or_falsy (por a b) = true)
    by (unfold por; destruct (truthy a); assumption).
  destruct (strip_or_empty _ Hab) as (s & _ & Hs). eauto.
Qed.

Lemma segment_lines_of_ok (l : list json) :
  forallb segment_ok l = true -> exists out, segment_lines_of l = Ok out.
Proof.
  induction l as [|it r IH]; simpl; [eauto|].
  intros H. apply andb_true_iff in H as [Hit Hr].
  destruct it as [| | | | |kvs]; try discriminate. simpl in Hit.
  apply andb_true_iff in Hit as [Hit Htx]. apply andb_true_iff in Hit as [Hsp Hsl].
  unfold segment_line. cbn [get bind].
  destruct (strip_or_or_empty _ _ Hsp Hsl) as (spk & ->). cbn [bind].
  destruct (strip_or_empty _ Htx) as (tx & _ & ->). cbn [bind].
  destruct (IH Hr) as (out & Hout).
  destruct (nonempty (PyStr.strip tx)); cbn [bind]; rewrite Hout; cbn [bind]; eauto.
Qed.

Lemma segment_lines_ok (kvs : list (string * json)) :
  list_of segment_ok (dget kvs "paragraphs") = true ->
  list_of segment_ok (dget kvs "segments") = true ->
  exists out, segment_lines kvs = Ok out.
Proof.
  intros Hp Hs. unfold segment_lines.
  destruct (iter_or_empty_list_of _ _ Hp) as (ps & -> & Hps). cbn [bind].
  destruct (segment_lines_of_ok ps Hps) as (l1 & ->). cbn [bind].
  destruct (iter_or_empty_list_of _ _ Hs) as (ss & -> & Hss). cbn [bind].
  destruct (segment_lines_of_ok ss Hss) as (l2 & ->). cbn [bind]. eauto.
Qed.

Lemma turn_lines_ok (tbl : speaker_table) (sps turns : list json) :
  forallb turn_ok turns = true -> table_from sps tbl ->
  exists lines, turn_lines tbl turns = Ok lines.
Proof.
  intros Hall Hinv. induction turns as [|tr r IH]; simpl; [eauto|].
  simpl in Hall. apply andb_true_iff in Hall as [Ht Hr].
  destruct (IH Hr) as (ls & Hls).
  assert (Hl : exists o, turn_line tbl tr = Ok o).
  { destruct tr as [| | | | |kvs]; try (eexists; reflexivity).
    destruct (turn_line_attributed tbl sps (JDict kvs) Ht Hinv) as (o & Ho & _).
    eauto. }
  destruct Hl as (o & ->). cbn [bind]. rewrite Hls. cbn [bind]. eauto.
Qed.

Lemma transcript_lines_ok (kvs : list (string * json)) :
  match dget kvs "transcript" with
  | JList turns =>
      forallb turn_ok turns && list_of is_speaker_entry (dget kvs "speakers")
  | _ => true
  end = true ->
  exists lines, transcript_lines kvs = Ok lines.
Proof.
  unfold transcript_lines.
  destruct (dget kvs "transcript") as [| | | |turns|];
    try (intros _; eexists; reflexivity).
  intros H. apply andb_true_iff in H as [Ht Hs].
  destruct (iter_or_empty_list_of _ _ Hs) as (sps & -> & Hsps). cbn [bind].
  assert (H0 : table_from [] []) by (intros k v; discriminate).
  destruct (build_speakers_from sps [] [] Hsps H0) as (tbl & -> & Hinv).
  cbn [bind]. simpl in Hinv. eapply turn_lines_ok; eassumption.
Qed.

Lemma mapM_ok {A B} (f : A -> result B) (l : list A) :
  (forall x, In x l -> exists y, f x = Ok y) -> exists ys, mapM f l = Ok ys.
Proof.
  induction l as [|x r IH]; intros H; [now exists []|].
  destruct (H x (or_introl eq_refl)) as (y & Hy).
  destruct IH as (ys & Hys); [intros z Hz; apply H; now right|].
  exists (y :: ys). cbn. rewrite Hy. cbn [bind].
  change ((fix go (l : list A) : result (list B) :=
             match l with
             | [] => Ok []
             | x :: r => (y <- f x ;; ys <- go r ;; Ok (y :: ys))%py
             end) r) with (mapM f r).
  now rewrite Hys.
Qed.

Lemma depth_element (l : list json) (x : json) :
  In x l -> (depth x < depth (JList l))%nat.
Proof.
  cbn [depth]. induction l as [|y r IH]; [intros []|].
  cbn [fold_right]. intros [->|H]; [lia|]. specialize (IH H). lia.
Qed.

Lemma depth_value (kvs : list (string * json)) (k : string) (v : json) :
  In (k, v) kvs -> (depth v < depth (JDict kvs))%nat.
Proof.
  cbn [depth]. induction kvs as [|[k' v'] r IH]; [intros []|].
  cbn [fold_right snd]. intros [E|H]; [injection E as -> ->; lia|].
  specialize (IH H). lia.
Qed.

(** The [results] step returns when the recursive calls it makes do. *)
Lemma results_text_ok (rec : json -> result string) (f : nat)
    (kvs : list (string * json)) :
  (forall t, transcript_schema t = true -> (depth t < f)%nat ->
             exists p, rec t = Ok p) ->
  results_schema transcript_schema kvs = true ->
  (forall k v, In (k, v) kvs -> (depth v <= f)%nat) ->
  exists p, results_text rec kvs = Ok p.
Proof.
  intros Hrec. induction kvs as [|[k v] r IH]; intros Hres Hd;
    [eexists; reflexivity|].
  cbn [results_text results_schema] in *.
  destruct (String.eqb k "results");
    [|apply IH; [exact Hres | intros k' v' H'; apply (Hd k' v'); now right]].
  destruct v as [| | | |xs|]; try (eexists; reflexivity).
  destruct (mapM_ok rec xs) as (parts & ->).
  - intros x Hx. apply Hrec.
    + rewrite forallb_forall in Hres. now apply Hres.
    + pose proof (depth_element xs x Hx).
      pose proof (Hd k (JList xs) (or_introl eq_refl)). lia.
  - cbn [bind]. destruct (negb (is_nil (filter nonempty parts))); eauto.
Qed.

(** On a payload of the transcript schema whose nesting the interpreter
    has room for, the normalizer returns a string. *)
Lemma normalizer_returns_on_schema (frames : nat) (t : json) :
  transcript_schema t = true -> (depth t < frames)%nat ->
  exists p, transcript_json_to_text frames t = Ok p.
Proof.
  revert t. induction frames as [|f IH]; intros t Hs Hd; [lia|].
  destruct t as [|b|n|s|l|kvs]; try (eexists; reflexivity).
  - destruct b; eexists; reflexivity.
  - destruct (n =? 0)%Z eqn:E; simpl; rewrite E; eexists; reflexivity.
  - rewrite normalizer_str. eauto.
  - destruct l as [|x r]; [eexists; reflexivity|].
    destruct (mapM_ok (transcript_json_to_text f) (x :: r)) as (parts & Hp).
    { intros y Hy. apply IH.
      - cbn [transcript_schema] in Hs. rewrite forallb_forall in Hs. now apply Hs.
      - pose proof (depth_element _ y Hy). lia. }
    rewrite normalizer_list, Hp. cbn [bind]. eauto.
  - destruct kvs as [|kv r]; [eexists; reflexivity|].
    rewrite normalizer_dict. rewrite schema_dict in Hs.
    apply andb_true_iff in Hs as [Hs Hres]. apply andb_true_iff in Hs as [Hs Hseg].
    apply andb_true_iff in Hs as [Htr Hpar].
    destruct (first_text (kv :: r) flat_keys); [eauto|].
    destruct (transcript_lines_ok _ Htr) as (lines & ->). cbn [bind].
    destruct (negb (is_nil lines)); [eauto|].
    destruct (segment_lines_ok _ Hpar Hseg) as (lines2 & ->). cbn [bind].
    destruct (negb (is_nil lines2)); [eauto|].
    apply (results_text_ok _ f); [|exact Hres|].
    + intros t Ht Hdt. now apply IH.
    + intros k v Hin. pose proof (depth_value _ k v Hin). lia.
Qed.

(** ** Runs that return *)

Lemma bindM_step {A B} (m : M A) (f : A -> M B) (st s1 : state) (a : A) :
  m st = Returns a s1 -> bindM m f st = f a s1.
Proof. unfold bindM. now intros ->. Qed.

Lemma lift_ok {A} (r : result A) (a : A) (st : state) :
  r = Ok a -> lift r st = Returns a st.
Proof. now intros ->. Qed.

Lemma dict_or_falsy_por (p : list (string * json) -> bool) (j : json) :
  dict_or_falsy p j = true ->
  exists kvs, por j (JDict []) = JDict kvs /\ (kvs = [] \/ p kvs = true).
Proof.
  unfold por. destruct j as [| |z|s|l|kvs]; simpl; intros H.
  - exists []. auto.
  - apply negb_true_iff in H. rewrite H. exists []. auto.
  - apply negb_true_iff in H. rewrite H. exists []. auto.
  - apply negb_true_iff in H. rewrite H. exists []. auto.
  - destruct l; [|discriminate]. exists []. auto.
  - destruct kvs; eauto.
Qed.

Lemma truthy_response_some (res : option response) (r : response) :
  truthy_response res = Some r -> res = Some r /\ ok r = true.
Proof.
  destruct res as [x|]; simpl; [|discriminate].
  destruct (ok x) eqn:E; [|discriminate]. intros [= <-]. auto.
Qed.

Lemma raise_for_status_ok (r : response) :
  ok r = true -> raise_for_status r = Ok tt.
Proof. unfold raise_for_status. now intros ->. Qed.

Section Totality.

Variable net : nat -> request -> outcome.
Variable fromisoformat : string -> option datetime.
Variable repr : json -> string.
Variable window : Z -> option (string * string * datetime).
Variable frames : nat.
Variable delay : Q.

Hypothesis shapes : well_shaped_net net.
Hypothesis fits : transcripts_fit net frames.
Hypothesis sleepable : sleep_error delay = None.

Lemma time_sleep_step (st : state) :
  time_sleep delay st
  = Returns tt {| calls := calls st; trace := Sleep delay :: trace st |}.
Proof. now rewrite (time_sleep_ok delay st sleepable). Qed.

(** A truthy response to [req] carries a well-shaped body. *)
Lemma http_shape (req : request) (st s1 : state) (res : option response)
    (r : response) :
  http net req st = Returns res s1 -> truthy_response res = Some r ->
  ok r = true /\ body_shape req (body r) = true /\
  exists n, (calls st <= n < calls s1)%nat /\ net n req = Answer r.
Proof.
  intros Hh Ht. apply truthy_response_some in Ht as [-> Hok].
  apply http_returns in Hh as (evs & n & _ & _ & _ & Hc & Hn).
  repeat split; auto.
  - eapply shapes; eassumption.
  - exists (calls st + n)%nat. split; [lia|assumption].
Qed.

(** A transcript payload read from a truthy response fits. *)
Lemma http_fit (req : request) (st s1 : state) (res : option response)
    (r : response) (t : json) :
  http net req st = Returns res s1 -> truthy_response res = Some r ->
  transcript_of req (body r) = Some t -> (depth t < frames)%nat.
Proof.
  intros Hh Ht Hb. apply truthy_response_some in Ht as [-> Hok].
  apply http_returns in Hh as (evs & n & _ & _ & _ & _ & Hn).
  eapply fits; eassumption.
Qed.

Lemma collect_record_ids_total (its : list json) (ids : list string) :
  forallb is_dict its = true ->
  exists ids', collect_record_ids repr ids its = Ok ids'.
Proof.
  revert ids. induction its as [|it r IH]; intros ids H; simpl; [eauto|].
  apply andb_true_iff in H as [Hd Hr].
  destruct it; try discriminate. simpl. apply IH. exact Hr.
Qed.

Lemma memberships_steps (j : json) :
  memberships_shape j = true ->
  exists res its v,
    get_default (por j (JDict [])) "results" (JList []) = Ok res /\
    iter res = Ok its /\ forallb is_dict its = true /\
    after_of (por j (JDict [])) = Ok v /\
    cursor_of (Some j) = v.
Proof.
  intros H. unfold cursor_of.
  apply dict_or_falsy_por in H as (kvs & -> & [->|H]).
  - exists (JList []), [], JNull. repeat split; reflexivity.
  - apply andb_true_iff in H as [Hres Hpag].
    assert (Hr : exists res its,
               get_default (JDict kvs) "results" (JList []) = Ok res /\
               iter res = Ok its /\ forallb is_dict its = true).
    { unfold get_default, dget_default.
      destruct (lookup kvs "results") as [v|].
      - simpl in Hres. destruct v; try discriminate.
        exists (JList l), l. auto.
      - exists (JList []), []. auto. }
    assert (Hp : exists v, after_of (JDict kvs) = Ok v).
    { unfold after_of, get_default, dget_default. simpl.
      destruct (lookup kvs "paging") as [p|]; [|eexists; reflexivity].
      simpl in Hpag. destruct p as [| | | | |pk]; try discriminate. simpl.
      destruct (lookup pk "next") as [nx|]; [|eexists; reflexivity].
      simpl in Hpag. destruct nx; try discriminate. eexists; reflexivity. }
    destruct Hr as (res & its & H1 & H2 & H3). destruct Hp as (v & Hv).
    exists res, its, v. rewrite Hv. auto.
Qed.

Lemma membership_pages_total (n0 fuel : nat) (list_id : string) 
    (after : json) (ids : list string) (st : state) :
  pages_end net n0 -> (n0 < fuel + calls st)%nat -> (1 <= fuel)%nat ->
  exists ids' st', membership_pages net repr fuel list_id delay after ids st
                   = Returns ids' st'.
Proof.
  intros Hend. revert after ids st.
  induction fuel as [|fuel IH]; intros after ids st Hn Hf; [lia|].
  cbn [membership_pages].
  destruct (http_total net (Hs_memberships list_id after) st)
    as (res & s1 & evs & n & Hh & _ & _ & _ & Hc & _).
  rewrite (bindM_step _ _ _ _ _ Hh).
  destruct (truthy_response res) as [r|] eqn:Et; [|unfold ret; eauto].
  destruct (http_shape _ _ _ _ _ Hh Et) as (Hok & Hshape & k & Hk & Hnet).
  destruct (status_code r =? 404)%Z; [unfold ret; eauto|].
  rewrite (bindM_step _ _ _ _ _ (lift_ok _ _ _ (raise_for_status_ok r Hok))).
  simpl in Hshape. unfold json_of.
  destruct (body r) as [j|] eqn:Eb; [|discriminate].
  rewrite (bindM_step _ _ _ _ _ (lift_ok _ _ _ eq_refl)).
  destruct (memberships_steps j Hshape) as (rs & its & v & Hrs & Hits & Hd & Hv & Hcur).
  rewrite (bindM_step _ _ _ _ _ (lift_ok _ _ _ Hrs)).
  rewrite (bindM_step _ _ _ _ _ (lift_ok _ _ _ Hits)).
  destruct (collect_record_ids_total its ids Hd) as (ids' & Hids).
  rewrite (bindM_step _ _ _ _ _ (lift_ok _ _ _ Hids)).
  rewrite (bindM_step _ _ _ _ _ (lift_ok _ _ _ Hv)).
  destruct (truthy v) eqn:Ev; cbn [negb]; [|unfold ret; eauto].
  rewrite (bindM_step _ _ _ _ _ (time_sleep_step _)).
  assert (Hlt : (k < n0)%nat).
  { destruct (Nat.lt_ge_cases k n0) as [|Hge]; [assumption|].
    specialize (Hend k _ _ r Hge Hnet). rewrite Eb, Hcur in Hend. congruence. }
  apply IH; simpl; lia.
Qed.

Lemma hs_get_list_member_ids_total (fuel : nat) (list_id : string) 
    (st : state) :
  (exists r s1, http net (Hs_list list_id) st = Returns (Some r) s1 /\ ok r = true) ->
  pages_end net (calls st + fuel) -> (1 <= fuel)%nat ->
  exists ids st', hs_get_list_member_ids net repr fuel list_id delay st
                  = Returns ids st'.
Proof.
  intros (r & s1 & Hh & Hok) Hend Hf. unfold hs_get_list_member_ids.
  rewrite (bindM_step _ _ _ _ _ Hh). simpl. rewrite Hok.
  assert (H404 : (status_code r =? 404)%Z = false).
  { apply Z.eqb_neq. intros E. unfold ok in Hok. rewrite E in Hok. discriminate. }
  rewrite H404.
  rewrite (bindM_step _ _ _ _ _ (lift_ok _ _ _ (raise_for_status_ok r Hok))).
  apply http_returns in Hh as (_ & n & _ & _ & _ & Hc & _).
  destruct (membership_pages_total (calls st + fuel) fuel list_id JNull [] s1 Hend)
    as (ids & s2 & Hm); [lia|lia|].
  rewrite (bindM_step _ _ _ _ _ Hm).
  unfold bindM, emit, ret. eauto.
Qed.

Lemma batch_steps (j : json) :
  batch_shape j = true ->
  exists res its,
    get_default j "results" (JList []) = Ok res /\ iter res = Ok its /\
    forallb well_shaped_contact its = true.
Proof.
  destruct j as [| | | | |kvs]; try discriminate. simpl.
  unfold dget_default. destruct (lookup kvs "results") as [v|]; simpl.
  - destruct v; try discriminate. simpl. intros H. exists (JList l), l. auto.
  - intros _. exists (JList []), []. auto.
Qed.

Lemma batch_read_chunks_total (chunks : list (list string)) 
    (out : list json) (st : state) :
  forallb well_shaped_contact out = true ->
  exists out' st',
    batch_read_chunks net chunks delay out st = Returns out' st' /\
    forallb well_shaped_contact out' = true.
Proof.
  revert out st. induction chunks as [|c r IH]; intros out st Hout;
    cbn [batch_read_chunks]; [unfold ret; eauto|].
  destruct (http_total net (Hs_batch_read c) st)
    as (res & s1 & evs & n & Hh & _).
  rewrite (bindM_step _ _ _ _ _ Hh).
  destruct (truthy_response res) as [x|] eqn:Et; [|unfold ret; eauto].
  destruct (http_shape _ _ _ _ _ Hh Et) as (Hok & Hshape & _).
  rewrite (bindM_step _ _ _ _ _ (lift_ok _ _ _ (raise_for_status_ok x Hok))).
  simpl in Hshape. unfold json_of.
  destruct (body x) as [j|]; [|discriminate].
  rewrite (bindM_step _ _ _ _ _ (lift_ok _ _ _ eq_refl)).
  destruct (batch_steps j Hshape) as (rs & its & Hrs & Hits & Hc).
  rewrite (bindM_step _ _ _ _ _ (lift_ok _ _ _ Hrs)).
  rewrite (bindM_step _ _ _ _ _ (lift_ok _ _ _ Hits)).
  rewrite (bindM_step _ _ _ _ _ (time_sleep_step _)).
  apply IH. rewrite forallb_app, Hout, Hc. reflexivity.
Qed.

Lemma hs_batch_read_contacts_total (ids : list string) (st : state) :
  exists contacts st',
    hs_batch_read_contacts net ids delay st = Returns contacts st' /\
    forallb well_shaped_contact contacts = true.
Proof.
  unfold hs_batch_read_contacts. destruct (is_nil ids); [unfold ret; eauto|].
  destruct (batch_read_chunks_total (chunks_of 100 ids) [] st eq_refl)
    as (out & s1 & Hb & Hc).
  rewrite (bindM_step _ _ _ _ _ Hb). unfold bindM, emit, ret. eauto.
Qed.

Lemma contact_props (c : json) :
  well_shaped_contact c = true ->
  exists p, props_of c = Ok (JDict p) /\
            str_or_falsy (dget p "email") = true /\
            str_or_falsy (dget p "hubspot_owner_id") = true.
Proof.
  destruct c as [| | | | |kvs]; try discriminate. simpl. intros H.
  unfold props_of. simpl.
  apply dict_or_falsy_por in H as (p & -> & [->|H]).
  - exists []. auto.
  - apply andb_true_iff in H as [H1 H2]. eauto.
Qed.

Lemma owner_ids_of_total (contacts : list json) :
  forallb well_shaped_contact contacts = true ->
  exists ids, owner_ids_of contacts = Ok ids.
Proof.
  induction contacts as [|c r IH]; intros H; simpl; [eauto|].
  apply andb_true_iff in H as [Hc Hr].
  destruct (contact_props c Hc) as (p & -> & _ & Ho). simpl.
  destruct (IH Hr) as (ids & Hids).
  destruct (truthy (dget p "hubspot_owner_id")) eqn:Et; [|eauto].
  destruct (dget p "hubspot_owner_id"); simpl in Ho, Et;
    try discriminate; try (rewrite Et in Ho; discriminate).
  rewrite Hids. simpl. eauto.
Qed.

Lemma correlate_total (mapping : sdict) (contacts : list json) (c2o : sdict) :
  forallb well_shaped_contact contacts = true ->
  exists c2o', correlate mapping contacts c2o = Ok c2o'.
Proof.
  revert c2o. induction contacts as [|c r IH]; intros c2o H; simpl; [eauto|].
  apply andb_true_iff in H as [Hc Hr].
  destruct (contact_props c Hc) as (p & -> & He & Ho). simpl.
  destruct (strip_or_empty _ He) as (e & _ & ->). simpl.
  destruct (strip_or_empty _ Ho) as (o & _ & ->). simpl.
  destruct (negb (nonempty (PyStr.lower (PyStr.strip e)))); [apply IH; exact Hr|].
  destruct (sdict_get mapping (PyStr.strip o)) as [oe|]; [|apply IH; exact Hr].
  destruct (nonempty oe); apply IH; exact Hr.
Qed.

Lemma owner_lookups_total (ids : list string) (mapping : sdict)
    (st : state) :
  exists mapping' st', owner_lookups net repr ids delay mapping st
                       = Returns mapping' st'.
Proof.
  revert mapping st. induction ids as [|i r IH]; intros mapping st;
    cbn [owner_lookups]; [unfold ret; eauto|].
  destruct (http_total net (Hs_owner i) st) as (res & s1 & evs & n & Hh & _).
  rewrite (bindM_step _ _ _ _ _ Hh).
  destruct (truthy_response res) as [x|]; [|apply IH].
  destruct (status_code x =? 404)%Z; [apply IH|].
  cbv zeta. rewrite (bindM_step _ _ _ _ _ (time_sleep_step _)). apply IH.
Qed.

Lemma hs_owner_email_map_total (owner_ids : list string) (st : state) :
  exists mapping st', hs_owner_email_map net repr owner_ids delay st
                      = Returns mapping st'.
Proof.
  unfold hs_owner_email_map. cbv zeta.
  destruct (owner_lookups_total (sorted_set (filter nonempty owner_ids)) [] st)
    as (m & s1 & Hm).
  rewrite (bindM_step _ _ _ _ _ Hm). unfold bindM, emit, ret. eauto.
Qed.

Lemma meetings_steps (j : json) :
  meetings_shape j = true ->
  exists res mts nxt,
    get (por j (JDict [])) "results" = Ok res /\
    get (por j (JDict [])) "meetings" = Ok mts /\
    get (por j (JDict [])) "next" = Ok nxt /\
    match por (por res mts) (JList []) with
    | JList l => forallb well_shaped_meeting l = true
    | _ => True
    end.
Proof.
  intros H. apply dict_or_falsy_por in H as (kvs & -> & [->|H]).
  - exists JNull, JNull, JNull. repeat split; reflexivity.
  - simpl. eexists _, _, _. repeat split; try reflexivity.
    destruct (por (por (dget kvs "results") (dget kvs "meetings")) (JList []));
      auto.
Qed.

Lemma av_pages_total (n : nat) (first : request) (nxt : json) 
    (items : list json) (st : state) :
  (match first with Av_meetings _ _ _ _ _ => True | _ => False end) ->
  forallb well_shaped_meeting items = true ->
  exists items' st',
    av_pages net n first nxt delay items st = Returns items' st' /\
    forallb well_shaped_meeting items' = true.
Proof.
  intros Hfirst. revert nxt items st.
  induction n as [|n IH]; intros nxt items st Hit; cbn [av_pages];
    [unfold ret; eauto|].
  set (req := if truthy nxt then Av_next nxt else first).
  destruct (http_total net req st) as (res & s1 & evs & k & Hh & _).
  rewrite (bindM_step _ _ _ _ _ Hh).
  destruct (truthy_response res) as [x|] eqn:Et; [|unfold ret; eauto].
  destruct (http_shape _ _ _ _ _ Hh Et) as (Hok & Hshape & _).
  destruct ((status_code x =? 400) || (status_code x =? 404))%Z; [unfold ret; eauto|].
  rewrite (bindM_step _ _ _ _ _ (lift_ok _ _ _ (raise_for_status_ok x Hok))).
  assert (Hb : exists j, body x = Some j /\ meetings_shape j = true).
  { unfold req in Hshape. destruct (truthy nxt); [|destruct first; try contradiction];
      simpl in Hshape; destruct (body x); try discriminate; eauto. }
  destruct Hb as (j & Hb & Hj). unfold json_of. rewrite Hb.
  rewrite (bindM_step _ _ _ _ _ (lift_ok _ _ _ eq_refl)).
  destruct (meetings_steps j Hj) as (rs & mts & nx & Hrs & Hmts & Hnx & Hchunk).
  rewrite (bindM_step _ _ _ _ _ (lift_ok _ _ _ Hrs)).
  rewrite (bindM_step _ _ _ _ _ (lift_ok _ _ _ Hmts)).
  destruct (por (por rs mts) (JList [])) as [| | | |chunk|]; try (unfold ret; eauto).
  rewrite (bindM_step _ _ _ _ _ (lift_ok _ _ _ Hnx)).
  assert (Hall : forallb well_shaped_meeting (items ++ chunk) = true)
    by (rewrite forallb_app, Hit, Hchunk; reflexivity).
  destruct (negb (truthy nx)); [unfold ret; eauto|].
  rewrite (bindM_step _ _ _ _ _ (time_sleep_step _)). apply IH. exact Hall.
Qed.

Lemma av_list_meetings_total (organizer_email frm to : string) (limit pages : Z)
    (st : state) :
  exists items st',
    av_list_meetings_by_organizer net organizer_email frm to limit pages delay st
    = Returns items st' /\
    forallb well_shaped_meeting items = true.
Proof.
  unfold av_list_meetings_by_organizer. cbn [av_styles].
  destruct (av_pages_total (Z.to_nat (Z.max 1 pages))
              (Av_meetings organizer_email_style organizer_email frm to limit)
              JNull [] st I eq_refl) as (i1 & s1 & H1 & Hw1).
  unfold bindM. rewrite H1.
  destruct (negb (is_nil i1)).
  - unfold ret, emit. simpl. eauto.
  - destruct (av_pages_total (Z.to_nat (Z.max 1 pages))
                (Av_meetings organizerEmail_style organizer_email frm to limit)
                JNull i1 s1 I Hw1) as (i2 & s2 & H2 & Hw2).
    rewrite H2.
    destruct (negb (is_nil i2)); unfold ret, emit; simpl; eauto.
Qed.

Lemma is_200_truthy (res : option response) (x : response) :
  is_200 res = Some x -> truthy_response res = Some x.
Proof.
  unfold is_200. destruct (truthy_response res) as [y|]; [|discriminate].
  destruct (status_code y =? 200)%Z; [|discriminate]. now intros [= ->].
Qed.

Lemma av_fetch_transcript_json_total (meeting_id uuid : json) (st : state) :
  exists t st',
    av_fetch_transcript_json net meeting_id uuid st = Returns t st' /\
    transcript_schema t = true /\
    (truthy t = true -> (depth t < frames)%nat).
Proof.
  unfold av_fetch_transcript_json.
  destruct (http_total net (Av_transcript meeting_id) st)
    as (r1 & s1 & e1 & n1 & H1 & _).
  rewrite (bindM_step _ _ _ _ _ H1).
  destruct (is_200 r1) as [x|] eqn:E1.
  { apply is_200_truthy in E1.
    destruct (http_shape _ _ _ _ _ H1 E1) as (_ & Hshape & _).
    pose proof (fun t => http_fit _ _ _ _ _ t H1 E1) as Hfit.
    simpl in Hshape, Hfit. unfold json_of, lift.
    destruct (body x) as [j|]; [|discriminate].
    exists j, s1. split; [reflexivity|]. split; [exact Hshape|].
    intros _. now apply Hfit. }
  assert (Hsec : exists second s2,
             (if truthy uuid
              then (r2 <- http net (Av_transcription uuid);;
                    match is_200 r2 with
                    | Some x => j <- lift (json_of x);; ret (Some j)
                    | None => ret None
                    end)%M
              else ret None) s1 = Returns second s2 /\
             match second with
             | Some j => transcript_schema j = true /\ (depth j < frames)%nat
             | None => True
             end).
  { destruct (truthy uuid);
      [|unfold ret; eexists; eexists; split; [reflexivity|exact I]].
    destruct (http_total net (Av_transcription uuid) s1)
      as (r2 & s2 & e2 & n2 & H2 & _).
    rewrite (bindM_step _ _ _ _ _ H2).
    destruct (is_200 r2) as [x|] eqn:E2;
      [|unfold ret; eexists; eexists; split; [reflexivity|exact I]].
    apply is_200_truthy in E2.
    destruct (http_shape _ _ _ _ _ H2 E2) as (_ & Hshape & _).
    pose proof (fun t => http_fit _ _ _ _ _ t H2 E2) as Hfit.
    simpl in Hshape, Hfit. unfold json_of.
    destruct (body x) as [j|]; [|discriminate].
    rewrite (bindM_step _ _ _ _ _ (lift_ok _ _ _ eq_refl)). unfold ret.
    eexists; eexists; split; [reflexivity|]. split; [exact Hshape | now apply Hfit]. }
  destruct Hsec as (second & s2 & Hsec & Hn).
  rewrite (bindM_step _ _ _ _ _ Hsec).
  destruct second as [j|];
    [unfold ret; exists j, s2; split; [reflexivity|]; split; [apply Hn|];
     intros _; apply Hn|].
  destruct (http_total net (Av_transcriptions meeting_id) s2)
    as (r3 & s3 & e3 & n3 & H3 & _).
  rewrite (bindM_step _ _ _ _ _ H3).
  assert (Hnull : forall s, exists t st',
             ret JNull s = Returns t st' /\ transcript_schema t = true /\
             (truthy t = true -> (depth t < frames)%nat)).
  { intros s. exists JNull, s. split; [reflexivity|]. split; [reflexivity|].
    discriminate. }
  destruct (is_200 r3) as [x|] eqn:E3; [|apply Hnull].
  apply is_200_truthy in E3.
  destruct (http_shape _ _ _ _ _ H3 E3) as (_ & Hshape & _).
  pose proof (fun t => http_fit _ _ _ _ _ t H3 E3) as Hfit.
  simpl in Hshape, Hfit. unfold json_of.
  destruct (body x) as [j|]; [|discriminate].
  rewrite (bindM_step _ _ _ _ _ (lift_ok _ _ _ eq_refl)).
  unfold transcriptions_shape in Hshape. cbv zeta.
  destruct (match j with JDict kvs => dget_default kvs "results" j | _ => j end)
    as [| | | |[|f l]|]; try apply Hnull.
  exists f, s3. split; [reflexivity|]. split; [exact Hshape|].
  intros _. now apply Hfit.
Qed.

Lemma deliver_total (url : string) (meeting_id : json) (body0 : payload)
    (results : summary) (st : state) :
  exists results' st', deliver net url meeting_id body0 results st
                       = Returns results' st'.
Proof.
  unfold deliver.
  destruct (http_total net (Webhook url body0) st) as (wr & s1 & e & n & H & _).
  rewrite (bindM_step _ _ _ _ _ H). cbv zeta.
  destruct (match truthy_response wr with Some r => _ | None => false end);
    unfold ret; eauto.
Qed.

Lemma select_meeting_In (filtered : list json) (m : json) :
  select_meeting fromisoformat filtered = Some m -> In m filtered.
Proof.
  destruct filtered as [|x r]; [discriminate|]. intros H.
  destruct (sort_by_head (sort_key fromisoformat) (x :: r))
    as (m' & pre & post & Hhd & Hl & _); [discriminate|].
  unfold select_meeting in H. rewrite Hhd in H. injection H as <-.
  rewrite Hl. apply in_or_app. right. left. reflexivity.
Qed.

Lemma process_customer_total (url organizer_email : string) (cutoff : datetime)
    (all_items : list json) (customer_email : string)
    (results : summary) (st : state) :
  forallb well_shaped_meeting all_items = true ->
  exists results' st',
    process_customer net fromisoformat frames url organizer_email cutoff delay all_items
      customer_email results st = Returns results' st'.
Proof.
  intros Hall. unfold process_customer.
  destruct (filter_meetings_spec fromisoformat organizer_email customer_email
              cutoff all_items Hall) as (filtered & Hf & Hin).
  rewrite (bindM_step _ _ _ _ _ (lift_ok _ _ _ Hf)).
  destruct (select_meeting fromisoformat filtered) as [m|] eqn:Es;
    [|unfold ret; eauto].
  assert (Hm : well_shaped_meeting m = true).
  { apply select_meeting_In, Hin in Es. destruct Es as [Es _].
    rewrite forallb_forall in Hall. now apply Hall. }
  destruct (attendees_emails_ok m Hm) as (atts & Hatts).
  destruct m as [| | | | |kvs]; try discriminate.
  assert (Hid : meeting_id_of (JDict kvs)
                = Ok (por (por (dget kvs "uuid") (dget kvs "id"))
                          (dget kvs "meetingId"))) by reflexivity.
  rewrite (bindM_step _ _ _ _ _ (lift_ok _ _ _ Hid)).
  destruct (negb (truthy _)); [unfold ret; eauto|].
  assert (Hu : get (JDict kvs) "transcription_uuid"
               = Ok (dget kvs "transcription_uuid")) by reflexivity.
  rewrite (bindM_step _ _ _ _ _ (lift_ok _ _ _ Hu)).
  destruct (av_fetch_transcript_json_total
              (por (por (dget kvs "uuid") (dget kvs "id")) (dget kvs "meetingId"))
              (dget kvs "transcription_uuid") st) as (t & s1 & Ht & Hn & Hfit).
  rewrite (bindM_step _ _ _ _ _ Ht).
  destruct (truthy t) eqn:Etr; cbn [negb]; [|unfold ret; eauto].
  destruct (normalizer_returns_on_schema frames t Hn (Hfit eq_refl)) as (plain & Ep).
  rewrite Ep.
  rewrite (bindM_step _ _ _ _ _ (lift_ok (Ok plain) _ _ eq_refl)).
  destruct (negb (nonempty plain)); [unfold ret; eauto|].
  assert (Hpay : exists b, make_payload customer_email organizer_email
                             (por (por (dget kvs "uuid") (dget kvs "id"))
                                  (dget kvs "meetingId"))
                             (JDict kvs) plain = Ok b).
  { unfold make_payload. cbn [get bind]. rewrite Hatts. cbn [bind]. eauto. }
  destruct Hpay as (b & Hb).
  rewrite (bindM_step _ _ _ _ _ (lift_ok _ _ _ Hb)).
  destruct (deliver_total url
              (por (por (dget kvs "uuid") (dget kvs "id")) (dget kvs "meetingId"))
              b results s1) as (r2 & s2 & Hd).
  rewrite (bindM_step _ _ _ _ _ Hd).
  rewrite (bindM_step _ _ _ _ _ (time_sleep_step _)). unfold ret. eauto.
Qed.

Lemma process_customers_total (url organizer_email : string) (cutoff : datetime)
    (all_items : list json) (customers : list string)
    (results : summary) (st : state) :
  forallb well_shaped_meeting all_items = true ->
  exists results' st',
    process_customers net fromisoformat frames url organizer_email cutoff delay all_items
      customers results st = Returns results' st'.
Proof.
  intros Hall. revert results st.
  induction customers as [|c r IH]; intros results st; cbn [process_customers];
    [unfold ret; eauto|].
  destruct (process_customer_total url organizer_email cutoff all_items c
              results st Hall) as (r1 & s1 & H1).
  rewrite (bindM_step _ _ _ _ _ H1). apply IH.
Qed.

Lemma process_organizers_total (url frm to : string) (cutoff : datetime)
    (limit pages : Z) (groups : list (string * list string))
    (results : summary) (st : state) :
  exists results' st',
    process_organizers net fromisoformat frames url frm to cutoff limit pages delay groups
      results st = Returns results' st'.
Proof.
  revert results st. induction groups as [|[o cs] r IH]; intros results st;
    cbn [process_organizers]; [unfold ret; eauto|].
  destruct (av_list_meetings_total o frm to limit pages st)
    as (items & s1 & H1 & Hw).
  rewrite (bindM_step _ _ _ _ _ H1).
  assert (H2 : exists r2 s2,
             (if is_nil items then ret results
              else process_customers net fromisoformat frames url o cutoff delay items cs
                     results) s1 = Returns r2 s2).
  { destruct (is_nil items); [unfold ret; eauto|].
    apply process_customers_total. exact Hw. }
  destruct H2 as (r2 & s2 & H2).
  rewrite (bindM_step _ _ _ _ _ H2). apply IH.
Qed.

Lemma run_pipeline_total (fuel : nat) (list_id url : string)
    (only_emails : option (list string)) (days limit pages : Z) (st : state) :
  window days <> None ->
  (exists r s1, http net (Hs_list list_id) st = Returns (Some r) s1 /\ ok r = true) ->
  pages_end net (calls st + fuel) -> (1 <= fuel)%nat ->
  exists s st',
    run_pipeline net fromisoformat repr window frames fuel list_id url only_emails
      days limit pages delay st = Returns s st'.
Proof.
  intros Hwin Hlist Hend Hfuel. unfold run_pipeline.
  destruct (hs_get_list_member_ids_total fuel list_id st Hlist Hend Hfuel)
    as (ids & s1 & H1).
  rewrite (bindM_step _ _ _ _ _ H1). cbv zeta.
  destruct (is_nil ids); [unfold ret; eauto|].
  destruct (hs_batch_read_contacts_total ids s1) as (contacts & s2 & H2 & Hc).
  rewrite (bindM_step _ _ _ _ _ H2).
  destruct (owner_ids_of_total contacts Hc) as (oids & Ho).
  rewrite (bindM_step _ _ _ _ _ (lift_ok _ _ _ Ho)).
  destruct (hs_owner_email_map_total oids s2) as (mapping & s3 & H3).
  rewrite (bindM_step _ _ _ _ _ H3).
  destruct (correlate_total mapping contacts [] Hc) as (c2o & Hco).
  rewrite (bindM_step _ _ _ _ _ (lift_ok _ _ _ Hco)).
  destruct (is_nil (select_emails c2o only_emails)); [unfold ret; eauto|].
  unfold window_of. destruct (window days) as [[[frm to] cutoff]|]; [|now elim Hwin].
  rewrite (bindM_step _ _ _ _ _ (lift_ok _ _ _ eq_refl)).
  apply process_organizers_total.
Qed.

End Totality.

(** ** The run and its summary *)

(** C1, as stated, fails.  When the list lookup gets a 404, a 403 or no
    response at all, an exception escapes [run_pipeline] and no summary is
    returned.  So it does when [--delay] is negative ([time.sleep] raises
    after the first batch read), when the transcript of a meeting is nested
    deeper than the interpreter has room for, and when the dates of the
    window overflow.  And a pair that fails without a delivery attempt -
    here no transcript can be fetched for its meeting - leaves no entry in
    the summary's error list. *)
Lemma run_raises_or_skips_silently :
  run_example (status_net 404) = Raises RuntimeError /\
  (exists e, run_example (status_net 403) = Raises e) /\
  run_example down_net = Raises RuntimeError /\
  run_pipeline two_leaves_net iso_examples repr_examples window_example
    frames_example 10 "7" "https://hook.example" None 365 100 5 (-1 # 2) state0
  = Raises ValueError /\
  run_example (with_transcript (nest frames_example (JStr "hello")) one_leaf_net)
  = Raises RecursionError /\
  run_pipeline two_leaves_net iso_examples repr_examples window_overflow
    frames_example 10 "7" "https://hook.example" None 365 100 5 (1 # 2) state0
  = Raises OverflowError /\
  exists st',
    run_example no_transcript_net
    = Returns {| contacts_processed := 1; emails_found := 1; meetings_found := 0;
                 transcripts_posted := 0; errors := [] |} st'.
Proof.
  split; [vm_compute; reflexivity|]. split; [eexists; vm_compute; reflexivity|].
  split; [vm_compute; reflexivity|]. split; [vm_compute; reflexivity|].
  split; [vm_compute; reflexivity|]. split; [vm_compute; reflexivity|].
  eexists. vm_compute. reflexivity.
Qed.

(** C1, amended.  When the list lookup gets a response with a status
    below 400, the membership paging ends, every response with a status
    below 400 has a well-shaped body whose transcript is nested no deeper
    than the interpreter has room for, [time.sleep] takes the delay and
    the dates of the window are in range, a run of [run_pipeline] returns
    a summary - whatever calls fail and whatever error statuses (400, 401,
    403, 404, ...) the other calls get.  When the list lookup gets no
    response or an error status, [RuntimeError] escapes the run.  A
    webhook delivery never raises: when it gets no response or a status
    outside {200, 201, 202, 204} it adds an entry with the meeting
    identifier to the summary's error list, and otherwise it counts a
    posted transcript.  A pair processed without a request to the webhook
    leaves the summary, and with it the error list, as it was. *)
Theorem run_returns_summary (net : nat -> request -> outcome)
    (fromisoformat : string -> option datetime) (repr : json -> string)
    (window : Z -> option (string * string * datetime)) (frames : nat)
    (fuel : nat) (list_id url : string) (only_emails : option (list string))
    (days limit pages : Z) (delay : Q) (st : state) :
  (well_shaped_net net -> transcripts_fit net frames ->
   sleep_error delay = None -> window days <> None ->
   (exists r s1, http net (Hs_list list_id) st = Returns (Some r) s1 /\ ok r = true) ->
   pages_end net (calls st + fuel) -> (1 <= fuel)%nat ->
   exists s st',
     run_pipeline net fromisoformat repr window frames fuel list_id url only_emails
       days limit pages delay st = Returns s st') /\
  (forall r s1,
      http net (Hs_list list_id) st = Returns r s1 -> truthy_response r = None ->
      run_pipeline net fromisoformat repr window frames fuel list_id url only_emails
        days limit pages delay st = Raises RuntimeError) /\
  (forall meeting_id body0 results s1,
      exists wr s2,
        http net (Webhook url body0) s1 = Returns wr s2 /\
        deliver net url meeting_id body0 results s1
        = Returns (if delivered wr then posted_one_more results
                   else with_error results meeting_id wr) s2) /\
  (forall organizer_email cutoff all_items customer_email results results' s1 s2 evs,
      process_customer net fromisoformat frames url organizer_email cutoff delay
        all_items customer_email results s1 = Returns results' s2 ->
      added s1 s2 evs ->
      (forall u body0, ~ In (Webhook u body0) (requests_of evs)) ->
      results' = results).
Proof.
  split; [|split; [|split]].
  - intros Hshapes Hfit Hsleep Hwin Hlist Hend Hfuel. now apply run_pipeline_total.
  - intros r s1 Hh Ht. unfold run_pipeline, hs_get_list_member_ids.
    unfold bindM at 1. unfold bindM at 1. rewrite Hh, Ht. reflexivity.
  - intros meeting_id body0 results s1.
    destruct (http_total net (Webhook url body0) s1) as (wr & s2 & e & n & H & _).
    exists wr, s2. split; [exact H|].
    unfold deliver. rewrite (bindM_step _ _ _ _ _ H). cbv zeta.
    fold (delivered wr). destruct (delivered wr); reflexivity.
  - intros o cutoff items ce results results' s1 s2 evs.
    apply process_customer_skipped.
Qed.

Lemma two_leaves_net_well_shaped : well_shaped_net two_leaves_net.
Proof.
  intros n req r H Hok.
  destruct req as [| | | |sty ? ? ? ?| | | | |]; try destruct sty;
    simpl in H; injection H as <-; first [reflexivity | discriminate Hok].
Defined.

Lemma two_leaves_net_pages_end (n0 : nat) : pages_end two_leaves_net n0.
Proof.
  intros n list_id after r _ H. simpl in H. injection H as <-. reflexivity.
Defined.

Lemma two_leaves_net_fits : transcripts_fit two_leaves_net frames_example.
Proof.
  intros n req r t H Hok Ht.
  destruct req as [| | | |sty ? ? ? ?| | | | |]; try destruct sty;
    simpl in H; injection H as <-; try discriminate Ht; try discriminate Hok.
  simpl in Ht. injection Ht as <-. apply Nat.ltb_lt. reflexivity.
Defined.

Lemma run_returns_summary_witness :
  well_shaped_net two_leaves_net /\
  transcripts_fit two_leaves_net frames_example /\
  pages_end two_leaves_net 10 /\
  exists s st', run_example two_leaves_net = Returns s st'.
Proof.
  split; [exact two_leaves_net_well_shaped|].
  split; [exact two_leaves_net_fits|].
  split; [apply two_leaves_net_pages_end|].
  apply (proj1 (run_returns_summary two_leaves_net iso_examples repr_examples
                  window_example frames_example 10 "7" "https://hook.example"
                  None 365 100 5 (1 # 2) state0)).
  - exact two_leaves_net_well_shaped.
  - exact two_leaves_net_fits.
  - reflexivity.
  - discriminate.
  - eexists. eexists. split; [vm_compute; reflexivity|reflexivity].
  - apply two_leaves_net_pages_end.
  - lia.
Defined.

(** Every call after the list lookup is refused or fails: the run still
    returns, with an empty summary. *)
Example run_survives_failures :
  exists st', run_example forbidden_net = Returns empty_summary st'.
Proof. eexists. vm_compute. reflexivity. Qed.

(** A webhook that answers 400: the failure is in the error list.  The
    response is falsy, so the entry carries no status. *)
Example deliver_400_recorded :
  exists st',
    deliver (status_net 400) "https://hook.example" (JStr "m2")
      {| p_email := "leaf@y.com"; p_organizer_email := "owner@x.com";
         p_meeting_id := JStr "m2"; p_meeting_subject := JNull;
         p_meeting_url := JNull; p_start_at := JNull; p_attendees_emails := [];
         p_transcript_text := "hello world"; p_meeting_data := meeting_day2 |}
      empty_summary state0
    = Returns {| contacts_processed := 0; emails_found := 0; meetings_found := 0;
                 transcripts_posted := 0;
                 errors := [{| failed_meeting := JStr "m2";
                               observed_status := None |}] |} st'.
Proof. eexists. reflexivity. Qed.

(** Section 8 of the specification, end to end: one delivery, whose
    transcript text is "hello world", and one posted transcript. *)
Example run_end_to_end :
  exists s st',
    run_example one_leaf_net = Returns s st' /\
    transcripts_posted s = 1%nat /\ errors s = [] /\
    map p_transcript_text (webhook_bodies (rev (trace st'))) = ["hello world"] /\
    map p_email (webhook_bodies (rev (trace st'))) = ["leaf@y.com"].
Proof. eexists. eexists. split; [vm_compute; reflexivity|]. repeat split. Qed.

(** A list whose membership pages never end: the [while True] loop uses
    up any fuel, and the run does not return. *)
Example endless_paging_diverges (fuel : nat) :
  run_pipeline endless_net iso_examples repr_examples window_example frames_example
    fuel "7" "https://hook.example" None 365 100 5 (1 # 2) state0 = Diverges.
Proof.
  assert (Hpage : forall after st,
             exists r st1,
               http endless_net (Hs_memberships "7" after) st = Returns (Some r) st1 /\
               ok r = true /\ status_code r = 200%Z /\
               body r = Some (JDict [("results", JList [JDict [("recordId", JStr "1")]]);
                                     ("paging", JDict [("next",
                                                        JDict [("after", JStr "more")])])])).
  { intros after st. eexists. eexists.
    split; [apply http_answer; reflexivity|]. repeat split. }
  assert (H : forall after ids st,
             membership_pages endless_net repr_examples fuel "7" (1 # 2) after ids st
             = Diverges).
  { induction fuel as [|fuel IH]; intros after ids st; [reflexivity|].
    cbn [membership_pages].
    destruct (Hpage after st) as (r & st1 & Hh & Hok & Hst & Hb).
    rewrite (bindM_step _ _ _ _ _ Hh).
    unfold truthy_response. rewrite Hok, Hst. cbn [Z.eqb Pos.eqb].
    rewrite (bindM_step _ _ _ _ _ (lift_ok _ _ _ (raise_for_status_ok r Hok))).
    unfold json_of. rewrite Hb.
    rewrite (bindM_step _ _ _ _ _ (lift_ok _ _ _ eq_refl)).
    cbn. apply IH. }
  unfold run_pipeline, hs_get_list_member_ids.
  assert (Hl : exists r st1,
             http endless_net (Hs_list "7") state0 = Returns (Some r) st1 /\
             ok r = true /\ status_code r = 200%Z).
  { eexists. eexists. split; [apply http_answer; reflexivity|].
    split; reflexivity. }
  destruct Hl as (r & st1 & Hh & Hok & Hst).
  unfold bindM at 1. rewrite (bindM_step _ _ _ _ _ Hh).
  unfold truthy_response. rewrite Hok, Hst. cbn [Z.eqb Pos.eqb].
  rewrite (bindM_step _ _ _ _ _ (lift_ok _ _ _ (raise_for_status_ok r Hok))).
  unfold bindM at 1. rewrite H. reflexivity.
Qed.

(** * Further properties of the pipeline *)

(** ** Strings: [lower] and [strip] commute *)

Lemma is_space_lower_char (c : ascii) :
  PyStr.is_space (PyStr.lower_char c) = PyStr.is_space c.
Proof. destruct c as [[] [] [] [] [] [] [] []]; reflexivity. Qed.

Lemma lower_char_idem (c : ascii) :
  PyStr.lower_char (PyStr.lower_char c) = PyStr.lower_char c.
Proof. destruct c as [[] [] [] [] [] [] [] []]; reflexivity. Qed.

Lemma lower_idem (s : string) : PyStr.lower (PyStr.lower s) = PyStr.lower s.
Proof.
  induction s as [|c r IH]; [reflexivity|].
  cbn. now rewrite lower_char_idem, IH.
Qed.

Lemma lstrip_lower (s : string) :
  PyStr.lstrip (PyStr.lower s) = PyStr.lower (PyStr.lstrip s).
Proof.
  induction s as [|c r IH]; [reflexivity|].
  cbn. rewrite is_space_lower_char.
  now destruct (PyStr.is_space c).
Qed.

Lemma is_empty_lower (s : string) : PyStr.is_empty (PyStr.lower s) = PyStr.is_empty s.
Proof. now destruct s. Qed.

Lemma rstrip_lower (s : string) :
  PyStr.rstrip (PyStr.lower s) = PyStr.lower (PyStr.rstrip s).
Proof.
  induction s as [|c r IH]; [reflexivity|].
  cbn. rewrite is_space_lower_char, IH, is_empty_lower.
  now destruct (PyStr.is_space c && PyStr.is_empty (PyStr.rstrip r)).
Qed.

Lemma strip_lower (s : string) :
  PyStr.strip (PyStr.lower s) = PyStr.lower (PyStr.strip s).
Proof. unfold PyStr.strip. now rewrite rstrip_lower, lstrip_lower. Qed.

Lemma normalize_normalized (s : string) : normalized (normalize s).
Proof.
  unfold normalized, normalize. split.
  - now rewrite strip_lower, strip_idem.
  - apply lower_idem.
Qed.

(** ** [sorted(set(...))] *)

Lemma str_lt_trans (a b c : string) : str_lt a b -> str_lt b c -> str_lt a c.
Proof.
  unfold str_lt. intros H1 H2.
  apply OrderedTypeEx.String_as_OT.cmp_lt.
  apply OrderedTypeEx.String_as_OT.cmp_lt in H1, H2.
  exact (OrderedTypeEx.String_as_OT.lt_trans _ _ _ H1 H2).
Qed.

Lemma str_lt_irrefl (a : string) : ~ str_lt a a.
Proof.
  unfold str_lt. intros H.
  assert (E : String.compare a a = Eq)
    by (apply OrderedTypeEx.String_as_OT.cmp_eq; reflexivity).
  congruence.
Qed.

Lemma str_gt_lt (a b : string) : String.compare a b = Gt -> str_lt b a.
Proof.
  unfold str_lt. intros H. rewrite String.compare_antisym, H. reflexivity.
Qed.

Lemma insert_uniq_In (x y : string) (l : list string) :
  In y (insert_uniq x l) <-> y = x \/ In y l.
Proof.
  induction l as [|z r IH]; cbn.
  - intuition.
  - destruct (String.compare x z) eqn:E; cbn.
    + apply String.compare_eq_iff in E. subst. intuition.
    + intuition.
    + rewrite IH. intuition.
Qed.

Lemma sorted_set_In (x : string) (l : list string) :
  In x (sorted_set l) <-> In x l.
Proof.
  induction l as [|y r IH]; cbn; [tauto|].
  fold (sorted_set r). rewrite insert_uniq_In, IH. intuition.
Qed.

Lemma insert_uniq_sorted (x : string) (l : list string) :
  StronglySorted str_lt l -> StronglySorted str_lt (insert_uniq x l).
Proof.
  induction 1 as [|y r Hr IH Hy]; cbn.
  - constructor; constructor.
  - destruct (String.compare x y) eqn:E.
    + now constructor.
    + constructor; [now constructor|].
      constructor; [exact E|].
      rewrite Forall_forall in *. intros z Hz.
      exact (str_lt_trans _ _ _ E (Hy z Hz)).
    + constructor; [exact IH|].
      rewrite Forall_forall in *. intros z Hz.
      apply insert_uniq_In in Hz as [->|Hz]; [now apply str_gt_lt | now apply Hy].
Qed.

Lemma sorted_set_sorted (l : list string) : StronglySorted str_lt (sorted_set l).
Proof.
  induction l as [|y r IH]; cbn; [constructor|].
  now apply insert_uniq_sorted.
Qed.

Lemma sorted_NoDup (l : list string) : StronglySorted str_lt l -> NoDup l.
Proof.
  induction 1 as [|y r Hr IH Hy]; constructor; [|exact IH].
  intros Hin. rewrite Forall_forall in Hy.
  exact (str_lt_irrefl _ (Hy _ Hin)).
Qed.

Lemma sorted_filter (f : string -> bool) (l : list string) :
  StronglySorted str_lt l -> StronglySorted str_lt (filter f l).
Proof.
  induction 1 as [|y r Hr IH Hy]; cbn; [constructor|].
  destruct (f y); [|exact IH].
  constructor; [exact IH|].
  rewrite Forall_forall in *. intros z Hz.
  apply filter_In in Hz as [Hz _]. now apply Hy.
Qed.

(** ** The attendee emails of a meeting *)

Lemma attendee_email_normalized (a : json) : normalized (attendee_email a).
Proof.
  unfold attendee_email.
  destruct (por (field a "email") (JStr "")); try (split; reflexivity).
  apply normalize_normalized.
Qed.

Lemma attendee_emails_of_In (l : list json) (out : list string) :
  attendee_emails_of l = Ok out ->
  forall e, In e out <->
            nonempty e = true /\ exists a, In a l /\ attendee_email a = e.
Proof.
  revert out. induction l as [|a r IH]; intros out H e.
  - injection H as <-. cbn. split; [tauto|]. now intros (_ & x & [] & _).
  - cbn in H. destruct a as [| | | | |kvs]; try discriminate H. cbn in H.
    destruct (por (dget kvs "email") (JStr "")) as [| | |s| |] eqn:E;
      try discriminate H.
    cbn in H. destruct (attendee_emails_of r) as [rest|] eqn:Er; [|discriminate H].
    cbn in H. injection H as <-.
    assert (Ea : attendee_email (JDict kvs) = normalize s).
    { unfold attendee_email, field. now rewrite E. }
    specialize (IH rest eq_refl e).
    fold (normalize s).
    destruct (nonempty (normalize s)) eqn:En.
    + cbn [In]. rewrite IH. split.
      * intros [<-|(Hn & x & Hx & Hxe)].
        -- split; [exact En|]. exists (JDict kvs). split; [now left | exact Ea].
        -- split; [exact Hn|]. exists x. split; [now right | exact Hxe].
      * intros (Hn & x & [<-|Hx] & Hxe).
        -- left. now rewrite <- Hxe, Ea.
        -- right. split; [exact Hn|]. now exists x.
    + rewrite IH. split.
      * intros (Hn & x & Hx & Hxe). split; [exact Hn|]. exists x. split; [now right | exact Hxe].
      * intros (Hn & x & [<-|Hx] & Hxe).
        -- rewrite Ea in Hxe. subst e. congruence.
        -- split; [exact Hn|]. now exists x.
Qed.

(** X1.  [attendees_emails] (lines 246-252).  When it returns, its result is
    strictly increasing in the order of [sorted], so it holds no address
    twice; it holds exactly the non-empty normalized emails of the
    attendee entries, so two spellings of one address that differ in case
    or in surrounding white space are one element, and an entry without
    an email adds nothing. *)
Theorem attendees_emails_normalized_set (m : json) (atts : list string) :
  attendees_emails m = Ok atts ->
  StronglySorted str_lt atts /\ NoDup atts /\
  Forall normalized atts /\
  forall e, In e atts <->
            nonempty e = true /\
            exists a, In a (attendees_of m) /\ attendee_email a = e.
Proof.
  intros H. unfold attendees_emails in H.
  destruct m as [| | | | |kvs]; try discriminate H. cbn in H.
  destruct (iter_or_empty (dget kvs "attendees")) as [l|] eqn:El; [|discriminate H].
  cbn in H. destruct (attendee_emails_of l) as [out|] eqn:Eo; [|discriminate H].
  cbn in H. injection H as <-.
  assert (Hin : forall e, In e (sorted_set out) <->
                          nonempty e = true /\
                          exists a, In a (attendees_of (JDict kvs)) /\
                                    attendee_email a = e).
  { intros e. rewrite sorted_set_In.
    unfold attendees_of, field. rewrite El.
    exact (attendee_emails_of_In l out Eo e). }
  split; [apply sorted_set_sorted|].
  split; [apply sorted_NoDup, sorted_set_sorted|].
  split; [|exact Hin].
  apply Forall_forall. intros e He.
  apply Hin in He as (_ & a & _ & <-).
  apply attendee_email_normalized.
Qed.

Lemma attendees_emails_normalized_set_witness :
  attendees_emails meeting_mixed_case = Ok ["ann@y.com"; "bob@y.com"] /\
  StronglySorted str_lt ["ann@y.com"; "bob@y.com"] /\
  NoDup ["ann@y.com"; "bob@y.com"] /\
  Forall normalized ["ann@y.com"; "bob@y.com"] /\
  forall e, In e ["ann@y.com"; "bob@y.com"] <->
            nonempty e = true /\
            exists a, In a (attendees_of meeting_mixed_case) /\ attendee_email a = e.
Proof.
  split; [reflexivity|].
  apply (attendees_emails_normalized_set meeting_mixed_case). reflexivity.
Defined.

(** ** The leaves of a run and their groups *)

Lemma normalize_In (e : string) (l : list string) :
  mem e (map normalize l) = true <-> exists y, In y l /\ e = normalize y.
Proof.
  rewrite mem_In, in_map_iff. split.
  - intros (y & <- & Hy). now exists y.
  - intros (y & Hy & ->). now exists y.
Qed.

Lemma select_emails_sorted (cust_to_owner : sdict) (only_emails : option (list string)) :
  StronglySorted str_lt (select_emails cust_to_owner only_emails).
Proof.
  unfold select_emails. destruct only_emails as [[|x xs]|];
    try apply sorted_set_sorted.
  apply sorted_filter, sorted_set_sorted.
Qed.

Lemma select_emails_In (cust_to_owner : sdict) (only_emails : option (list string))
    (e : string) :
  In e (select_emails cust_to_owner only_emails) <->
  In e (map fst cust_to_owner) /\
  match only_emails with
  | Some (x :: xs) => exists y, In y (x :: xs) /\ e = normalize y
  | _ => True
  end.
Proof.
  unfold select_emails.
  destruct only_emails as [[|x xs]|]; try (rewrite sorted_set_In; tauto).
  rewrite filter_In, sorted_set_In.
  change (map (fun y => PyStr.lower (PyStr.strip y)) (x :: xs))
    with (map normalize (x :: xs)).
  now rewrite normalize_In.
Qed.

(** X2.  The leaf selection of lines 291-293.  The selected emails are the
    keys of [cust_to_owner], each once and in increasing order.  A
    non-empty allow-list keeps the keys that equal an entry of the list
    once that entry is trimmed and put in lower case; an empty allow-list,
    like none at all, keeps every key. *)
Theorem select_emails_spec (cust_to_owner : sdict) (only_emails : option (list string)) :
  StronglySorted str_lt (select_emails cust_to_owner only_emails) /\
  NoDup (select_emails cust_to_owner only_emails) /\
  forall e, In e (select_emails cust_to_owner only_emails) <->
            In e (map fst cust_to_owner) /\
            match only_emails with
            | Some (x :: xs) => exists y, In y (x :: xs) /\ e = normalize y
            | _ => True
            end.
Proof.
  split; [apply select_emails_sorted|].
  split; [apply sorted_NoDup, select_emails_sorted|].
  intros e. unfold select_emails.
  destruct only_emails as [[|x xs]|].
  - rewrite sorted_set_In. tauto.
  - rewrite filter_In, sorted_set_In.
    change (map (fun y => PyStr.lower (PyStr.strip y)) (x :: xs))
      with (map normalize (x :: xs)).
    rewrite normalize_In. tauto.
  - rewrite sorted_set_In. tauto.
Qed.

Lemma sdict_get_In (d : sdict) (k : string) :
  In k (map fst d) <-> exists v, sdict_get d k = Some v.
Proof.
  induction d as [|[k' v'] r IH]; cbn.
  - split; [tauto | now intros [v Hv]].
  - destruct (String.eqb k' k) eqn:E.
    + apply String.eqb_eq in E. subst. split; [now exists v' | now left].
    + apply String.eqb_neq in E. rewrite <- IH. intuition.
Qed.

Lemma leaves_of_group_add (g : list (string * list string)) (k v : string) :
  Permutation (leaves_of (group_add g k v)) (leaves_of g ++ [v]).
Proof.
  unfold leaves_of. induction g as [|[k' vs] r IH]; cbn.
  - apply Permutation_refl.
  - destruct (String.eqb k' k); cbn.
    + rewrite <- !app_assoc. apply Permutation_app_head, Permutation_app_comm.
    + rewrite <- app_assoc. now apply Permutation_app_head.
Qed.

Lemma groups_sound_add (c2o : sdict) (g : list (string * list string))
    (oe ce : string) :
  groups_sound c2o g -> sdict_get c2o ce = Some oe ->
  groups_sound c2o (group_add g oe ce).
Proof.
  intros Hg Hce. induction g as [|[k vs] r IH]; cbn.
  - intros o cs [E|[]]. injection E as <- <-.
    split; [discriminate|]. now intros x [<-|[]].
  - assert (Hr : groups_sound c2o r).
    { intros o cs Hin. apply Hg. now right. }
    destruct (String.eqb k oe) eqn:E.
    + apply String.eqb_eq in E. subst k.
      intros o cs [E|Hin].
      * injection E as <- <-. split; [now destruct vs|].
        intros x Hx. apply in_app_or in Hx as [Hx|[<-|[]]]; [|exact Hce].
        now apply (Hg oe vs); [left|].
      * apply Hg. now right.
    + intros o cs [E'|Hin].
      * apply Hg. now left.
      * now apply IH.
Qed.

Lemma group_by_owner_leaves (c2o : sdict) (emails : list string)
    (g : list (string * list string)) :
  (forall ce, In ce emails -> In ce (map fst c2o)) ->
  groups_sound c2o g ->
  Permutation (leaves_of (group_by_owner c2o emails g)) (leaves_of g ++ emails) /\
  groups_sound c2o (group_by_owner c2o emails g).
Proof.
  revert g. induction emails as [|ce r IH]; intros g Hkeys Hg; cbn.
  - rewrite app_nil_r. split; [apply Permutation_refl | exact Hg].
  - destruct (proj1 (sdict_get_In c2o ce) (Hkeys ce (or_introl eq_refl))) as [oe Hoe].
    rewrite Hoe.
    destruct (IH (group_add g oe ce)) as [Hp Hs].
    + intros x Hx. apply Hkeys. now right.
    + now apply groups_sound_add.
    + split; [|exact Hs].
      eapply Permutation_trans; [exact Hp|].
      change (ce :: r) with ([ce] ++ r)%list. rewrite app_assoc.
      apply Permutation_app_tail, leaves_of_group_add.
Qed.

(** X3.  The grouping of lines 302-304, applied to the leaves that lines
    291-293 select.  The leaves of all groups together are the selected
    leaves, each exactly once; no organizer has two groups and no group is
    empty; every leaf sits in the group of the organizer that
    [cust_to_owner] gives it.  So the loops of lines 306-367 process a leaf
    at most once in a run, under its own organizer. *)
Theorem leaves_grouped_once (cust_to_owner : sdict) (only_emails : option (list string)) :
  let emails := select_emails cust_to_owner only_emails in
  let groups := group_by_owner cust_to_owner emails [] in
  Permutation (leaves_of groups) emails /\
  NoDup (leaves_of groups) /\
  NoDup (map fst groups) /\
  forall o cs, In (o, cs) groups ->
               cs <> [] /\
               forall ce, In ce cs -> sdict_get cust_to_owner ce = Some o.
Proof.
  intros emails groups.
  assert (Hnd : NoDup emails) by apply sorted_NoDup, select_emails_sorted.
  destruct (group_by_owner_leaves cust_to_owner emails []) as [Hp Hs].
  - intros ce Hce. now apply select_emails_In in Hce.
  - now intros o cs [].
  - split; [exact Hp|]. split.
    + apply (Permutation_NoDup (Permutation_sym Hp)). exact Hnd.
    + split; [|exact Hs]. apply group_by_owner_NoDup. constructor.
Qed.

(** ** The leaf -> organizer map *)

Lemma sdict_get_set (d : sdict) (k v k' : string) :
  sdict_get (sdict_set d k v) k' = if String.eqb k k' then Some v else sdict_get d k'.
Proof.
  induction d as [|[k0 v0] r IH]; cbn.
  - reflexivity.
  - destruct (String.eqb k0 k) eqn:E; cbn.
    + apply String.eqb_eq in E. subst k0.
      now destruct (String.eqb k k').
    + rewrite IH. destruct (String.eqb k0 k') eqn:E'; [|reflexivity].
      apply String.eqb_eq in E'. subst k0.
      now rewrite String.eqb_sym, E.
Qed.

Lemma sdict_set_keys (d : sdict) (k v : string) :
  NoDup (map fst d) -> NoDup (map fst (sdict_set d k v)).
Proof.
  intros H. induction d as [|[k0 v0] r IH]; cbn.
  - constructor; [tauto | constructor].
  - cbn in H. inversion H as [|? ? Hn Hr]; subst.
    destruct (String.eqb k0 k) eqn:E; cbn; [exact H|].
    constructor; [|now apply IH].
    intros Hin. apply sdict_get_In in Hin as [w Hw].
    rewrite sdict_get_set in Hw.
    destruct (String.eqb k k0) eqn:E'.
    + apply String.eqb_eq in E'. rewrite E' in E. now rewrite String.eqb_refl in E.
    + apply Hn. apply sdict_get_In. now exists w.
Qed.

Lemma contact_email_normalized (c : json) : normalized (contact_email c).
Proof.
  unfold contact_email.
  destruct (por (field (properties_of c) "email") (JStr "")); try (split; reflexivity).
  apply normalize_normalized.
Qed.

Lemma correlate_cons (mapping : sdict) (c : json) (r : list json) (acc c2o : sdict) :
  correlate mapping (c :: r) acc = Ok c2o ->
  correlate mapping r (correlate_step mapping acc c) = Ok c2o.
Proof.
  intros H. cbn in H. unfold props_of in H.
  destruct c as [| | | | |kvs]; try discriminate H. cbn in H.
  destruct (por (dget kvs "properties") (JDict [])) as [| | | | |p] eqn:Ep;
    try discriminate H.
  cbn in H.
  destruct (por (dget p "email") (JStr "")) as [| | |e| |] eqn:Ee; try discriminate H.
  cbn in H.
  destruct (por (dget p "hubspot_owner_id") (JStr "")) as [| | |o| |] eqn:Eo;
    try discriminate H.
  cbn in H.
  assert (Ece : contact_email (JDict kvs) = PyStr.lower (PyStr.strip e)).
  { unfold contact_email, properties_of, field. rewrite Ep. cbn. now rewrite Ee. }
  assert (Eoid : contact_owner_id (JDict kvs) = PyStr.strip o).
  { unfold contact_owner_id, properties_of, field. rewrite Ep. cbn. now rewrite Eo. }
  unfold correlate_step, resolved_owner. rewrite Ece, Eoid.
  destruct (nonempty (PyStr.lower (PyStr.strip e))); cbn in H |- *; [|exact H].
  destruct (sdict_get mapping (PyStr.strip o)) as [oe|]; [|exact H].
  destruct (nonempty oe); exact H.
Qed.

Lemma correlate_fold (mapping : sdict) (contacts : list json) (acc c2o : sdict) :
  correlate mapping contacts acc = Ok c2o ->
  c2o = fold_left (correlate_step mapping) contacts acc.
Proof.
  revert acc. induction contacts as [|c r IH]; intros acc H.
  - cbn in H. now injection H as <-.
  - cbn [fold_left]. apply IH. now apply correlate_cons.
Qed.

Lemma correlate_step_get (mapping acc : sdict) (c : json) (k : string) :
  sdict_get (correlate_step mapping acc c) k =
  match resolved_owner mapping c with
  | Some oe =>
      if nonempty (contact_email c) && String.eqb (contact_email c) k
      then Some oe else sdict_get acc k
  | None => sdict_get acc k
  end.
Proof.
  unfold correlate_step.
  destruct (nonempty (contact_email c)), (resolved_owner mapping c) as [oe|]; cbn;
    try reflexivity.
  apply sdict_get_set.
Qed.

Lemma correlate_fold_sound (mapping : sdict) (contacts : list json) (acc : sdict)
    (ce oe : string) :
  sdict_get (fold_left (correlate_step mapping) contacts acc) ce = Some oe ->
  sdict_get acc ce = Some oe \/
  (nonempty ce = true /\
   exists c, In c contacts /\ contact_email c = ce /\ resolved_owner mapping c = Some oe).
Proof.
  revert acc. induction contacts as [|c r IH]; intros acc H; cbn in H; [now left|].
  apply IH in H as [H|(Hn & x & Hx & Hxe & Hxo)].
  - rewrite correlate_step_get in H.
    destruct (resolved_owner mapping c) as [o|] eqn:Eo; [|now left].
    destruct (nonempty (contact_email c)) eqn:En; cbn in H; [|now left].
    destruct (String.eqb (contact_email c) ce) eqn:E; [|now left].
    apply String.eqb_eq in E. injection H as <-. right.
    split; [now rewrite <- E|]. exists c. split; [now left | now split].
  - right. split; [exact Hn|]. exists x. split; [now right | now split].
Qed.

Lemma correlate_fold_skip (mapping : sdict) (post : list json) (acc : sdict) (k : string) :
  (forall c', In c' post -> contact_email c' = k -> resolved_owner mapping c' = None) ->
  sdict_get (fold_left (correlate_step mapping) post acc) k = sdict_get acc k.
Proof.
  revert acc. induction post as [|c r IH]; intros acc H; cbn; [reflexivity|].
  rewrite IH by (intros c' Hc'; apply H; now right).
  rewrite correlate_step_get.
  destruct (resolved_owner mapping c) as [o|] eqn:Eo; [|reflexivity].
  destruct (String.eqb (contact_email c) k) eqn:E.
  - apply String.eqb_eq in E. rewrite (H c (or_introl eq_refl) E) in Eo. discriminate.
  - now rewrite andb_false_r.
Qed.

Lemma correlate_fold_keys (mapping : sdict) (contacts : list json) (acc : sdict) :
  NoDup (map fst acc) ->
  NoDup (map fst (fold_left (correlate_step mapping) contacts acc)).
Proof.
  revert acc. induction contacts as [|c r IH]; intros acc H; cbn; [exact H|].
  apply IH. unfold correlate_step.
  destruct (nonempty (contact_email c)); [|exact H].
  destruct (resolved_owner mapping c); [|exact H].
  now apply sdict_set_keys.
Qed.

(** X4.  The correlation of lines 280-289.  When it returns, no leaf email
    is a key twice; every entry [ce -> oe] comes from a contact whose email,
    trimmed and in lower case, is the non-empty [ce] and whose owner id
    resolves to the non-empty owner email [oe]; and when several contacts
    share a leaf email, the owner of the last of them that resolves is the
    one kept.  A contact without an email or without a resolved owner adds
    no entry. *)
Theorem correlate_last_owner_wins (owner_email_by_id : sdict) (contacts : list json)
    (cust_to_owner : sdict) :
  correlate owner_email_by_id contacts [] = Ok cust_to_owner ->
  NoDup (map fst cust_to_owner) /\
  (forall ce oe,
      sdict_get cust_to_owner ce = Some oe ->
      nonempty ce = true /\ normalized ce /\ nonempty oe = true /\
      exists c, In c contacts /\ contact_email c = ce /\
                sdict_get owner_email_by_id (contact_owner_id c) = Some oe) /\
  (forall pre c post oe,
      contacts = (pre ++ c :: post)%list ->
      nonempty (contact_email c) = true ->
      resolved_owner owner_email_by_id c = Some oe ->
      (forall c', In c' post -> contact_email c' = contact_email c ->
                  resolved_owner owner_email_by_id c' = None) ->
      sdict_get cust_to_owner (contact_email c) = Some oe).
Proof.
  intros H. apply correlate_fold in H. subst cust_to_owner.
  split; [apply correlate_fold_keys; constructor|]. split.
  - intros ce oe Hget.
    apply correlate_fold_sound in Hget as [Hget|(Hn & c & Hc & Hce & Hco)];
      [discriminate Hget|].
    split; [exact Hn|]. split; [rewrite <- Hce; apply contact_email_normalized|].
    unfold resolved_owner in Hco.
    destruct (sdict_get owner_email_by_id (contact_owner_id c)) as [o|] eqn:Eo;
      [|discriminate Hco].
    destruct (nonempty o) eqn:Eno; [|discriminate Hco].
    injection Hco as <-. split; [exact Eno|].
    exists c. now repeat split.
  - intros pre c post oe -> Hn Ho Hpost.
    rewrite fold_left_app. cbn [fold_left].
    rewrite correlate_fold_skip by exact Hpost.
    rewrite correlate_step_get, Ho, Hn, String.eqb_refl. reflexivity.
Qed.

Lemma correlate_last_owner_wins_witness :
  correlate owners_example contacts_same_leaf [] = Ok [("ann@y.com", "second@x.com")] /\
  NoDup (map fst [("ann@y.com", "second@x.com")]) /\
  (forall ce oe,
      sdict_get [("ann@y.com", "second@x.com")] ce = Some oe ->
      nonempty ce = true /\ normalized ce /\ nonempty oe = true /\
      exists c, In c contacts_same_leaf /\ contact_email c = ce /\
                sdict_get owners_example (contact_owner_id c) = Some oe) /\
  (forall pre c post oe,
      contacts_same_leaf = (pre ++ c :: post)%list ->
      nonempty (contact_email c) = true ->
      resolved_owner owners_example c = Some oe ->
      (forall c', In c' post -> contact_email c' = contact_email c ->
                  resolved_owner owners_example c' = None) ->
      sdict_get [("ann@y.com", "second@x.com")] (contact_email c) = Some oe).
Proof.
  split; [reflexivity|].
  apply (correlate_last_owner_wins owners_example contacts_same_leaf). reflexivity.
Defined.

(** ** One call of [http_request] *)

Lemma http_call (net : nat -> request -> outcome) (req : request) (st : state) :
  exists res st' evs n,
    http net req st = Returns res st' /\ added st st' evs /\
    requests_of evs = repeat req (S n) /\ (n < 5)%nat /\
    calls st' = (calls st + S n)%nat /\
    timeline evs
    = retry_timeline req (7 # 10) (if is_some res then n else 5%nat) (is_some res) /\
    match res with
    | Some r => net (calls st + n)%nat req = Answer r /\
                retry_status (status_code r) = false
    | None => n = 4%nat
    end.
Proof.
  destruct (attempts_spec net 5 req (7 # 10) st eq_refl)
    as (k & res & st' & evs & Hrun & _ & Hres & Hadd & Htl & _).
  assert (Hreq : requests_of evs = repeat req (k + if is_some res then 1 else 0)).
  { rewrite <- requests_of_timeline, Htl. apply requests_of_retry_timeline. }
  destruct res as [r|].
  - destruct Hres as (Hk & Hnet & Hst & Hcalls).
    exists (Some r), st', evs, k. cbn [is_some] in *.
    replace (k + 1)%nat with (S k) in Hreq by lia. now repeat split.
  - destruct Hres as [-> Hcalls].
    exists None, st', evs, 4%nat. cbn [is_some] in *.
    repeat split; try assumption; lia.
Qed.

(** ** The owner map *)

Lemma owner_entry_normalized (repr : json -> string) (r : response) (oid : string)
    (mapping m : sdict) :
  owner_entry repr r oid mapping = Ok m ->
  emails_normalized mapping -> emails_normalized m.
Proof.
  unfold owner_entry. intros H Hgood.
  destruct (raise_for_status r); [|discriminate H]. cbn in H.
  destruct (json_of r) as [j|]; [|discriminate H]. cbn in H.
  destruct (por j (JDict [])) as [| | | | |kvs]; try discriminate H. cbn in H.
  destruct (por (dget kvs "email") (JStr "")) as [| | |e| |]; try discriminate H.
  cbn in H. fold (normalize e) in H.
  destruct (nonempty (normalize e)) eqn:En; cbn in H; injection H as <-;
    [|exact Hgood].
  intros k v Hget. rewrite sdict_get_set in Hget.
  destruct (String.eqb _ k); [|now apply (Hgood k)].
  injection Hget as <-. split; [exact En | apply normalize_normalized].
Qed.

Lemma owner_lookups_spec (net : nat -> request -> outcome) (repr : json -> string)
    (ids : list string) (delay : Q) (mapping : sdict) (st : state) :
  sleep_error delay = None ->
  emails_normalized mapping ->
  exists mapping' st' evs ns,
    owner_lookups net repr ids delay mapping st = Returns mapping' st' /\
    added st st' evs /\
    List.length ns = List.length ids /\ Forall (fun n => (n < 5)%nat) ns /\
    requests_of evs = calls_of Hs_owner ids ns /\
    emails_normalized mapping'.
Proof.
  intros Hsleep. revert mapping st.
  induction ids as [|oid rest IH]; intros mapping st Hgood.
  - exists mapping, st, [], []. cbn.
    split; [reflexivity|]. split; [apply added_refl|].
    split; [reflexivity|]. split; [constructor|]. split; [reflexivity | exact Hgood].
  - destruct (http_call net (Hs_owner oid) st)
      as (res & s1 & e1 & n & Hh & Ha & Hr & Hn & _).
    cbn [owner_lookups]. rewrite (bindM_step _ _ _ _ _ Hh).
    assert (Hskip : exists mapping' st' evs ns,
               owner_lookups net repr rest delay mapping s1 = Returns mapping' st' /\
               added st st' evs /\
               List.length ns = List.length (oid :: rest) /\
               Forall (fun n => (n < 5)%nat) ns /\
               requests_of evs = calls_of Hs_owner (oid :: rest) ns /\
               emails_normalized mapping').
    { destruct (IH mapping s1 Hgood) as (m' & s' & e2 & ns & Hrun & Ha2 & Hl & Hns & Hr2 & Hg).
      exists m', s', (e1 ++ e2)%list, (n :: ns).
      split; [exact Hrun|]. split; [exact (added_trans _ _ _ _ _ Ha Ha2)|].
      split; [cbn; now rewrite Hl|]. split; [now constructor|].
      split; [|exact Hg].
      rewrite requests_of_app, Hr, Hr2. reflexivity. }
    destruct (truthy_response res) as [r|]; [|exact Hskip].
    destruct (status_code r =? 404)%Z; [exact Hskip|].
    clear Hskip. cbv zeta. rewrite (bindM_step _ _ _ _ _ (time_sleep_run _ _ Hsleep)).
    set (mapping1 := match owner_entry repr r oid mapping with
                     | Ok m => m
                     | Raise _ => mapping
                     end).
    assert (Hg1 : emails_normalized mapping1).
    { subst mapping1. destruct (owner_entry repr r oid mapping) as [m|] eqn:Em;
        [|exact Hgood].
      exact (owner_entry_normalized repr r oid mapping m Em Hgood). }
    destruct (IH mapping1 {| calls := calls s1; trace := Sleep delay :: trace s1 |} Hg1)
      as (m' & s' & e2 & ns & Hrun & Ha2 & Hl & Hns & Hr2 & Hg).
    exists m', s', (e1 ++ Sleep delay :: e2)%list, (n :: ns).
    split; [exact Hrun|]. split.
    { apply (added_trans _ s1 _ _ _ Ha).
      apply (added_trans _ {| calls := calls s1; trace := Sleep delay :: trace s1 |}
               _ [Sleep delay] e2); [reflexivity | exact Ha2]. }
    split; [cbn; now rewrite Hl|]. split; [now constructor|].
    split; [|exact Hg].
    rewrite requests_of_app, Hr. cbn [requests_of flat_map app]. fold (requests_of e2).
    rewrite Hr2. reflexivity.
Qed.

(** What escapes the owner lookups is what [time.sleep] raises on the
    delay. *)
Lemma owner_lookups_escapes (net : nat -> request -> outcome) (repr : json -> string)
    (ids : list string) (delay : Q) (mapping : sdict) (st : state) :
  match owner_lookups net repr ids delay mapping st with
  | Returns _ _ => True
  | Raises e => sleep_error delay = Some e
  | Diverges => False
  end.
Proof.
  revert mapping st. induction ids as [|oid rest IH]; intros mapping st; [exact I|].
  destruct (http_call net (Hs_owner oid) st) as (res & s1 & e1 & n & Hh & _).
  cbn [owner_lookups]. rewrite (bindM_step _ _ _ _ _ Hh).
  destruct (truthy_response res) as [r|]; [|apply IH].
  destruct (status_code r =? 404)%Z; [apply IH|].
  cbv zeta. destruct (sleep_error delay) as [e|] eqn:E.
  - unfold bindM. now rewrite (time_sleep_raises _ _ _ E).
  - rewrite (bindM_step _ _ _ _ _ (time_sleep_run _ _ E)). apply IH.
Qed.

(** X5.  [hs_owner_email_map] (lines 107-124) with a delay that
    [time.sleep] takes returns whatever the owners API does: a call that
    fails, an error status, a body that is not JSON or not of the expected
    shape all leave the mapping as it was, and no exception escapes.  The
    distinct non-empty owner ids are looked up in increasing order, each by
    one call of [http_request], that is by one to five requests; and every
    email of the mapping is non-empty, trimmed and in lower case.  With any
    delay the function ends, and the only exception that escapes it is the
    one [time.sleep] raises on the delay (line 122 is outside the [try]). *)
Theorem owner_map_never_raises (net : nat -> request -> outcome)
    (repr : json -> string) (owner_ids : list string) (delay : Q) (st : state) :
  let unique_ids := sorted_set (filter nonempty owner_ids) in
  (sleep_error delay = None ->
   exists mapping st' evs ns,
     hs_owner_email_map net repr owner_ids delay st = Returns mapping st' /\
     added st st' evs /\
     StronglySorted str_lt unique_ids /\
     (forall oid, In oid unique_ids <-> In oid owner_ids /\ nonempty oid = true) /\
     List.length ns = List.length unique_ids /\
     Forall (fun n => (n < 5)%nat) ns /\
     requests_of evs = calls_of Hs_owner unique_ids ns /\
     emails_normalized mapping) /\
  hs_owner_email_map net repr owner_ids delay st <> Diverges /\
  (forall e, hs_owner_email_map net repr owner_ids delay st = Raises e ->
             sleep_error delay = Some e).
Proof.
  intros unique_ids. split; [|split].
  - intros Hsleep. unfold hs_owner_email_map. fold unique_ids.
    destruct (owner_lookups_spec net repr unique_ids delay [] st Hsleep)
      as (m & s1 & e1 & ns & Hrun & Ha & Hl & Hns & Hr & Hg).
    { intros k v Hget. discriminate Hget. }
    rewrite (bindM_step _ _ _ _ _ Hrun). unfold bindM, emit, ret.
    exists m, {| calls := calls s1;
                 trace := LogResolved (List.length m) (List.length unique_ids)
                            :: trace s1 |},
           (e1 ++ [LogResolved (List.length m) (List.length unique_ids)])%list, ns.
    split; [reflexivity|]. split.
    { apply (added_trans _ s1 _ _ _ Ha). reflexivity. }
    split; [apply sorted_set_sorted|]. split.
    { intros oid. unfold unique_ids. rewrite sorted_set_In, filter_In. tauto. }
    split; [exact Hl|]. split; [exact Hns|]. split; [|exact Hg].
    rewrite requests_of_app, Hr. cbn. apply app_nil_r.
  - unfold hs_owner_email_map. fold unique_ids. unfold bindM.
    pose proof (owner_lookups_escapes net repr unique_ids delay [] st) as H.
    destruct (owner_lookups net repr unique_ids delay [] st); [|discriminate|elim H].
    discriminate.
  - intros e. unfold hs_owner_email_map. fold unique_ids. unfold bindM.
    pose proof (owner_lookups_escapes net repr unique_ids delay [] st) as H.
    destruct (owner_lookups net repr unique_ids delay [] st) as [m s1|e'|];
      [discriminate | now intros [= <-] | elim H].
Qed.

Lemma owner_map_never_raises_witness :
  exists mapping st',
    hs_owner_email_map two_leaves_net repr_examples ["77"; ""; "77"] (1 # 2) state0
    = Returns mapping st' /\
    mapping = [("77", "owner@x.com")] /\
    hs_owner_email_map two_leaves_net repr_examples ["77"] (-1 # 2) state0
    = Raises ValueError.
Proof.
  destruct (proj1 (owner_map_never_raises two_leaves_net repr_examples
                     ["77"; ""; "77"] (1 # 2) state0) eq_refl)
    as (m & s & _ & _ & Hrun & _).
  exists m, s. split; [exact Hrun|].
  split; [|vm_compute; reflexivity].
  vm_compute in Hrun. now injection Hrun as <- _.
Defined.

Lemma http_returns_bound (net : nat -> request -> outcome) (req : request)
    (st st' : state) (res : option response) :
  http net req st = Returns res st' ->
  exists evs n,
    added st st' evs /\ requests_of evs = repeat req (S n) /\ (n < 5)%nat /\
    calls st' = (calls st + S n)%nat /\
    match res with
    | Some r => net (calls st + n)%nat req = Answer r /\
                retry_status (status_code r) = false
    | None => n = 4%nat
    end.
Proof.
  intros H.
  destruct (http_call net req st) as (res' & s & evs & n & Hh & Ha & Hr & Hn & Hc & _ & Hres).
  rewrite H in Hh. injection Hh as <- <-.
  exists evs, n. now repeat split.
Qed.

(** ** The batch read *)

Lemma chunks_fuel_concat {A} (fuel size : nat) (l : list A) :
  (0 < size)%nat -> (List.length l <= fuel)%nat ->
  List.concat (chunks_fuel fuel size l) = l.
Proof.
  intros Hs. revert l. induction fuel as [|f IH]; intros l Hl.
  - destruct l; [reflexivity | cbn in Hl; lia].
  - destruct l as [|x r]; [reflexivity|].
    cbn [chunks_fuel List.concat].
    rewrite IH; [apply firstn_skipn|].
    rewrite length_skipn. cbn [List.length] in *. lia.
Qed.

Lemma chunks_fuel_sizes {A} (fuel size : nat) (l : list A) :
  (0 < size)%nat ->
  Forall (fun c => (1 <= List.length c <= size)%nat) (chunks_fuel fuel size l).
Proof.
  intros Hs. revert l. induction fuel as [|f IH]; intros l; [constructor|].
  destruct l as [|x r]; [constructor|].
  cbn [chunks_fuel]. constructor; [|apply IH].
  rewrite length_firstn. cbn [List.length]. lia.
Qed.

Lemma batch_read_chunks_requests (net : nat -> request -> outcome)
    (chunks : list (list string)) (delay : Q) (out out' : list json)
    (st st' : state) :
  batch_read_chunks net chunks delay out st = Returns out' st' ->
  exists evs ns,
    added st st' evs /\ (List.length ns <= List.length chunks)%nat /\
    Forall (fun n => (n < 5)%nat) ns /\
    requests_of evs = calls_of Hs_batch_read chunks ns.
Proof.
  revert out st. induction chunks as [|c rest IH]; intros out st H;
    cbn [batch_read_chunks] in H.
  - inv_ret H. exists [], []. split; [apply added_refl|].
    split; [apply Nat.le_refl|]. split; [constructor | reflexivity].
  - inv_bind H.
    apply http_returns_bound in Hrun as (e1 & n & Ha & Hr & Hn & _).
    destruct (truthy_response a) as [r|].
    + inv_bind H. inv_lift Hrun. inv_bind H. inv_lift Hrun.
      inv_bind H. inv_lift Hrun. inv_bind H. inv_lift Hrun.
      inv_bind H. apply sleep_returns in Hrun as [Ha2 _].
      apply IH in H as (e3 & ns & Ha3 & Hl & Hns & Hr3).
      exists (e1 ++ [Sleep delay] ++ e3)%list, (n :: ns).
      split; [eapply added_trans; [exact Ha|]; eapply added_trans; eassumption|].
      split; [cbn; lia|]. split; [now constructor|].
      rewrite !requests_of_app, Hr, Hr3. reflexivity.
    + inv_ret H. exists e1, [n].
      split; [exact Ha|]. split; [cbn; lia|].
      split; [constructor; [exact Hn | constructor]|].
      rewrite Hr. unfold calls_of. cbn [combine flat_map fst snd].
      rewrite combine_nil. symmetry. apply app_nil_r.
Qed.

(** X6.  [hs_batch_read_contacts] (lines 89-105).  An empty id list costs
    no request and no log line.  Otherwise the id list is cut, in order and
    without loss, into batches of one to a hundred ids, and the requests of
    the read are those of one call of [http_request] (one to five
    requests) for each batch of an initial stretch of the batches, in the
    order of the batches: no batch is asked for twice or out of turn. *)
Theorem batch_read_in_chunks (net : nat -> request -> outcome) (ids : list string)
    (delay : Q) (st st' : state) (out : list json) (evs : list event) :
  hs_batch_read_contacts net ids delay st = Returns out st' ->
  added st st' evs ->
  let chunks := chunks_of 100 ids in
  List.concat chunks = ids /\
  Forall (fun c => (1 <= List.length c <= 100)%nat) chunks /\
  (ids = [] -> evs = [] /\ out = []) /\
  exists ns,
    (List.length ns <= List.length chunks)%nat /\
    Forall (fun n => (n < 5)%nat) ns /\
    requests_of evs = calls_of Hs_batch_read chunks ns.
Proof.
  intros H Hadd chunks.
  split; [apply chunks_fuel_concat; lia|].
  split; [apply chunks_fuel_sizes; lia|].
  unfold hs_batch_read_contacts in H.
  destruct ids as [|i r]; cbn [is_nil] in H.
  - inv_ret H.
    assert (evs = []) as -> by exact (added_unique _ _ _ _ Hadd (added_refl _)).
    split; [now split|]. exists []. split; [apply Nat.le_0_l|].
    split; [constructor | reflexivity].
  - split; [discriminate|].
    inv_bind H. apply batch_read_chunks_requests in Hrun as (e1 & ns & Ha & Hl & Hns & Hr).
    inv_bind H. apply emit_returns in Hrun as [Ha2 _]. inv_ret H.
    exists ns. split; [exact Hl|]. split; [exact Hns|].
    rewrite (added_unique _ _ _ _ Hadd (added_trans _ _ _ _ _ Ha Ha2)).
    rewrite requests_of_app, Hr. cbn. apply app_nil_r.
Qed.

Lemma batch_read_in_chunks_witness :
  exists out st',
    hs_batch_read_contacts two_leaves_net ["1"; "2"] (1 # 2) state0 = Returns out st' /\
    List.concat (chunks_of 100 ["1"; "2"]) = ["1"; "2"] /\
    Forall (fun c => (1 <= List.length c <= 100)%nat) (chunks_of 100 ["1"; "2"]) /\
    (["1"; "2"] = [] -> rev (trace st') = [] /\ out = []) /\
    exists ns,
      (List.length ns <= List.length (chunks_of 100 ["1"; "2"]))%nat /\
      Forall (fun n => (n < 5)%nat) ns /\
      requests_of (rev (trace st')) = calls_of Hs_batch_read (chunks_of 100 ["1"; "2"]) ns.
Proof.
  eexists. eexists. split; [vm_compute; reflexivity|].
  eapply (batch_read_in_chunks two_leaves_net ["1"; "2"] (1 # 2) state0).
  - vm_compute. reflexivity.
  - vm_compute. reflexivity.
Defined.

(** ** The normalizer: what it returns *)

Lemma joined_stripped (lines : list string) : PyStr.strip (joined lines) = joined lines.
Proof. apply strip_idem. Qed.

Lemma first_text_stripped (kvs : list (string * json)) (keys : list string) (s : string) :
  first_text kvs keys = Some s -> PyStr.strip s = s.
Proof.
  induction keys as [|k ks IH]; cbn; [discriminate|].
  destruct (dget kvs k) as [| | |v| |]; try exact IH.
  destruct (nonempty (PyStr.strip v)); [|exact IH].
  intros H. injection H as <-. apply strip_idem.
Qed.

Lemma results_text_stripped (rec : json -> result string) (kvs : list (string * json))
    (p : string) :
  results_text rec kvs = Ok p -> PyStr.strip p = p.
Proof.
  induction kvs as [|[k v] r IH]; cbn.
  - intros H. now injection H as <-.
  - destruct (String.eqb k "results"); [|exact IH].
    destruct v as [| | | |xs|]; try (intros H; now injection H as <-).
    destruct (mapM rec xs) as [parts|]; cbn; [|discriminate].
    destruct (is_nil (filter nonempty parts)); cbn; intros H; injection H as <-;
      [reflexivity | apply joined_stripped].
Qed.

Lemma normalizer_trimmed (frames : nat) (t : json) (p : string) :
  transcript_json_to_text frames t = Ok p -> PyStr.strip p = p.
Proof.
  intros H. destruct frames as [|f]; [discriminate H|].
  destruct t as [|b|n|s|l|kvs].
  - cbn in H. now injection H as <-.
  - destruct b; cbn in H; now injection H as <-.
  - cbn in H. destruct (negb (negb (Z.eqb n 0))); now injection H as <-.
  - cbn in H. destruct (negb (nonempty s)); injection H as <-;
      [reflexivity | apply strip_idem].
  - destruct l as [|x r]; [cbn in H; now injection H as <-|].
    rewrite normalizer_list in H.
    destruct (mapM (transcript_json_to_text f) (x :: r)) as [parts|];
      [|discriminate H].
    cbn in H. injection H as <-. apply joined_stripped.
  - destruct kvs as [|kv r]; [cbn in H; now injection H as <-|].
    rewrite normalizer_dict in H.
    destruct (first_text (kv :: r) flat_keys) as [s|] eqn:Ef.
    + injection H as <-. exact (first_text_stripped _ _ _ Ef).
    + destruct (transcript_lines (kv :: r)) as [lines|]; [|discriminate H].
      cbn [bind] in H.
      destruct (negb (is_nil lines)); [injection H as <-; apply joined_stripped|].
      destruct (segment_lines (kv :: r)) as [lines2|]; [|discriminate H].
      cbn [bind] in H.
      destruct (negb (is_nil lines2)); [injection H as <-; apply joined_stripped|].
      exact (results_text_stripped _ _ _ H).
Qed.

(** X7.  Whatever [transcript_json_to_text] (lines 177-223) returns has no
    white space at either end, and the normalizer maps it to itself: to
    normalize the text of a payload again changes nothing.  A payload
    wrapped in a one-element list has the text of the payload, when the
    interpreter has room for one more nested call. *)
Theorem normalizer_idempotent (frames : nat) (t : json) (p : string) :
  transcript_json_to_text frames t = Ok p ->
  PyStr.strip p = p /\
  transcript_json_to_text frames (JStr p) = Ok p /\
  transcript_json_to_text (S frames) (JList [t]) = Ok p.
Proof.
  intros H.
  pose proof (normalizer_trimmed frames t p H) as Hs.
  split; [exact Hs|]. split.
  - destruct frames as [|f]; [discriminate H|].
    rewrite normalizer_str. now rewrite Hs.
  - rewrite (normalizer_singleton frames t p H). now rewrite Hs.
Qed.

Lemma normalizer_idempotent_witness :
  transcript_json_to_text 1 (JDict turns_example)
  = Ok (joined ["Ann: hello"; "Speaker 2: hi"; "who"]) /\
  PyStr.strip (joined ["Ann: hello"; "Speaker 2: hi"; "who"])
  = joined ["Ann: hello"; "Speaker 2: hi"; "who"] /\
  transcript_json_to_text 1 (JStr (joined ["Ann: hello"; "Speaker 2: hi"; "who"]))
  = Ok (joined ["Ann: hello"; "Speaker 2: hi"; "who"]) /\
  transcript_json_to_text 2 (JList [JDict turns_example])
  = Ok (joined ["Ann: hello"; "Speaker 2: hi"; "who"]).
Proof.
  split; [reflexivity|].
  apply (normalizer_idempotent 1 (JDict turns_example)). reflexivity.
Defined.

(** ** The normalizer: what it raises *)

Lemma may_raise_bind {A B} (P : exn -> Prop) (r : result A) (f : A -> result B) :
  may_raise P r -> (forall a, r = Ok a -> may_raise P (f a)) ->
  may_raise P (bind r f).
Proof. destruct r as [a|e]; cbn; auto. Qed.

Lemma may_raise_weaken {A} (P Q : exn -> Prop) (r : result A) :
  (forall e, P e -> Q e) -> may_raise P r -> may_raise Q r.
Proof. destruct r; cbn; auto. Qed.

Lemma may_raise_mapM {A B} (P : exn -> Prop) (f : A -> result B) (l : list A) :
  Forall (fun x => may_raise P (f x)) l -> may_raise P (mapM f l).
Proof.
  induction 1 as [|x r Hx _ IH]; cbn; [exact I|].
  apply may_raise_bind; [exact Hx|]. intros y _.
  apply may_raise_bind; [exact IH|]. intros ys _. exact I.
Qed.

Lemma get_shape (v : json) (k : string) : may_raise shape_error (get v k).
Proof. destruct v; cbn; trivial; reflexivity. Qed.

Lemma get_default_shape (v : json) (k : string) (d : json) :
  may_raise shape_error (get_default v k d).
Proof. destruct v; cbn; trivial; reflexivity. Qed.

Lemma strip_of_shape (v : json) : may_raise shape_error (strip_of v).
Proof. destruct v; cbn; trivial; reflexivity. Qed.

Lemma iter_shape (v : json) : may_raise shape_error (iter v).
Proof. destruct v; cbn; trivial; reflexivity. Qed.

Lemma iter_or_empty_shape (v : json) : may_raise shape_error (iter_or_empty v).
Proof. unfold iter_or_empty. destruct (truthy v); [apply iter_shape | exact I]. Qed.

Create HintDb raises.
#[local] Hint Resolve get_shape get_default_shape strip_of_shape iter_shape
  iter_or_empty_shape : raises.

Ltac raises :=
  repeat match goal with
    | |- may_raise _ (bind _ _) => apply may_raise_bind; [|intros ? _]
    | |- may_raise _ (Ok _) => exact I
    | |- may_raise shape_error (Raise ShapeError) => reflexivity
    | |- may_raise _ (if ?c then _ else _) => destruct c
    | |- may_raise _ (match ?x with _ => _ end) => destruct x
    | |- _ => solve [auto with raises]
    end.

Lemma add_speaker_shape (tbl : speaker_table) (s : json) :
  may_raise shape_error (add_speaker tbl s).
Proof. unfold add_speaker. raises. Qed.

Lemma build_speakers_shape (l : list json) (tbl : speaker_table) :
  may_raise shape_error (build_speakers tbl l).
Proof.
  revert tbl. induction l as [|s r IH]; intros tbl; cbn; [exact I|].
  apply may_raise_bind; [apply add_speaker_shape|]. intros tbl' _. apply IH.
Qed.

Lemma turn_line_shape (tbl : speaker_table) (tr : json) :
  may_raise shape_error (turn_line tbl tr).
Proof. unfold turn_line, speaker_line. destruct tr; try exact I. raises. Qed.

Lemma turn_lines_shape (tbl : speaker_table) (turns : list json) :
  may_raise shape_error (turn_lines tbl turns).
Proof.
  induction turns as [|tr r IH]; cbn; [exact I|].
  apply may_raise_bind; [apply turn_line_shape|]. intros l _.
  apply may_raise_bind; [exact IH|]. intros ls _. exact I.
Qed.

Lemma transcript_lines_shape (kvs : list (string * json)) :
  may_raise shape_error (transcript_lines kvs).
Proof.
  unfold transcript_lines. destruct (dget kvs "transcript"); try exact I.
  apply may_raise_bind; [apply iter_or_empty_shape|]. intros sps _.
  apply may_raise_bind; [apply build_speakers_shape|]. intros tbl _.
  apply turn_lines_shape.
Qed.

Lemma segment_line_shape (it : json) : may_raise shape_error (segment_line it).
Proof. unfold segment_line. raises. Qed.

Lemma segment_lines_of_shape (l : list json) :
  may_raise shape_error (segment_lines_of l).
Proof.
  induction l as [|it r IH]; cbn; [exact I|].
  apply may_raise_bind; [apply segment_line_shape|]. intros x _.
  apply may_raise_bind; [exact IH|]. intros xs _. exact I.
Qed.

Lemma segment_lines_shape (kvs : list (string * json)) :
  may_raise shape_error (segment_lines kvs).
Proof.
  unfold segment_lines.
  apply may_raise_bind; [apply iter_or_empty_shape|]. intros ps _.
  apply may_raise_bind; [apply segment_lines_of_shape|]. intros l1 _.
  apply may_raise_bind; [apply iter_or_empty_shape|]. intros ss _.
  apply may_raise_bind; [apply segment_lines_of_shape|]. intros l2 _. exact I.
Qed.

Lemma results_text_shape (rec : json -> result string) (f : nat)
    (kvs : list (string * json)) :
  (forall x, (depth x < f)%nat -> may_raise shape_error (rec x)) ->
  (forall k v, In (k, v) kvs -> (depth v <= f)%nat) ->
  may_raise shape_error (results_text rec kvs).
Proof.
  intros Hrec. induction kvs as [|[k v] r IH]; intros Hd; [exact I|].
  cbn [results_text].
  destruct (String.eqb k "results");
    [|apply IH; intros k' v' H'; apply (Hd k' v'); now right].
  destruct v as [| | | |xs|]; try exact I.
  apply may_raise_bind.
  - apply may_raise_mapM, Forall_forall. intros x Hx. apply Hrec.
    pose proof (depth_element xs x Hx).
    pose proof (Hd k (JList xs) (or_introl eq_refl)). lia.
  - intros parts _. now destruct (negb (is_nil (filter nonempty parts))).
Qed.

(** With room for the nesting of the payload, only the type of a value
    makes the normalizer raise. *)
Lemma normalizer_shape (frames : nat) (t : json) :
  (depth t < frames)%nat ->
  may_raise shape_error (transcript_json_to_text frames t).
Proof.
  revert t. induction frames as [|f IH]; intros t Hd; [lia|].
  destruct t as [|b|n|s|l|kvs]; try exact I.
  - now destruct b.
  - cbn. now destruct (negb (negb (Z.eqb n 0))).
  - rewrite normalizer_str. exact I.
  - destruct l as [|x r]; [exact I|].
    rewrite normalizer_list.
    apply may_raise_bind; [|intros parts _; exact I].
    apply may_raise_mapM, Forall_forall. intros y Hy. apply IH.
    pose proof (depth_element _ y Hy). lia.
  - destruct kvs as [|kv r]; [exact I|].
    rewrite normalizer_dict.
    destruct (first_text (kv :: r) flat_keys); [exact I|].
    apply may_raise_bind; [apply transcript_lines_shape|]. intros lines _.
    destruct (negb (is_nil lines)); [exact I|].
    apply may_raise_bind; [apply segment_lines_shape|]. intros lines2 _.
    destruct (negb (is_nil lines2)); [exact I|].
    apply (results_text_shape _ f); [exact IH|].
    intros k v Hin. pose proof (depth_value _ k v Hin). lia.
Qed.

Lemma results_text_limit (rec : json -> result string) (kvs : list (string * json)) :
  (forall x, transcript_schema x = true ->
             may_raise (fun e => e = RecursionError) (rec x)) ->
  results_schema transcript_schema kvs = true ->
  may_raise (fun e => e = RecursionError) (results_text rec kvs).
Proof.
  intros Hrec. induction kvs as [|[k v] r IH]; intros Hres; [exact I|].
  cbn [results_text results_schema] in *.
  destruct (String.eqb k "results"); [|now apply IH].
  destruct v as [| | | |xs|]; try exact I.
  apply may_raise_bind.
  - apply may_raise_mapM, Forall_forall. intros x Hx. apply Hrec.
    rewrite forallb_forall in Hres. now apply Hres.
  - intros parts _. now destruct (negb (is_nil (filter nonempty parts))).
Qed.

(** On a payload of the transcript schema, only the recursion limit makes
    the normalizer raise. *)
Lemma normalizer_limit (frames : nat) (t : json) :
  transcript_schema t = true ->
  may_raise (fun e => e = RecursionError) (transcript_json_to_text frames t).
Proof.
  revert t. induction frames as [|f IH]; intros t Hs; [reflexivity|].
  destruct t as [|b|n|s|l|kvs]; try exact I.
  - now destruct b.
  - cbn. now destruct (negb (negb (Z.eqb n 0))).
  - rewrite normalizer_str. exact I.
  - destruct l as [|x r]; [exact I|].
    rewrite normalizer_list.
    apply may_raise_bind; [|intros parts _; exact I].
    apply may_raise_mapM, Forall_forall. intros y Hy. apply IH.
    cbn [transcript_schema] in Hs. rewrite forallb_forall in Hs. now apply Hs.
  - destruct kvs as [|kv r]; [exact I|].
    rewrite normalizer_dict. rewrite schema_dict in Hs.
    apply andb_true_iff in Hs as [Hs Hres]. apply andb_true_iff in Hs as [Hs Hseg].
    apply andb_true_iff in Hs as [Htr Hpar].
    destruct (first_text (kv :: r) flat_keys); [exact I|].
    destruct (transcript_lines_ok _ Htr) as (lines & ->). cbn [bind].
    destruct (negb (is_nil lines)); [exact I|].
    destruct (segment_lines_ok _ Hpar Hseg) as (lines2 & ->). cbn [bind].
    destruct (negb (is_nil lines2)); [exact I|].
    now apply results_text_limit.
Qed.

Lemma results_text_raises (P : exn -> Prop) (rec : json -> result string)
    (kvs : list (string * json)) :
  (forall x, may_raise P (rec x)) -> may_raise P (results_text rec kvs).
Proof.
  intros Hrec. induction kvs as [|[k v] r IH]; [exact I|].
  cbn [results_text]. destruct (String.eqb k "results"); [|exact IH].
  destruct v as [| | | |xs|]; try exact I.
  apply may_raise_bind.
  - apply may_raise_mapM, Forall_forall. intros x _. apply Hrec.
  - intros parts _. now destruct (negb (is_nil (filter nonempty parts))).
Qed.

(** The normalizer raises nothing but these two. *)
Lemma normalizer_two_errors (frames : nat) (t : json) :
  may_raise (fun e => e = ShapeError \/ e = RecursionError)
    (transcript_json_to_text frames t).
Proof.
  revert t. induction frames as [|f IH]; intros t; [now right|].
  assert (Hw : forall A (r : result A),
             may_raise shape_error r ->
             may_raise (fun e => e = ShapeError \/ e = RecursionError) r).
  { intros A r. apply may_raise_weaken. intros e He. now left. }
  destruct t as [|b|n|s|l|kvs]; try exact I.
  - now destruct b.
  - cbn. now destruct (negb (negb (Z.eqb n 0))).
  - rewrite normalizer_str. exact I.
  - destruct l as [|x r]; [exact I|].
    rewrite normalizer_list.
    apply may_raise_bind; [|intros parts _; exact I].
    apply may_raise_mapM, Forall_forall. intros y _. apply IH.
  - destruct kvs as [|kv r]; [exact I|].
    rewrite normalizer_dict.
    destruct (first_text (kv :: r) flat_keys); [exact I|].
    apply may_raise_bind; [apply Hw, transcript_lines_shape|]. intros lines _.
    destruct (negb (is_nil lines)); [exact I|].
    apply may_raise_bind; [apply Hw, segment_lines_shape|]. intros lines2 _.
    destruct (negb (is_nil lines2)); [exact I|].
    apply results_text_raises. exact IH.
Qed.

(** X8.  When [transcript_json_to_text] (lines 177-223) raises, either it
    raises an [AttributeError] or a [TypeError] on a value of the wrong
    type, and the payload is outside the transcript schema: a turn object,
    a speaker entry, or an entry of [paragraphs] or [segments] has the
    wrong type somewhere in it; or it raises [RecursionError], and the
    payload is nested as deep as the interpreter has room for, or deeper.
    On a payload of the schema that the interpreter has room for it never
    raises. *)
Theorem normalizer_raises_only_off_schema (frames : nat) (t : json) (e : exn) :
  transcript_json_to_text frames t = Raise e ->
  (e = ShapeError /\ transcript_schema t = false) \/
  (e = RecursionError /\ (frames <= depth t)%nat).
Proof.
  intros H.
  destruct (Nat.le_gt_cases frames (depth t)) as [Hle|Hlt].
  - pose proof (normalizer_two_errors frames t) as He. rewrite H in He.
    destruct He as [->| ->]; [left | now right].
    split; [reflexivity|].
    destruct (transcript_schema t) eqn:Es; [|reflexivity].
    pose proof (normalizer_limit frames t Es) as Hl. rewrite H in Hl.
    discriminate Hl.
  - left. pose proof (normalizer_shape frames t Hlt) as Hs. rewrite H in Hs.
    split; [exact Hs|].
    destruct (transcript_schema t) eqn:Es; [|reflexivity].
    destruct (normalizer_returns_on_schema frames t Es Hlt) as (p & Hp).
    congruence.
Qed.

Lemma normalizer_raises_only_off_schema_witness :
  transcript_json_to_text 1 (JDict [("segments", JList [JNum 3])]) = Raise ShapeError /\
  transcript_schema (JDict [("segments", JList [JNum 3])]) = false /\
  transcript_json_to_text 2 (nest 2 (JStr "x")) = Raise RecursionError /\
  (2 <= depth (nest 2 (JStr "x")))%nat.
Proof.
  split; [reflexivity|]. split; [reflexivity|].
  destruct (normalizer_raises_only_off_schema 2 (nest 2 (JStr "x")) RecursionError
              eq_refl) as [[H _]|[_ H]]; [discriminate H|].
  split; [reflexivity | exact H].
Defined.

Lemma first_text_split (kvs : list (string * json)) (pre : list string) (k : string)
    (post : list string) (s : string) :
  (forall k', In k' pre -> flat_blank (dget kvs k') = true) ->
  dget kvs k = JStr s -> nonempty (PyStr.strip s) = true ->
  first_text kvs (pre ++ k :: post) = Some (PyStr.strip s).
Proof.
  intros Hpre Hk Hs. induction pre as [|k0 r IH]; cbn.
  - now rewrite Hk, Hs.
  - pose proof (Hpre k0 (or_introl eq_refl)) as Hb.
    assert (Hr : first_text kvs (r ++ k :: post) = Some (PyStr.strip s)).
    { apply IH. intros k' Hk'. apply Hpre. now right. }
    destruct (dget kvs k0) as [| | |v| |]; try exact Hr.
    cbn in Hb. destruct (nonempty (PyStr.strip v)); [discriminate Hb | exact Hr].
Qed.

(** X9.  The flat keys of lines 181-184 are read in the order [content],
    [text], [transcript], [body]: the first of them that holds a string
    with something besides white space gives the result, trimmed.  Nothing
    else of the payload is read, so the result does not depend on its
    turn list, paragraphs, segments or results, and an entry of the wrong
    type in one of those raises nothing. *)
Theorem normalizer_first_flat_text_wins (frames : nat) (kvs : list (string * json))
    (pre : list string) (k : string) (post : list string) (s : string) :
  flat_keys = (pre ++ k :: post)%list ->
  (forall k', In k' pre -> flat_blank (dget kvs k') = true) ->
  dget kvs k = JStr s -> nonempty (PyStr.strip s) = true ->
  transcript_json_to_text (S frames) (JDict kvs) = Ok (PyStr.strip s).
Proof.
  intros Hkeys Hpre Hk Hs.
  destruct kvs as [|kv r]; [discriminate Hk|].
  rewrite normalizer_dict, Hkeys.
  now rewrite (first_text_split (kv :: r) pre k post s Hpre Hk Hs).
Qed.

Lemma normalizer_first_flat_text_wins_witness :
  flat_keys = (["content"] ++ "text" :: ["transcript"; "body"])%list /\
  (forall k', In k' ["content"] -> flat_blank (dget flat_and_paragraphs k') = true) /\
  dget flat_and_paragraphs "text" = JStr " hi " /\
  nonempty (PyStr.strip " hi ") = true /\
  transcript_json_to_text 1 (JDict flat_and_paragraphs) = Ok (PyStr.strip " hi ").
Proof.
  assert (H : forall k', In k' ["content"] ->
                         flat_blank (dget flat_and_paragraphs k') = true).
  { intros k' [<-|[]]. reflexivity. }
  split; [reflexivity|]. split; [exact H|].
  split; [reflexivity|]. split; [reflexivity|].
  exact (normalizer_first_flat_text_wins 0 flat_and_paragraphs ["content"] "text"
           ["transcript"; "body"] " hi " eq_refl H eq_refl eq_refl).
Defined.

(** ** The retry layer with any [retries] *)

(** X10.  [http_request] (lines 41-55) with any [retries] and any first
    delay.  When [time.sleep] takes the first delay, no exception escapes
    the call.  It makes at least one request and at most [max(1, retries)],
    so one request even when [retries] is zero or negative.  It returns
    [None] exactly when each of the [max(1, retries)] requests failed or
    was answered with a retry status; otherwise it returns the answer to
    its last request, whose status is not a retry status, and every request
    before that one failed or got a retry status.  When [time.sleep] raises
    on the first delay, a first request that is answered with a status
    outside the retry set is returned as before; after a first request that
    fails or gets a retry status, what [time.sleep] raises escapes the call
    from the handler (line 53). *)
Theorem http_request_attempts (net : nat -> request -> outcome) (req : request)
    (retries : Z) (backoff_start : Q) (st : state) :
  let most := Z.to_nat (Z.max 1 retries) in
  (sleep_error backoff_start = None ->
   exists res st' evs n,
     http_request net req retries backoff_start st = Returns res st' /\
     added st st' evs /\
     requests_of evs = repeat req n /\
     calls st' = (calls st + n)%nat /\
     (1 <= n <= most)%nat /\
     (forall i, (S i < n)%nat -> retryable (net (calls st + i)%nat req) = true) /\
     (res = None <->
      forall i, (i < most)%nat -> retryable (net (calls st + i)%nat req) = true) /\
     (forall r, res = Some r ->
                net (calls st + n - 1)%nat req = Answer r /\
                retry_status (status_code r) = false)) /\
  (forall e, sleep_error backoff_start = Some e ->
     http_request net req retries backoff_start st
     = match net (calls st) req with
       | Answer r =>
           if retry_status (status_code r) then Raises e
           else Returns (Some r)
                  {| calls := S (calls st); trace := Request req :: trace st |}
       | Failure => Raises e
       end).
Proof.
  intros most. split.
  - intros Hsleep. unfold http_request. fold most.
    assert (Hmost : (1 <= most)%nat) by (unfold most; lia).
    destruct (attempts_spec net most req backoff_start st Hsleep)
      as (k & res & st' & evs & Hrun & Hretry & Hres & Hadd & Htl & _).
    assert (Hreq : requests_of evs = repeat req (k + if is_some res then 1 else 0)).
    { rewrite <- requests_of_timeline, Htl. apply requests_of_retry_timeline. }
    destruct res as [r|]; cbn [is_some] in Hreq.
    + destruct Hres as (Hk & Hnet & Hst & Hcalls).
      exists (Some r), st', evs, (k + 1)%nat.
      split; [exact Hrun|]. split; [exact Hadd|]. split; [exact Hreq|].
      split; [lia|]. split; [lia|].
      split; [intros i Hi; apply Hretry; lia|]. split.
      * split; [discriminate|]. intros Hall.
        specialize (Hall k Hk). rewrite Hnet in Hall. cbn in Hall. congruence.
      * intros r' E. injection E as <-.
        replace (calls st + (k + 1) - 1)%nat with (calls st + k)%nat by lia.
        now split.
    + destruct Hres as [-> Hcalls].
      exists None, st', evs, most.
      split; [exact Hrun|]. split; [exact Hadd|].
      split; [now rewrite Nat.add_0_r in Hreq|].
      split; [exact Hcalls|]. split; [lia|].
      split; [intros i Hi; apply Hretry; lia|]. split.
      * split; [intros _; exact Hretry | reflexivity].
      * discriminate.
  - intros e Hsleep. unfold http_request. fold most.
    assert (Hmost : exists m, most = S m) by (exists (pred most); unfold most; lia).
    destruct Hmost as (m & ->). cbn [attempts]. cbv zeta.
    unfold bindM at 1, requests_request at 1.
    destruct (net (calls st) req) as [r|].
    + destruct (retry_status (status_code r)); [|reflexivity].
      rewrite Hsleep. unfold bindM, emit. now rewrite (time_sleep_raises _ _ _ Hsleep).
    + unfold bindM, emit. now rewrite (time_sleep_raises _ _ _ Hsleep).
Qed.

Lemma http_request_attempts_witness :
  (exists res st', http_request flaky_net (Hs_list "7") 0 (7 # 10) state0
                   = Returns res st' /\ res = None /\ calls st' = 1%nat) /\
  http_request flaky_net (Hs_list "7") 5 (-1 # 1) state0 = Raises ValueError.
Proof.
  split.
  - destruct (proj1 (http_request_attempts flaky_net (Hs_list "7") 0 (7 # 10) state0)
                eq_refl) as (res & st' & evs & n & Hrun & _).
    exists res, st'. split; [exact Hrun|].
    vm_compute in Hrun. injection Hrun as <- <-. split; reflexivity.
  - exact (proj2 (http_request_attempts flaky_net (Hs_list "7") 5 (-1 # 1) state0)
             ValueError eq_refl).
Defined.

Lemma sleeps_timeline (evs : list event) : sleeps (timeline evs) = sleeps evs.
Proof.
  induction evs as [|e r IH]; [reflexivity|].
  destruct e; cbn; try exact IH.
  fold (timeline r). fold (sleeps (timeline r)). fold (sleeps r). now rewrite IH.
Qed.

Lemma sleeps_retry_timeline (req : request) (b : Q) (k : nat) (last : bool) :
  sleeps (retry_timeline req b k last) = map (backoff b) (seq 0 k).
Proof.
  unfold retry_timeline, sleeps. rewrite flat_map_app.
  replace (flat_map (fun e => match e with Sleep d => [d] | _ => [] end)
             (if last then [Request req] else []))
    with (@nil Q) by now destruct last.
  rewrite app_nil_r. generalize 0%nat.
  induction k as [|k IH]; intros a; [reflexivity|].
  cbn. now rewrite IH.
Qed.

(** X11.  The time one call of [http_request] with the default [retries]
    and [backoff_start] spends asleep (lines 47-48 and 53-54): every delay
    lies between the first delay, 0.7 seconds, and 12 seconds; the delays
    of a call add up to at most 31 times the first delay, 21.7 seconds,
    and to exactly that when the call gives up and returns [None]. *)
Theorem http_sleeps_bounded (net : nat -> request -> outcome) (req : request)
    (st st' : state) (res : option response) (evs : list event) :
  http net req st = Returns res st' -> added st st' evs ->
  Forall (fun d => (default_backoff_start <= d)%Q /\ (d <= 12)%Q) (sleeps evs) /\
  (Qsum (sleeps evs) <= 31 * default_backoff_start)%Q /\
  (res = None -> (Qsum (sleeps evs) == 31 * default_backoff_start)%Q).
Proof.
  intros H Hadd.
  destruct (http_call net req st)
    as (res' & s & evs' & n & Hh & Ha & _ & Hn & _ & Htl & _).
  rewrite H in Hh. injection Hh as <- <-.
  rewrite (added_unique _ _ _ _ Hadd Ha).
  rewrite <- sleeps_timeline, Htl, sleeps_retry_timeline.
  destruct res as [r|]; cbn [is_some].
  - split; [|split; [|discriminate]].
    + do 5 (destruct n as [|n]; [repeat constructor; vm_compute; discriminate|]). lia.
    + do 5 (destruct n as [|n]; [vm_compute; discriminate|]). lia.
  - split; [|split].
    + repeat constructor; vm_compute; discriminate.
    + vm_compute; discriminate.
    + intros _. reflexivity.
Qed.

Lemma http_sleeps_bounded_witness :
  exists st',
    http down_net (Hs_list "7") state0 = Returns None st' /\
    Forall (fun d => (default_backoff_start <= d)%Q /\ (d <= 12)%Q) (sleeps (rev (trace st'))) /\
    (Qsum (sleeps (rev (trace st'))) <= 31 * default_backoff_start)%Q /\
    (@None response = None -> (Qsum (sleeps (rev (trace st'))) == 31 * default_backoff_start)%Q).
Proof.
  eexists. split; [vm_compute; reflexivity|].
  eapply (http_sleeps_bounded down_net (Hs_list "7") state0).
  - vm_compute. reflexivity.
  - vm_compute. reflexivity.
Defined.

(** ** The cost of a meeting fetch *)

Lemma av_pages_calls (net : nat -> request -> outcome) (n : nat) (first : request)
    (nxt : json) (delay : Q) (items items' : list json) (st st' : state) :
  av_pages net n first nxt delay items st = Returns items' st' ->
  (calls st <= calls st' <= calls st + 5 * n)%nat /\
  (n <> 0%nat -> calls st < calls st')%nat.
Proof.
  revert nxt items st. induction n as [|n IH]; intros nxt items st H.
  - inv_ret H. lia.
  - cbn [av_pages] in H. inv_bind H.
    apply http_returns_bound in Hrun as (evs1 & k & _ & _ & Hk & Hc & _).
    destruct (truthy_response a) as [r|]; [|inv_ret H; lia].
    destruct ((status_code r =? 400) || (status_code r =? 404))%Z; [inv_ret H; lia|].
    inv_bind H. inv_lift Hrun. inv_bind H. inv_lift Hrun.
    inv_bind H. inv_lift Hrun. inv_bind H. inv_lift Hrun.
    destruct (por (por a2 a3) (JList [])) as [| | | |chunk|];
      try (inv_ret H; lia).
    inv_bind H. inv_lift Hrun.
    destruct (negb (truthy a4)); [inv_ret H; lia|].
    inv_bind H. apply sleep_returns in Hrun as [_ Hc2].
    apply IH in H as [H _]. lia.
Qed.

(** X12.  The requests of one meeting fetch (lines 130-159): at least one,
    and at most five for each of at most [max(1, pages)] pages of each of
    the two parameter styles, so at most [10 * max(1, pages)] in all, also
    when [pages] is zero or negative. *)
Theorem meeting_fetch_request_bound (net : nat -> request -> outcome)
    (organizer_email frm to : string) (limit pages : Z) (delay : Q)
    (st st' : state) (items : list json) :
  av_list_meetings_by_organizer net organizer_email frm to limit pages delay st
  = Returns items st' ->
  (calls st + 1 <= calls st')%nat /\
  (calls st' <= calls st + 10 * Z.to_nat (Z.max 1 pages))%nat.
Proof.
  intros H. unfold av_list_meetings_by_organizer in H.
  assert (Hn : Z.to_nat (Z.max 1 pages) <> 0%nat) by lia.
  inv_bind H. cbn [av_styles] in Hrun.
  inv_bind Hrun. apply av_pages_calls in Hrun0 as [Hc1 Hlt1].
  specialize (Hlt1 Hn).
  inv_bind H. apply emit_returns in Hrun0 as [_ Hce]. inv_ret H.
  destruct (negb (is_nil a0)).
  - inv_ret Hrun. lia.
  - inv_bind Hrun. apply av_pages_calls in Hrun0 as [Hc2 _].
    match type of Hrun with
    | (if ?c then _ else _) _ = _ => destruct c
    end; inv_ret Hrun; lia.
Qed.

Lemma meeting_fetch_request_bound_witness :
  exists st',
    av_list_meetings_by_organizer second_style_only "owner@x.com" "2023-06-01"
      "2024-06-01" 100 0 (1 # 2) state0 = Returns [meeting_day3] st' /\
    (calls state0 + 1 <= calls st')%nat /\
    (calls st' <= calls state0 + 10 * Z.to_nat (Z.max 1 0))%nat.
Proof.
  eexists. split; [vm_compute; reflexivity|].
  eapply (meeting_fetch_request_bound second_style_only "owner@x.com" "2023-06-01"
            "2024-06-01" 100 0 (1 # 2) state0).
  vm_compute. reflexivity.
Defined.

(** ** What the pure steps of a run raise *)

Lemma collect_record_ids_shape (repr : json -> string) (its : list json)
    (ids : list string) :
  may_raise shape_error (collect_record_ids repr ids its).
Proof.
  revert ids. induction its as [|it r IH]; intros ids; cbn; [exact I|].
  apply may_raise_bind; [apply get_shape|]. intros rid _. apply IH.
Qed.

Lemma after_of_shape (data : json) : may_raise shape_error (after_of data).
Proof. unfold after_of. raises. Qed.

Lemma props_of_shape (c : json) : may_raise shape_error (props_of c).
Proof. unfold props_of. raises. Qed.

#[local] Hint Resolve props_of_shape : raises.

Lemma owner_ids_of_shape (contacts : list json) :
  may_raise shape_error (owner_ids_of contacts).
Proof.
  induction contacts as [|c r IH]; cbn; [exact I|].
  apply may_raise_bind; [apply props_of_shape|]. intros props _.
  apply may_raise_bind; [apply get_shape|]. intros o _.
  destruct (truthy o); [|exact IH].
  destruct o; try reflexivity.
  apply may_raise_bind; [exact IH|]. intros rest _. exact I.
Qed.

Lemma correlate_shape (mapping : sdict) (contacts : list json) (acc : sdict) :
  may_raise shape_error (correlate mapping contacts acc).
Proof.
  revert acc. induction contacts as [|c r IH]; intros acc; cbn; [exact I|].
  apply may_raise_bind; [apply props_of_shape|]. intros props _.
  apply may_raise_bind; [apply get_shape|]. intros e _.
  apply may_raise_bind; [apply strip_of_shape|]. intros e' _.
  apply may_raise_bind; [apply get_shape|]. intros o _.
  apply may_raise_bind; [apply strip_of_shape|]. intros oid _.
  destruct (negb (nonempty (PyStr.lower e'))); [apply IH|].
  destruct (sdict_get mapping oid) as [oe|]; [|apply IH].
  destruct (nonempty oe); apply IH.
Qed.

Lemma attendee_emails_of_shape (l : list json) :
  may_raise shape_error (attendee_emails_of l).
Proof.
  induction l as [|a r IH]; cbn; [exact I|].
  apply may_raise_bind; [apply get_shape|]. intros e _.
  apply may_raise_bind; [apply strip_of_shape|]. intros e' _.
  apply may_raise_bind; [exact IH|]. intros rest _. exact I.
Qed.

Lemma attendees_emails_shape (m : json) : may_raise shape_error (attendees_emails m).
Proof.
  unfold attendees_emails.
  apply may_raise_bind; [apply get_shape|]. intros a _.
  apply may_raise_bind; [apply iter_or_empty_shape|]. intros l _.
  apply may_raise_bind; [apply attendee_emails_of_shape|]. intros out _. exact I.
Qed.

Lemma looks_like_call_shape (m : json) : may_raise shape_error (looks_like_call m).
Proof. unfold looks_like_call. raises. Qed.

Lemma start_field_shape (m : json) : may_raise shape_error (start_field m).
Proof. unfold start_field. raises. Qed.

#[local] Hint Resolve attendees_emails_shape looks_like_call_shape
  start_field_shape : raises.

Lemma keeps_shape (fromisoformat : string -> option datetime)
    (organizer_email customer_email : string) (cutoff : datetime) (m : json) :
  may_raise shape_error (keeps fromisoformat organizer_email customer_email cutoff m).
Proof. unfold keeps. raises. Qed.

Lemma filter_meetings_shape (fromisoformat : string -> option datetime)
    (organizer_email customer_email : string) (cutoff : datetime)
    (all_items : list json) :
  may_raise shape_error
    (filter_meetings fromisoformat organizer_email customer_email cutoff all_items).
Proof.
  induction all_items as [|m r IH]; cbn; [exact I|].
  apply may_raise_bind; [apply keeps_shape|]. intros k _.
  apply may_raise_bind; [exact IH|]. intros rest _. exact I.
Qed.

Lemma meeting_id_of_shape (m : json) : may_raise shape_error (meeting_id_of m).
Proof. unfold meeting_id_of. raises. Qed.

Lemma make_payload_shape (customer_email organizer_email : string)
    (meeting_id m : json) (plain : string) :
  may_raise shape_error (make_payload customer_email organizer_email meeting_id m plain).
Proof. unfold make_payload. raises. Qed.

Lemma json_of_payload (r : response) : may_raise payload_error (json_of r).
Proof. unfold json_of. destruct (body r); [exact I | now right]. Qed.

Lemma shape_payload {A} (r : result A) :
  may_raise shape_error r -> may_raise payload_error r.
Proof. apply may_raise_weaken. intros e He. now left. Qed.

(** ** What the steps of a run let escape *)

Lemma may_escape_bindM {A B} (P : exn -> Prop) (m : M A) (f : A -> M B) (st : state) :
  may_escape P (m st) ->
  (forall a s, m st = Returns a s -> may_escape P (f a s)) ->
  may_escape P (bindM m f st).
Proof. unfold bindM. destruct (m st) as [a s|e|]; cbn; auto. Qed.

Lemma may_escape_lift {A} (P : exn -> Prop) (r : result A) (st : state) :
  may_raise P r -> may_escape P (lift r st).
Proof. destruct r; cbn; auto. Qed.

Lemma may_escape_http (P : exn -> Prop) (net : nat -> request -> outcome)
    (req : request) (st : state) :
  may_escape P (http net req st).
Proof.
  destruct (http_call net req st) as (res & s & evs & n & -> & _). exact I.
Qed.

Lemma raise_for_status_truthy (P : exn -> Prop) (res : option response) (r : response) :
  truthy_response res = Some r -> may_raise P (raise_for_status r).
Proof.
  intros H. apply truthy_response_some in H as [_ Hok].
  now rewrite (raise_for_status_ok r Hok).
Qed.

(** ** The transcript fetch *)




Lemma exchanges_app (net : nat -> request -> outcome) (n : nat) (l1 l2 : list request) :
  exchanges net n (l1 ++ l2)
  = (exchanges net n l1 ++ exchanges net (n + List.length l1) l2)%list.
Proof.
  revert n. induction l1 as [|r l IH]; intros n; cbn.
  - now rewrite Nat.add_0_r.
  - rewrite IH. now replace (S n + List.length l)%nat with (n + S (List.length l))%nat by lia.
Qed.

Lemma exchanges_repeat_snoc (net : nat -> request -> outcome) (c : nat) (req : request)
    (n : nat) :
  exchanges net c (repeat req (S n))
  = (exchanges net c (repeat req n) ++ [(req, net (c + n)%nat req)])%list.
Proof.
  replace (repeat req (S n)) with (repeat req n ++ [req])%list
    by (change [req] with (repeat req 1); rewrite <- repeat_app; f_equal; lia).
  now rewrite exchanges_app, repeat_length.
Qed.






Lemma json_of_decode (r : response) :
  may_raise (fun e => e = JSONDecodeError) (json_of r).
Proof. unfold json_of. now destruct (body r). Qed.

Lemma av_fetch_transcript_json_escapes (net : nat -> request -> outcome)
    (meeting_id uuid : json) (st : state) :
  may_escape (fun e => e = JSONDecodeError)
    (av_fetch_transcript_json net meeting_id uuid st).
Proof.
  unfold av_fetch_transcript_json.
  apply may_escape_bindM; [apply may_escape_http|]. intros r s1 _.
  destruct (is_200 r) as [x|]; [apply may_escape_lift, json_of_decode|].
  apply may_escape_bindM.
  { destruct (truthy uuid); [|exact I].
    apply may_escape_bindM; [apply may_escape_http|]. intros r2 s2 _.
    destruct (is_200 r2) as [x|]; [|exact I].
    apply may_escape_bindM; [apply may_escape_lift, json_of_decode|].
    intros j s3 _. exact I. }
  intros second s2 _. destruct second as [j|]; [exact I|].
  apply may_escape_bindM; [apply may_escape_http|]. intros r3 s3 _.
  destruct (is_200 r3) as [x|]; [|exact I].
  apply may_escape_bindM; [apply may_escape_lift, json_of_decode|].
  intros data s4 _.
  destruct (match data with
            | JDict kvs => dget_default kvs "results" data
            | _ => data
            end) as [| | | |[|first rest]|]; exact I.
Qed.



(** ** What escapes a run *)

Lemma may_escape_weaken {A} (P Q : exn -> Prop) (r : run A) :
  (forall e, P e -> Q e) -> may_escape P r -> may_escape Q r.
Proof. destruct r; cbn; auto. Qed.

Lemma payload_step {A} (delay : Q) (r : result A) :
  may_raise payload_error r -> may_raise (step_error delay) r.
Proof. apply may_raise_weaken. intros e He. now left. Qed.

Lemma may_escape_sleep (delay : Q) (st : state) :
  may_escape (step_error delay) (time_sleep delay st).
Proof.
  unfold time_sleep. destruct (sleep_error delay) as [e|] eqn:E; [|exact I].
  right. exact E.
Qed.

#[local] Hint Resolve shape_payload json_of_payload collect_record_ids_shape
  after_of_shape owner_ids_of_shape correlate_shape filter_meetings_shape
  meeting_id_of_shape make_payload_shape payload_step : raises.

Ltac escapes :=
  repeat match goal with
    | |- may_escape _ (bindM (http _ _) _ _) =>
        apply may_escape_bindM; [apply may_escape_http | intros ? ? _]
    | |- may_escape _ (bindM (emit _) _ _) =>
        apply may_escape_bindM; [exact I | intros ? ? _]
    | |- may_escape _ (bindM (time_sleep _) _ _) =>
        apply may_escape_bindM; [apply may_escape_sleep | intros ? ? _]
    | |- may_escape _ (bindM (lift _) _ _) =>
        apply may_escape_bindM;
        [apply may_escape_lift;
         first [eapply raise_for_status_truthy; eassumption | solve [auto with raises]]
        | intros ? ? _]
    | |- may_escape _ (ret _ _) => exact I
    | |- may_escape _ ((if ?c then _ else _) _) => destruct c
    | |- may_escape _ ((match ?x with _ => _ end) _) => destruct x eqn:?
    end.

(** An answer with status 200 that a call of [http_request] returns came
    from the network, and its status is below 400. *)
Lemma http_200_source (net : nat -> request -> outcome) (req : request)
    (st st' : state) (res : option response) (x : response) :
  http net req st = Returns res st' -> is_200 res = Some x ->
  exists n, net n req = Answer x /\ ok x = true.
Proof.
  intros H E. pose proof (is_200_truthy _ _ E) as Et.
  apply truthy_response_some in Et as [-> Hok].
  apply http_returns_bound in H as (evs & n & _ & _ & _ & _ & Hnet & _).
  now exists (calls st + n)%nat.
Qed.

(** A transcript that the fetch returns was read from an answer. *)
Lemma av_fetch_transcript_json_source (net : nat -> request -> outcome)
    (meeting_id uuid t : json) (st st' : state) :
  av_fetch_transcript_json net meeting_id uuid st = Returns t st' ->
  truthy t = true ->
  exists n req r,
    net n req = Answer r /\ ok r = true /\ transcript_of req (body r) = Some t.
Proof.
  unfold av_fetch_transcript_json. intros H Ht.
  inv_bind H. rename a into r1, Hrun into H1.
  destruct (is_200 r1) as [x1|] eqn:E1.
  { inv_lift H. destruct (http_200_source _ _ _ _ _ _ H1 E1) as (n & Hn & Hok).
    exists n, (Av_transcript meeting_id), x1. split; [exact Hn|]. split; [exact Hok|].
    unfold json_of in E. cbn. destruct (body x1); [|discriminate E].
    now injection E as ->. }
  inv_bind H. rename a into second, Hrun into H2.
  destruct second as [j|].
  { inv_ret H.
    destruct (truthy uuid);
      [|apply ret_returns in H2 as [H2 _]; discriminate H2].
    inv_bind H2. rename a into r2, Hrun into H2'.
    destruct (is_200 r2) as [x2|] eqn:E2;
      [|apply ret_returns in H2 as [H2 _]; discriminate H2].
    inv_bind H2. inv_lift Hrun. apply ret_returns in H2 as [H2 _].
    injection H2 as ->.
    destruct (http_200_source _ _ _ _ _ _ H2' E2) as (n & Hn & Hok).
    exists n, (Av_transcription uuid), x2. split; [exact Hn|]. split; [exact Hok|].
    unfold json_of in E. cbn. destruct (body x2); [|discriminate E].
    now injection E as ->. }
  inv_bind H. rename a into r3, Hrun into H3.
  destruct (is_200 r3) as [x3|] eqn:E3; [|inv_ret H; discriminate Ht].
  inv_bind H. inv_lift Hrun. rename a into data.
  destruct (http_200_source _ _ _ _ _ _ H3 E3) as (n & Hn & Hok).
  exists n, (Av_transcriptions meeting_id), x3. split; [exact Hn|]. split; [exact Hok|].
  unfold json_of in E. cbn. destruct (body x3); [|discriminate E].
  injection E as ->.
  destruct (match data with
            | JDict kvs => dget_default kvs "results" data
            | _ => data
            end) as [| | | |[|first rest]|];
    apply ret_returns in H as [-> _]; try discriminate Ht. reflexivity.
Qed.

Section Escapes.

Variable net : nat -> request -> outcome.
Variable fromisoformat : string -> option datetime.
Variable repr : json -> string.
Variable frames : nat.
Variable delay : Q.

Lemma membership_pages_escapes (fuel : nat) (list_id : string)
    (after : json) (ids : list string) (st : state) :
  may_escape (step_error delay)
    (membership_pages net repr fuel list_id delay after ids st).
Proof.
  revert after ids st. induction fuel as [|fuel IH]; intros after ids st; [exact I|].
  cbn [membership_pages]. escapes. apply IH.
Qed.

Lemma batch_read_chunks_escapes (chunks : list (list string))
    (out : list json) (st : state) :
  may_escape (step_error delay) (batch_read_chunks net chunks delay out st).
Proof.
  revert out st. induction chunks as [|c r IH]; intros out st; [exact I|].
  cbn [batch_read_chunks]. escapes. apply IH.
Qed.

Lemma hs_batch_read_contacts_escapes (ids : list string) (st : state) :
  may_escape (step_error delay) (hs_batch_read_contacts net ids delay st).
Proof.
  unfold hs_batch_read_contacts. destruct (is_nil ids); [exact I|].
  apply may_escape_bindM; [apply batch_read_chunks_escapes|]. intros out s _.
  escapes.
Qed.

Lemma hs_owner_email_map_escapes (owner_ids : list string) (st : state) :
  may_escape (step_error delay) (hs_owner_email_map net repr owner_ids delay st).
Proof.
  unfold hs_owner_email_map. cbv zeta. apply may_escape_bindM.
  - pose proof (owner_lookups_escapes net repr
                  (sorted_set (filter nonempty owner_ids)) delay [] st) as H.
    destruct (owner_lookups net repr _ delay [] st); [exact I | now right | exact I].
  - intros mapping s _. escapes.
Qed.

Lemma av_pages_escapes (n : nat) (first : request) (nxt : json)
    (items : list json) (st : state) :
  may_escape (step_error delay) (av_pages net n first nxt delay items st).
Proof.
  revert nxt items st. induction n as [|n IH]; intros nxt items st; [exact I|].
  cbn [av_pages]. escapes. apply IH.
Qed.

Lemma av_list_meetings_escapes (organizer_email frm to : string) (limit pages : Z)
    (st : state) :
  may_escape (step_error delay)
    (av_list_meetings_by_organizer net organizer_email frm to limit pages delay st).
Proof.
  unfold av_list_meetings_by_organizer. cbn [av_styles].
  apply may_escape_bindM.
  { apply may_escape_bindM; [apply av_pages_escapes|]. intros items s _.
    destruct (negb (is_nil items)); [exact I|].
    apply may_escape_bindM; [apply av_pages_escapes|]. intros items' s' _.
    destruct (negb (is_nil items')); exact I. }
  intros r s _. escapes.
Qed.

Lemma deliver_escapes (P : exn -> Prop) (url : string) (meeting_id : json)
    (body0 : payload) (results : summary) (st : state) :
  may_escape P (deliver net url meeting_id body0 results st).
Proof.
  destruct (deliver_total net url meeting_id body0 results st) as (r & s & ->).
  exact I.
Qed.

Lemma process_customer_escapes (url organizer_email : string) (cutoff : datetime)
    (all_items : list json) (customer_email : string)
    (results : summary) (st : state) :
  may_escape (leaf_error net frames delay)
    (process_customer net fromisoformat frames url organizer_email cutoff delay
       all_items customer_email results st).
Proof.
  assert (Hw : forall A (r : result A) s,
             may_raise shape_error r ->
             may_escape (leaf_error net frames delay) (lift r s)).
  { intros A r s Hr. apply may_escape_lift.
    revert Hr. apply may_raise_weaken. intros e He. left. left. now left. }
  unfold process_customer.
  apply may_escape_bindM; [apply Hw, filter_meetings_shape|].
  intros filtered s _.
  destruct (select_meeting fromisoformat filtered) as [m|]; [|exact I].
  apply may_escape_bindM; [apply Hw, meeting_id_of_shape|].
  intros meeting_id s1 _.
  destruct (negb (truthy meeting_id)); [exact I|].
  apply may_escape_bindM; [apply Hw, get_shape|].
  intros uuid s2 _.
  apply may_escape_bindM.
  { apply (may_escape_weaken (fun e => e = JSONDecodeError));
      [intros e ->; left; left; now right|].
    apply av_fetch_transcript_json_escapes. }
  intros t s3 Hfetch.
  destruct (truthy t) eqn:Et; cbn [negb]; [|exact I].
  apply may_escape_bindM.
  { apply may_escape_lift.
    destruct (transcript_json_to_text frames t) as [p|e] eqn:En; [exact I|].
    cbn. destruct (Nat.le_gt_cases frames (depth t)) as [Hle|Hlt].
    - pose proof (normalizer_two_errors frames t) as He. rewrite En in He.
      destruct He as [->| ->]; [left; left; now left|].
      right. split; [reflexivity|]. intros Hfit.
      destruct (av_fetch_transcript_json_source _ _ _ _ _ _ Hfetch Et)
        as (n & req & r & Hn & Hok & Hb).
      specialize (Hfit n req r t Hn Hok Hb). lia.
    - pose proof (normalizer_shape frames t Hlt) as He. rewrite En in He.
      left. left. now left. }
  intros plain s4 _.
  destruct (negb (nonempty plain)); [exact I|].
  apply may_escape_bindM; [apply Hw, make_payload_shape|].
  intros body0 s5 _.
  apply may_escape_bindM; [apply deliver_escapes|]. intros results' s6 _.
  apply may_escape_bindM; [|intros u s7 _; exact I].
  apply (may_escape_weaken (step_error delay)); [now left|].
  apply may_escape_sleep.
Qed.

Lemma process_customers_escapes (url organizer_email : string) (cutoff : datetime)
    (all_items : list json) (customers : list string)
    (results : summary) (st : state) :
  may_escape (leaf_error net frames delay)
    (process_customers net fromisoformat frames url organizer_email cutoff delay
       all_items customers results st).
Proof.
  revert results st. induction customers as [|c r IH]; intros results st; [exact I|].
  cbn [process_customers].
  apply may_escape_bindM; [apply process_customer_escapes|]. intros results' s _.
  apply IH.
Qed.

Lemma process_organizers_escapes (url frm to : string) (cutoff : datetime)
    (limit pages : Z) (groups : list (string * list string))
    (results : summary) (st : state) :
  may_escape (leaf_error net frames delay)
    (process_organizers net fromisoformat frames url frm to cutoff limit pages delay
       groups results st).
Proof.
  revert results st. induction groups as [|[o cs] r IH]; intros results st; [exact I|].
  cbn [process_organizers].
  apply may_escape_bindM.
  { apply (may_escape_weaken (step_error delay)); [now left|].
    apply av_list_meetings_escapes. }
  intros items s _.
  apply may_escape_bindM.
  { destruct (is_nil items); [exact I | apply process_customers_escapes]. }
  intros results' s' _. apply IH.
Qed.

End Escapes.

Lemma ok_not_404 (r : response) : ok r = true -> (status_code r =? 404)%Z = false.
Proof.
  unfold ok. intros H. destruct (status_code r =? 404)%Z eqn:E; [|reflexivity].
  apply Z.eqb_eq in E. rewrite E in H. discriminate H.
Qed.

Lemma hs_get_list_member_ids_escapes (net : nat -> request -> outcome)
    (repr : json -> string) (fuel : nat) (list_id : string) (delay : Q) (st : state) :
  exists res s1,
    http net (Hs_list list_id) st = Returns res s1 /\
    match truthy_response res with
    | None => hs_get_list_member_ids net repr fuel list_id delay st
              = Raises RuntimeError
    | Some _ => may_escape (step_error delay)
                  (hs_get_list_member_ids net repr fuel list_id delay st)
    end.
Proof.
  destruct (http_call net (Hs_list list_id) st) as (res & s1 & evs & n & Hh & _).
  exists res, s1. split; [exact Hh|].
  unfold hs_get_list_member_ids. rewrite (bindM_step _ _ _ _ _ Hh).
  destruct (truthy_response res) as [r|] eqn:E; [|reflexivity].
  pose proof (truthy_response_some _ _ E) as [_ Hok].
  rewrite (ok_not_404 r Hok).
  rewrite (bindM_step _ _ _ _ _ (lift_ok _ _ _ (raise_for_status_ok r Hok))).
  apply may_escape_bindM; [apply membership_pages_escapes|]. intros ids s _.
  escapes.
Qed.

Lemma sleep_error_cases (d : Q) (e : exn) :
  sleep_error d = Some e -> e = ValueError \/ e = OverflowError.
Proof.
  unfold sleep_error. destruct (sleep_overflows d); [intros [= <-]; now right|].
  destruct (negb (Qle_bool 0 d)); [intros [= <-]; now left | discriminate].
Qed.

(** X14.  The exceptions of a run (lines 254-369).  A run never raises the
    [HTTPError] of [raise_for_status]: each call of it comes after a test
    that the response is truthy, and a response with an error status is
    not.  A run raises [RuntimeError] exactly when the list lookup of line
    62 gets no response or an error status.  Any other exception of a run
    is the wrong type of a value in an accepted response, or a body that
    [json()] does not decode; or what [time.sleep] raises on the delay, a
    [ValueError] or an [OverflowError]; or the [OverflowError] of the dates
    of lines 298-300; or the [RecursionError] of the normalizer, on a
    transcript of an answer that is nested deeper than the interpreter has
    room for. *)
Theorem run_raises_no_http_error (net : nat -> request -> outcome)
    (fromisoformat : string -> option datetime) (repr : json -> string)
    (window : Z -> option (string * string * datetime)) (frames : nat)
    (fuel : nat) (list_id url : string) (only_emails : option (list string))
    (days limit pages : Z) (delay : Q) (st : state) (e : exn) :
  run_pipeline net fromisoformat repr window frames fuel list_id url only_emails
    days limit pages delay st = Raises e ->
  e <> HTTPError /\
  (e = RuntimeError <->
   exists res s1, http net (Hs_list list_id) st = Returns res s1 /\
                  truthy_response res = None) /\
  (run_error e \/
   (sleep_error delay = Some e /\ (e = ValueError \/ e = OverflowError)) \/
   (e = OverflowError /\ window days = None) \/
   (e = RecursionError /\ ~ transcripts_fit net frames)).
Proof.
  intros H.
  destruct (hs_get_list_member_ids_escapes net repr fuel list_id delay st)
    as (res & s1 & Hh & Hget).
  destruct (truthy_response res) as [r|] eqn:E.
  - assert (Hp : may_escape
                   (fun e => leaf_error net frames delay e \/
                             (e = OverflowError /\ window days = None))
                   (run_pipeline net fromisoformat repr window frames fuel list_id
                      url only_emails days limit pages delay st)).
    { assert (Hw : forall A (c : run A),
                 may_escape (step_error delay) c ->
                 may_escape (fun e => leaf_error net frames delay e \/
                                      (e = OverflowError /\ window days = None)) c).
      { intros A c. apply may_escape_weaken. intros x Hx. left. now left. }
      assert (Hl : forall A (c : result A) s,
                 may_raise shape_error c ->
                 may_escape (fun e => leaf_error net frames delay e \/
                                      (e = OverflowError /\ window days = None))
                   (lift c s)).
      { intros A c s Hc. apply may_escape_lift. revert Hc.
        apply may_raise_weaken. intros x Hx. left. left. left. now left. }
      unfold run_pipeline.
      apply may_escape_bindM; [apply Hw; exact Hget|]. intros ids s _. cbv zeta.
      destruct (is_nil ids); [exact I|].
      apply may_escape_bindM; [apply Hw, hs_batch_read_contacts_escapes|].
      intros contacts s2 _.
      apply may_escape_bindM; [apply Hl, owner_ids_of_shape|].
      intros owner_ids s3 _.
      apply may_escape_bindM; [apply Hw, hs_owner_email_map_escapes|].
      intros mapping s4 _.
      apply may_escape_bindM; [apply Hl, correlate_shape|].
      intros c2o s5 _.
      destruct (is_nil (select_emails c2o only_emails)); [exact I|].
      apply may_escape_bindM.
      { apply may_escape_lift. unfold window_of.
        destruct (window days); [exact I|]. right. now split. }
      intros [[frm to] cutoff] s6 _.
      apply (may_escape_weaken (leaf_error net frames delay)); [now left|].
      apply process_organizers_escapes. }
    rewrite H in Hp. cbn in Hp.
    assert (Hcases : payload_error e \/
                     (sleep_error delay = Some e /\
                      (e = ValueError \/ e = OverflowError)) \/
                     (e = OverflowError /\ window days = None) \/
                     (e = RecursionError /\ ~ transcripts_fit net frames)).
    { destruct Hp as [[[Hp|Hs]|Hr]|Ho]; auto.
      right. left. split; [exact Hs | exact (sleep_error_cases _ _ Hs)]. }
    assert (Hne : e <> RuntimeError /\ e <> HTTPError).
    { destruct Hcases as [[->| ->]|[(_ & [->| ->])|[(-> & _)|(-> & _)]]];
        split; discriminate. }
    split; [apply Hne|]. split.
    + split; [intros He; now elim (proj1 Hne)|].
      intros (res' & s1' & Hh' & E'). rewrite Hh in Hh'. injection Hh' as <- <-.
      congruence.
    + destruct Hcases as [Hc|Hc]; [left; now right | now right].
  - assert (He : e = RuntimeError).
    { unfold run_pipeline, bindM in H. rewrite Hget in H. now injection H as <-. }
    subst e. split; [discriminate|]. split.
    + split; [|reflexivity]. intros _. now exists res, s1.
    + left. now left.
Qed.

Lemma run_raises_no_http_error_witness :
  run_example (status_net 404) = Raises RuntimeError /\
  RuntimeError <> HTTPError /\
  (RuntimeError = RuntimeError <->
   exists res s1, http (status_net 404) (Hs_list "7") state0 = Returns res s1 /\
                  truthy_response res = None) /\
  (run_error RuntimeError \/
   (sleep_error (1 # 2) = Some RuntimeError /\
    (RuntimeError = ValueError \/ RuntimeError = OverflowError)) \/
   (RuntimeError = OverflowError /\ window_example 365 = None) \/
   (RuntimeError = RecursionError /\ ~ transcripts_fit (status_net 404) frames_example)).
Proof.
  split; [vm_compute; reflexivity|].
  apply (run_raises_no_http_error (status_net 404) iso_examples repr_examples
           window_example frames_example 10 "7" "https://hook.example" None
           365 100 5 (1 # 2) state0).
  vm_compute. reflexivity.
Defined.

(** ** The counters of the summary *)

Lemma accounts_refl (s : summary) : accounts 0 s s.
Proof.
  unfold accounts, same_header.
  split; [now split|]. split; [lia|]. split; [lia|]. split; auto.
Qed.

Lemma accounts_trans (a b : nat) (s1 s2 s3 : summary) :
  accounts a s1 s2 -> accounts b s2 s3 -> accounts (a + b) s1 s3.
Proof.
  unfold accounts, same_header.
  intros ((Hc1 & He1) & Hd1 & Hm1 & Hz1 & Hf1) ((Hc2 & He2) & Hd2 & Hm2 & Hz2 & Hf2).
  split; [split; congruence|]. split; [lia|]. split; [lia|].
  split; [|auto]. intros Hd. rewrite Hz2, Hz1; lia.
Qed.

Lemma accounts_weaken (a b : nat) (s s' : summary) :
  (a <= b)%nat -> accounts a s s' -> accounts b s s'.
Proof.
  unfold accounts. intros Hab (Hh & Hd & Hm & Hz & Hf).
  split; [exact Hh|]. split; [lia|]. split; [lia|]. split; [exact Hz | exact Hf].
Qed.

Lemma deliver_accounts (net : nat -> request -> outcome) (url : string)
    (meeting_id : json) (body0 : payload) (results results' : summary)
    (st st' : state) (n : nat) :
  deliver net url meeting_id body0 results st = Returns results' st' ->
  (1 <= n)%nat ->
  accounts 1 results (add_meetings_found n results').
Proof.
  unfold deliver. intros H Hn. inv_bind H. cbv zeta in H.
  assert (Hfail : forall o,
             error_entry {| failed_meeting := meeting_id; observed_status := o |} ->
             accounts 1 results
               (add_meetings_found n
                  {| contacts_processed := contacts_processed results;
                     emails_found := emails_found results;
                     meetings_found := meetings_found results;
                     transcripts_posted := transcripts_posted results;
                     errors := (errors results ++
                                [{| failed_meeting := meeting_id;
                                    observed_status := o |}])%list |})).
  { intros o Ho. unfold accounts, same_header, deliveries, add_meetings_found.
    cbn [contacts_processed emails_found meetings_found transcripts_posted errors].
    rewrite length_app. cbn [List.length].
    split; [now split|]. split; [lia|]. split; [lia|]. split; [lia|].
    intros Hf. apply Forall_app. split; [exact Hf|]. now repeat constructor. }
  destruct (truthy_response a) as [r|] eqn:E.
  - pose proof (truthy_response_some _ _ E) as [_ Hok].
    fold (success_status (status_code r)) in H.
    destruct (success_status (status_code r)) eqn:Es; inv_ret H.
    + unfold accounts, same_header, deliveries, add_meetings_found.
      cbn [contacts_processed emails_found meetings_found transcripts_posted errors].
      split; [now split|]. split; [lia|]. split; [lia|]. split; [lia | tauto].
    + apply Hfail. unfold error_entry. cbn [observed_status].
      split; [exact Es|].
      unfold ok in Hok. intros Hr.
      assert (E4 : (400 <=? status_code r)%Z = true) by (apply Z.leb_le; lia).
      assert (E6 : (status_code r <? 600)%Z = true) by (apply Z.ltb_lt; lia).
      rewrite E4, E6 in Hok. discriminate Hok.
  - inv_ret H. apply Hfail. exact I.
Qed.

Lemma select_meeting_nonempty (fromisoformat : string -> option datetime)
    (filtered : list json) (m : json) :
  select_meeting fromisoformat filtered = Some m -> (1 <= List.length filtered)%nat.
Proof. destruct filtered; [discriminate | cbn; lia]. Qed.

Section Accounts.

Variable net : nat -> request -> outcome.
Variable fromisoformat : string -> option datetime.
Variable frames : nat.

Lemma process_customer_accounts (url organizer_email : string) (cutoff : datetime)
    (delay : Q) (all_items : list json) (customer_email : string)
    (results results' : summary) (st st' : state) :
  process_customer net fromisoformat frames url organizer_email cutoff delay all_items
    customer_email results st = Returns results' st' ->
  accounts 1 results results'.
Proof.
  intros H.
  assert (H0 : accounts 1 results results)
    by (apply (accounts_weaken 0); [lia | apply accounts_refl]).
  apply process_customer_cases in H
    as (filtered & _ & [(_ & -> & _)|(m & id & Hsel & _ & [(_ & -> & _)|(_ & H)])]);
    try exact H0.
  destruct H as (uuid & t & s1 & _ & _ & [(_ & -> & _)|(_ & plain & _ & H)]);
    try exact H0.
  destruct H as [(_ & -> & _)|(_ & body0 & r2 & s2 & _ & Hd & -> & _)];
    try exact H0.
  apply (deliver_accounts _ _ _ _ _ _ _ _ _ Hd).
  exact (select_meeting_nonempty _ _ _ Hsel).
Qed.

Lemma process_customers_accounts (url organizer_email : string) (cutoff : datetime)
    (delay : Q) (all_items : list json) (customers : list string)
    (results results' : summary) (st st' : state) :
  process_customers net fromisoformat frames url organizer_email cutoff delay all_items
    customers results st = Returns results' st' ->
  accounts (List.length customers) results results'.
Proof.
  revert results st. induction customers as [|c r IH]; intros results st H;
    cbn [process_customers] in H.
  - inv_ret H. apply accounts_refl.
  - inv_bind H. apply process_customer_accounts in Hrun. apply IH in H.
    exact (accounts_trans 1 _ _ _ _ Hrun H).
Qed.

Lemma process_organizers_accounts (url frm to : string) (cutoff : datetime)
    (limit pages : Z) (delay : Q) (groups : list (string * list string))
    (results results' : summary) (st st' : state) :
  process_organizers net fromisoformat frames url frm to cutoff limit pages delay groups
    results st = Returns results' st' ->
  accounts (List.length (leaves_of groups)) results results'.
Proof.
  revert results st. induction groups as [|[o cs] r IH]; intros results st H;
    cbn [process_organizers] in H.
  - inv_ret H. apply accounts_refl.
  - inv_bind H. inv_bind H. apply IH in H.
    unfold leaves_of. cbn [map snd List.concat]. rewrite length_app.
    fold (leaves_of r).
    refine (accounts_trans _ _ _ _ _ _ H).
    destruct (is_nil a).
    + inv_ret Hrun0. apply (accounts_weaken 0); [lia | apply accounts_refl].
    + now apply process_customers_accounts in Hrun0.
Qed.

End Accounts.

(** X15.  The counters of the summary a run returns (lines 265-369).
    Each leaf is delivered at most once, and each delivery is counted once
    as posted or as an error, so [transcripts_posted] and the number of
    [errors] add up to at most [emails_found]; a delivery adds at least one
    to [meetings_found], and nothing else adds to it, so [meetings_found]
    is zero exactly when nothing was delivered; and an entry of [errors]
    says ['no-response'] or carries a status that is neither a success nor
    an error status: a webhook answer with status 400 to 599 is recorded
    as ['no-response']. *)
Theorem summary_counts_consistent (net : nat -> request -> outcome)
    (fromisoformat : string -> option datetime) (repr : json -> string)
    (window : Z -> option (string * string * datetime)) (frames : nat)
    (fuel : nat) (list_id url : string) (only_emails : option (list string))
    (days limit pages : Z) (delay : Q)
    (st st' : state) (s : summary) :
  run_pipeline net fromisoformat repr window frames fuel list_id url only_emails
    days limit pages delay st = Returns s st' ->
  (transcripts_posted s + List.length (errors s) <= emails_found s)%nat /\
  (transcripts_posted s + List.length (errors s) <= meetings_found s)%nat /\
  (meetings_found s = 0%nat <->
   (transcripts_posted s + List.length (errors s) = 0)%nat) /\
  Forall error_entry (errors s).
Proof.
  intros H. unfold run_pipeline in H. inv_bind H. cbv zeta in H.
  destruct (is_nil a).
  { inv_ret H. cbn. repeat split; auto. }
  inv_bind H. inv_bind H. inv_lift Hrun1. inv_bind H. inv_bind H. clear Hrun2.
  destruct (is_nil (select_emails a3 only_emails)).
  { inv_ret H. cbn. repeat split; auto; lia. }
  inv_bind H. clear Hrun2. destruct a4 as [[frm to] cutoff].
  apply process_organizers_accounts in H.
  destruct H as ((_ & He) & Hd & Hm & Hz & Hf).
  unfold deliveries in Hd, Hm, Hz.
  cbn [contacts_processed emails_found meetings_found transcripts_posted errors
       List.length] in He, Hd, Hm, Hz, Hf.
  assert (Hlen : List.length (leaves_of (group_by_owner a3 (select_emails a3 only_emails) []))
                 = List.length (select_emails a3 only_emails)).
  { apply Permutation_length.
    apply (group_by_owner_leaves a3 (select_emails a3 only_emails) []).
    - intros ce Hce. now apply select_emails_In in Hce.
    - now intros o cs []. }
  rewrite Hlen in Hd.
  split; [lia|]. split; [lia|]. split; [|apply Hf; constructor].
  split; [lia|]. intros H0. apply Hz. lia.
Qed.

Lemma summary_counts_consistent_witness :
  exists s st',
    run_example two_leaves_net = Returns s st' /\
    (transcripts_posted s + List.length (errors s) <= emails_found s)%nat /\
    (transcripts_posted s + List.length (errors s) <= meetings_found s)%nat /\
    (meetings_found s = 0%nat <->
     (transcripts_posted s + List.length (errors s) = 0)%nat) /\
    Forall error_entry (errors s).
Proof.
  eexists. eexists. split; [vm_compute; reflexivity|].
  eapply (summary_counts_consistent two_leaves_net iso_examples repr_examples
            window_example frames_example 10 "7" "https://hook.example" None
            365 100 5 (1 # 2) state0).
  vm_compute. reflexivity.
Defined.

(** ** Dates *)

Lemma replace_Z_app (a b : string) :
  PyStr.replace_Z (a ++ b) = PyStr.replace_Z a ++ PyStr.replace_Z b.
Proof.
  induction a as [|c r IH]; [reflexivity|].
  cbn. rewrite IH. now destruct (Ascii.eqb c "Z").
Qed.

Lemma nonempty_app_r (a b : string) : nonempty b = true -> nonempty (a ++ b) = true.
Proof. destruct a; auto. Qed.

(** X16.  [parse_iso] (lines 225-235).  It returns a datetime only for a
    non-empty string that [fromisoformat] accepts once each [Z] in it is
    replaced by [+00:00]; the datetime it returns is always aware, with the
    offset [fromisoformat] read or else UTC, so its comparison with the
    cutoff never mixes naive and aware datetimes.  A trailing [Z] is read
    as the offset [+00:00]. *)
Theorem parse_iso_aware (fromisoformat : string -> option datetime) :
  (forall v dt,
      parse_iso fromisoformat v = Some dt ->
      exists s d o,
        v = JStr s /\ nonempty s = true /\
        fromisoformat (PyStr.replace_Z s) = Some d /\
        wall dt = wall d /\ utcoffset dt = Some o /\
        match utcoffset d with
        | Some o' => o = o'
        | None => o = 0%Z
        end) /\
  (forall s, parse_iso fromisoformat (JStr (s ++ "Z"))
             = parse_iso fromisoformat (JStr (s ++ "+00:00"))).
Proof.
  split.
  - intros v dt H. unfold parse_iso in H.
    destruct (truthy v) eqn:Et; cbn [negb] in H; [|discriminate H].
    destruct v as [| | |s| |]; try discriminate H.
    destruct (fromisoformat (PyStr.replace_Z s)) as [d|] eqn:Ed; [|discriminate H].
    destruct (utcoffset d) as [o|] eqn:Eo; injection H as <-.
    + exists s, d, o. rewrite Eo. now repeat split.
    + exists s, d, 0%Z. rewrite Eo. now repeat split.
  - intros s. unfold parse_iso. cbn [truthy].
    rewrite !nonempty_app_r by reflexivity. cbn [negb].
    now rewrite !replace_Z_app.
Qed.

Lemma parse_iso_aware_witness :
  parse_iso iso_examples (JStr "2024-01-02T10:00:00Z")
  = Some {| wall := 63839786400000000; utcoffset := Some 0%Z |} /\
  exists s d o,
    JStr "2024-01-02T10:00:00Z" = JStr s /\ nonempty s = true /\
    iso_examples (PyStr.replace_Z s) = Some d /\
    wall {| wall := 63839786400000000; utcoffset := Some 0%Z |} = wall d /\
    utcoffset {| wall := 63839786400000000; utcoffset := Some 0%Z |} = Some o /\
    match utcoffset d with
    | Some o' => o = o'
    | None => o = 0%Z
    end.
Proof.
  split; [reflexivity|].
  apply (proj1 (parse_iso_aware iso_examples) (JStr "2024-01-02T10:00:00Z")).
  reflexivity.
Defined.

(** ** The environment check *)

Lemma env_dict_spec (env : environ) (keys : list string) (d : sdict) :
  (forall k, In k keys -> env_set env k = true) ->
  exists d', env_dict env keys d = Env d' /\
             forall k, sdict_get d' k = if mem k keys then env k else sdict_get d k.
Proof.
  revert d. induction keys as [|k0 r IH]; intros d Hset.
  - exists d. split; [reflexivity|]. intros k. reflexivity.
  - pose proof (Hset k0 (or_introl eq_refl)) as H0. unfold env_set in H0.
    cbn [env_dict]. destruct (env k0) as [v|] eqn:E0; [|discriminate H0].
    destruct (IH (sdict_set d k0 v)) as (d' & Hd & Hget).
    { intros k Hk. apply Hset. now right. }
    exists d'. split; [exact Hd|]. intros k. rewrite Hget, sdict_get_set.
    unfold mem. cbn [existsb]. fold (mem k r).
    destruct (mem k r); [now rewrite orb_true_r|]. rewrite orb_false_r.
    rewrite (String.eqb_sym k0 k).
    destruct (String.eqb k k0) eqn:E; [|reflexivity].
    apply String.eqb_eq in E. now subst.
Qed.

(** X17.  [require_env] (lines 380-384).  It returns exactly when every
    required variable is set to a non-empty value, and then the dict it
    returns gives each required variable its value and has no other key;
    [os.environ[k]] never raises [KeyError].  Otherwise it raises the
    [RuntimeError] whose message names, in the order of [keys], the
    variables that are not set or are set to the empty string. *)
Theorem require_env_spec (env : environ) (keys : list string) :
  match require_env env keys with
  | Env d =>
      (forall k, In k keys ->
                 exists v, env k = Some v /\ nonempty v = true /\
                           sdict_get d k = Some v) /\
      (forall k, In k (map fst d) -> In k keys)
  | MissingEnv message =>
      (exists k, In k keys /\ env_set env k = false) /\
      message = "Missing env: " ++ join_with ", " (missing_env env keys) /\
      forall k, In k (missing_env env keys) <-> In k keys /\ env_set env k = false
  | EnvKeyError _ => False
  end.
Proof.
  unfold require_env. cbv zeta.
  destruct (missing_env env keys) as [|k0 r] eqn:Em; cbn [is_nil negb].
  - assert (Hset : forall k, In k keys -> env_set env k = true).
    { intros k Hk. destruct (env_set env k) eqn:E; [reflexivity|].
      assert (Hin : In k (missing_env env keys))
        by (apply filter_In; split; [exact Hk | now rewrite E]).
      rewrite Em in Hin. destruct Hin. }
    destruct (env_dict_spec env keys [] Hset) as (d & -> & Hget). split.
    + intros k Hk. specialize (Hget k). rewrite (proj2 (mem_In k keys) Hk) in Hget.
      specialize (Hset k Hk). unfold env_set in Hset.
      destruct (env k) as [v|]; [|discriminate Hset]. now exists v.
    + intros k Hk. apply sdict_get_In in Hk as [v Hv].
      rewrite Hget in Hv. destruct (mem k keys) eqn:E; [|discriminate Hv].
      now apply mem_In.
  - assert (Hmiss : forall k, In k (missing_env env keys) <->
                              In k keys /\ env_set env k = false).
    { intros k. unfold missing_env. rewrite filter_In.
      now destruct (env_set env k). }
    split; [|split; [reflexivity | now rewrite <- Em]].
    exists k0. apply Hmiss. rewrite Em. now left.
Qed.

(** Line 388 in an environment with an empty list id and no webhook URL. *)
Example require_env_names_missing :
  require_env env_example required_keys
  = MissingEnv "Missing env: HUBSPOT_LIST_ID, WEBHOOK_URL".
Proof. reflexivity. Qed.

(** ** Selection in fetch order *)

Lemma filter_split {A} (f : A -> bool) (l a : list A) (m : A) (b : list A) :
  filter f l = (a ++ m :: b)%list ->
  exists a' b', l = (a' ++ m :: b')%list /\ filter f a' = a /\ filter f b' = b.
Proof.
  revert a. induction l as [|x r IH]; intros a H; cbn in H.
  - now destruct a.
  - destruct (f x) eqn:E.
    + destruct a as [|y a0]; cbn in H; injection H as -> H.
      * exists [], r. now repeat split.
      * destruct (IH a0 H) as (a' & b' & -> & Ha & Hb).
        exists (y :: a'), b'. split; [reflexivity|]. split; [|exact Hb].
        cbn. now rewrite E, Ha.
    + destruct (IH a H) as (a' & b' & -> & Ha & Hb).
      exists (x :: a'), b'. split; [reflexivity|]. split; [|exact Hb].
      cbn. now rewrite E.
Qed.

Section FetchOrder.

Variable fromisoformat : string -> option datetime.

Lemma filter_meetings_filter (organizer_email customer_email : string)
    (cutoff : datetime) (all_items filtered : list json) :
  filter_meetings fromisoformat organizer_email customer_email cutoff all_items
  = Ok filtered ->
  filtered = filter (kept fromisoformat organizer_email customer_email cutoff) all_items /\
  forall x, In x all_items ->
            exists k, keeps fromisoformat organizer_email customer_email cutoff x = Ok k.
Proof.
  revert filtered. induction all_items as [|m r IH]; intros filtered H; cbn in H.
  - injection H as <-. split; [reflexivity | now intros x []].
  - destruct (keeps fromisoformat organizer_email customer_email cutoff m) as [k|] eqn:Ek;
      [|discriminate H].
    cbn in H.
    destruct (filter_meetings fromisoformat organizer_email customer_email cutoff r)
      as [rest|]; [|discriminate H].
    cbn in H. injection H as <-. destruct (IH rest eq_refl) as [-> Hall]. split.
    + cbn [filter].
      assert (Ekept : kept fromisoformat organizer_email customer_email cutoff m = k)
        by (unfold kept; rewrite Ek; now destruct k).
      rewrite Ekept. now destruct k.
    + intros x [<-|Hx]; [now exists k | now apply Hall].
Qed.

(** X18.  Lines 312-334 together: the filter keeps the fetch order and the
    sort is stable, so the meeting that is delivered for a leaf is an
    eligible meeting of the fetched list such that every eligible meeting
    fetched before it has a strictly later sort key and every eligible
    meeting fetched after it has the same sort key or a later one.  Among
    eligible meetings with the same start time the one fetched first is
    taken. *)
Theorem select_in_fetch_order (organizer_email customer_email : string)
    (cutoff : datetime) (all_items filtered : list json) (m : json) :
  filter_meetings fromisoformat organizer_email customer_email cutoff all_items
  = Ok filtered ->
  select_meeting fromisoformat filtered = Some m ->
  exists pre post,
    all_items = (pre ++ m :: post)%list /\
    eligible fromisoformat organizer_email customer_email cutoff m /\
    (forall x, In x pre ->
               eligible fromisoformat organizer_email customer_email cutoff x ->
               (sort_key fromisoformat m < sort_key fromisoformat x)%Z) /\
    (forall x, In x post ->
               eligible fromisoformat organizer_email customer_email cutoff x ->
               (sort_key fromisoformat m <= sort_key fromisoformat x)%Z).
Proof.
  intros Hf Hsel.
  destruct (filter_meetings_filter _ _ _ _ _ Hf) as [Hfilter Hret].
  assert (Hne : filtered <> []) by (intros ->; discriminate Hsel).
  destruct (sort_by_head (sort_key fromisoformat) filtered Hne)
    as (m' & pre' & post' & Hhd & Hl & Hpre & Hpost).
  unfold select_meeting in Hsel. rewrite Hhd in Hsel. injection Hsel as ->.
  rewrite Hl in Hfilter. symmetry in Hfilter.
  apply filter_split in Hfilter as (pre & post & Hall & Hp1 & Hp2).
  assert (Hkept : forall x, In x all_items ->
                    eligible fromisoformat organizer_email customer_email cutoff x ->
                    kept fromisoformat organizer_email customer_email cutoff x = true).
  { intros x Hx He. destruct (Hret x Hx) as [k Hk].
    unfold kept. rewrite Hk.
    now rewrite (proj2 (keeps_sound fromisoformat _ _ _ _ _ Hk) He). }
  exists pre, post. split; [exact Hall|]. split.
  - apply (filter_meetings_sound fromisoformat _ _ _ _ _ Hf m).
    rewrite Hl. apply in_or_app. right. now left.
  - split; intros x Hx He.
    + apply Hpre. rewrite <- Hp1. apply filter_In. split; [exact Hx|].
      apply Hkept; [|exact He]. rewrite Hall. apply in_or_app. now left.
    + apply Hpost. rewrite <- Hp2. apply filter_In. split; [exact Hx|].
      apply Hkept; [|exact He]. rewrite Hall. apply in_or_app. right. now right.
Qed.

End FetchOrder.

Lemma select_in_fetch_order_witness :
  filter_meetings iso_examples "owner@x.com" "leaf@y.com" cutoff_example
    [meeting_day5; meeting_other_leaf; meeting_day2; meeting_no_start]
  = Ok [meeting_day5; meeting_day2; meeting_no_start] /\
  select_meeting iso_examples [meeting_day5; meeting_day2; meeting_no_start]
  = Some meeting_day2 /\
  exists pre post,
    [meeting_day5; meeting_other_leaf; meeting_day2; meeting_no_start]
    = (pre ++ meeting_day2 :: post)%list /\
    eligible iso_examples "owner@x.com" "leaf@y.com" cutoff_example meeting_day2 /\
    (forall x, In x pre ->
               eligible iso_examples "owner@x.com" "leaf@y.com" cutoff_example x ->
               (sort_key iso_examples meeting_day2 < sort_key iso_examples x)%Z) /\
    (forall x, In x post ->
               eligible iso_examples "owner@x.com" "leaf@y.com" cutoff_example x ->
               (sort_key iso_examples meeting_day2 <= sort_key iso_examples x)%Z).
Proof.
  split; [reflexivity|]. split; [reflexivity|].
  apply (select_in_fetch_order iso_examples "owner@x.com" "leaf@y.com" cutoff_example
           [meeting_day5; meeting_other_leaf; meeting_day2; meeting_no_start]
           [meeting_day5; meeting_day2; meeting_no_start]); reflexivity.
Defined.

(** ** What is posted for a leaf *)

Lemma deliver_requests (net : nat -> request -> outcome) (url : string)
    (meeting_id : json) (body0 : payload) (results results' : summary)
    (st st' : state) :
  deliver net url meeting_id body0 results st = Returns results' st' ->
  exists evs, added st st' evs /\
              forall x, In x (requests_of evs) -> x = Webhook url body0.
Proof.
  unfold deliver. intros H. inv_bind H.
  apply http_requests in Hrun as (evs & Ha & _ & Hall).
  cbv zeta in H.
  destruct (match truthy_response a with Some r => _ | None => false end);
    inv_ret H; now exists evs.
Qed.

Lemma make_payload_fields (customer_email organizer_email : string)
    (meeting_id m : json) (plain : string) (b : payload) :
  make_payload customer_email organizer_email meeting_id m plain = Ok b ->
  p_email b = customer_email /\ p_organizer_email b = organizer_email /\
  p_meeting_id b = meeting_id /\ p_transcript_text b = plain /\
  p_meeting_data b = m /\ attendees_emails m = Ok (p_attendees_emails b).
Proof.
  unfold make_payload. destruct m as [| | | | |kvs]; try discriminate. cbn [get bind].
  destruct (attendees_emails (JDict kvs)) as [atts|]; [|discriminate].
  cbn [bind]. intros H. injection H as <-. now repeat split.
Qed.

(** X19.  What lines 346-360 post for a leaf.  Every request to a webhook
    that the processing of an (organizer, leaf) pair makes goes to the
    configured URL, and its body names that leaf and that organizer,
    carries a meeting of the fetched list that passed the four tests of
    the filter, the truthy id of that meeting, its attendee set, which
    holds the leaf, and a transcript text that is not empty and has no
    white space at either end. *)
Theorem posted_body_describes_leaf (net : nat -> request -> outcome)
    (fromisoformat : string -> option datetime) (frames : nat)
    (url organizer_email : string) (cutoff : datetime) (delay : Q)
    (all_items : list json) (customer_email : string)
    (results results' : summary) (st st' : state) (evs : list event)
    (u : string) (b : payload) :
  process_customer net fromisoformat frames url organizer_email cutoff delay all_items
    customer_email results st = Returns results' st' ->
  added st st' evs ->
  In (Webhook u b) (requests_of evs) ->
  u = url /\ p_email b = customer_email /\ p_organizer_email b = organizer_email /\
  In (p_meeting_data b) all_items /\
  eligible fromisoformat organizer_email customer_email cutoff (p_meeting_data b) /\
  meeting_id_of (p_meeting_data b) = Ok (p_meeting_id b) /\
  truthy (p_meeting_id b) = true /\
  attendees_emails (p_meeting_data b) = Ok (p_attendees_emails b) /\
  In customer_email (p_attendees_emails b) /\
  nonempty (p_transcript_text b) = true /\
  PyStr.strip (p_transcript_text b) = p_transcript_text b.
Proof.
  intros H Hadd Hin.
  apply process_customer_cases in H as (filtered & Hf & Hcases).
  destruct Hcases as [(Hsel & -> & ->)|(m & id & Hsel & Hid & Hcases)].
  { rewrite (added_unique _ _ _ _ Hadd (added_refl st)) in Hin. destruct Hin. }
  destruct Hcases as [(Eid & -> & ->)|(Eid & uuid & t & s1 & Hu & Ht & Hcases)].
  { rewrite (added_unique _ _ _ _ Hadd (added_refl st)) in Hin. destruct Hin. }
  pose proof (av_fetch_transcript_json_requests net _ _ _ _ _ Ht) as (e1 & Ha1 & Hn1).
  destruct Hcases as [(Et & -> & ->)|(Et & plain & Hp & Hcases)].
  { rewrite (added_unique _ _ _ _ Hadd Ha1) in Hin.
    now apply (not_webhook_In e1 Hn1) in Hin. }
  destruct Hcases as [(Ep & -> & ->)|(Ep & body0 & r2 & s2 & Hb & Hd & -> & Hs)].
  { rewrite (added_unique _ _ _ _ Hadd Ha1) in Hin.
    now apply (not_webhook_In e1 Hn1) in Hin. }
  apply deliver_requests in Hd as (e2 & Ha2 & Hall).
  rewrite (added_unique _ _ _ _ Hadd
             (added_trans _ _ _ _ _ Ha1 (added_trans _ _ _ _ _ Ha2 Hs))) in Hin.
  rewrite !requests_of_app in Hin.
  apply in_app_or in Hin as [Hin|Hin];
    [now apply (not_webhook_In e1 Hn1) in Hin|].
  apply in_app_or in Hin as [Hin|Hin]; [|destruct Hin].
  apply Hall in Hin. injection Hin as -> ->.
  apply make_payload_fields in Hb as (He & Ho & Hi & Htx & Hm & Hat).
  rewrite He, Ho, Hi, Htx, Hm.
  pose proof (select_meeting_In fromisoformat filtered m Hsel) as Hmf.
  apply (filter_meetings_sound fromisoformat _ _ _ _ _ Hf) in Hmf as [Hmall Hel].
  assert (Hleaf : In customer_email (p_attendees_emails body0)).
  { destruct Hel as (_ & Hl & _). unfold attendee_set in Hl. now rewrite Hat in Hl. }
  split; [reflexivity|]. split; [reflexivity|]. split; [reflexivity|].
  split; [exact Hmall|]. split; [exact Hel|]. split; [exact Hid|].
  split; [exact Eid|]. split; [exact Hat|]. split; [exact Hleaf|].
  split; [exact Ep | exact (normalizer_trimmed frames t plain Hp)].
Qed.

Lemma posted_body_describes_leaf_witness :
  exists results' st' b,
    process_customer one_leaf_net iso_examples frames_example
      "https://hook.example" "owner@x.com"
      cutoff_example (1 # 2) [meeting_day2] "leaf@y.com" empty_summary state0
    = Returns results' st' /\
    In (Webhook "https://hook.example" b) (requests_of (rev (trace st'))) /\
    "https://hook.example" = "https://hook.example" /\
    p_email b = "leaf@y.com" /\ p_organizer_email b = "owner@x.com" /\
    In (p_meeting_data b) [meeting_day2] /\
    eligible iso_examples "owner@x.com" "leaf@y.com" cutoff_example (p_meeting_data b) /\
    meeting_id_of (p_meeting_data b) = Ok (p_meeting_id b) /\
    truthy (p_meeting_id b) = true /\
    attendees_emails (p_meeting_data b) = Ok (p_attendees_emails b) /\
    In "leaf@y.com" (p_attendees_emails b) /\
    nonempty (p_transcript_text b) = true /\
    PyStr.strip (p_transcript_text b) = p_transcript_text b.
Proof.
  eexists. eexists.
  exists {| p_email := "leaf@y.com"; p_organizer_email := "owner@x.com";
            p_meeting_id := JStr "m2"; p_meeting_subject := JNull;
            p_meeting_url := JNull;
            p_start_at := JStr "2024-01-02T10:00:00Z";
            p_attendees_emails := ["leaf@y.com"; "owner@x.com"];
            p_transcript_text := "hello world";
            p_meeting_data := meeting_day2 |}.
  split; [vm_compute; reflexivity|].
  match goal with
  | |- ?G /\ _ => assert (Hin : G) by (vm_compute; right; left; reflexivity)
  end.
  split; [exact Hin|].
  match type of Hin with
  | In _ (requests_of (rev (trace ?s))) =>
      eapply (posted_body_describes_leaf one_leaf_net iso_examples frames_example
                "https://hook.example" "owner@x.com" cutoff_example (1 # 2)
                [meeting_day2] "leaf@y.com" empty_summary _ state0 s
                (rev (trace s)) _ _)
  end.
  - vm_compute. reflexivity.
  - vm_compute. reflexivity.
  - exact Hin.
Defined.

(** ** The members of the list *)

Lemma collect_record_ids_acc (repr : json -> string) (its : list json)
    (ids : list string) :
  collect_record_ids repr ids its
  = (more <- collect_record_ids repr [] its ;; Ok (ids ++ more)%list)%py.
Proof.
  revert ids. induction its as [|it r IH]; intros ids; cbn.
  - now rewrite app_nil_r.
  - destruct (get it "recordId") as [rid|]; [|reflexivity]. cbn.
    destruct (truthy rid); [|apply IH].
    rewrite (IH (ids ++ [str_of repr rid])%list), (IH [str_of repr rid]).
    destruct (collect_record_ids repr [] r) as [more|]; [|reflexivity].
    cbn. now rewrite <- app_assoc.
Qed.

Lemma collect_record_ids_app (repr : json -> string) (its : list json)
    (ids ids' : list string) :
  collect_record_ids repr ids its = Ok ids' ->
  exists more, collect_record_ids repr [] its = Ok more /\ ids' = (ids ++ more)%list.
Proof.
  rewrite collect_record_ids_acc.
  destruct (collect_record_ids repr [] its) as [more|]; [|discriminate].
  cbn. intros H. injection H as <-. now exists more.
Qed.

Lemma retry_status_not_ok (r : response) :
  retry_status (status_code r) = true -> ok r = false.
Proof.
  unfold retry_status, ok. intros H.
  repeat (apply orb_true_iff in H as [H|H]);
    apply Z.eqb_eq in H; rewrite H; reflexivity.
Qed.

Lemma accepted_bodies_app (xs ys : list (request * outcome)) :
  accepted_bodies (xs ++ ys) = (accepted_bodies xs ++ accepted_bodies ys)%list.
Proof. apply flat_map_app. Qed.

Lemma accepted_retryable (req : request) (o : outcome) :
  retryable o = true -> accepted_bodies [(req, o)] = [].
Proof.
  destruct o as [r|]; cbn; [|now destruct req].
  intros H. rewrite (retry_status_not_ok r H). now destruct req.
Qed.

Lemma accepted_retries (net : nat -> request -> outcome) (c : nat) (req : request)
    (n : nat) :
  (forall i, (i < n)%nat -> retryable (net (c + i)%nat req) = true) ->
  accepted_bodies (exchanges net c (repeat req n)) = [].
Proof.
  induction n as [|n IH]; intros H; [reflexivity|].
  rewrite exchanges_repeat_snoc, accepted_bodies_app, IH
    by (intros i Hi; apply H; lia).
  apply accepted_retryable, H. lia.
Qed.

Lemma accepted_list_lookup (net : nat -> request -> outcome) (c : nat)
    (list_id : string) (n : nat) :
  accepted_bodies (exchanges net c (repeat (Hs_list list_id) n)) = [].
Proof.
  revert c. induction n as [|n IH]; intros c; [reflexivity|].
  cbn [repeat exchanges]. change (?x :: ?l) with ([x] ++ l)%list.
  rewrite accepted_bodies_app, IH. cbn. now destruct (net c (Hs_list list_id)).
Qed.

(** The exchanges of one call of [http_request]: all but the last failed
    or got a retry status, and so did the last when the call gives up. *)
Lemma http_retries (net : nat -> request -> outcome) (req : request)
    (st st' : state) (res : option response) :
  http net req st = Returns res st' ->
  exists evs n,
    added st st' evs /\ requests_of evs = repeat req (S n) /\ (n < 5)%nat /\
    calls st' = (calls st + S n)%nat /\
    (forall i, (i < n)%nat -> retryable (net (calls st + i)%nat req) = true) /\
    match res with
    | Some r => net (calls st + n)%nat req = Answer r /\
                retry_status (status_code r) = false
    | None => retryable (net (calls st + n)%nat req) = true
    end.
Proof.
  intros H.
  destruct (attempts_spec net 5 req (7 # 10) st eq_refl)
    as (k & res' & s & evs & Hrun & Hretry & Hres & Hadd & Htl & _).
  change (attempts net 5 req (7 # 10) st) with (http net req st) in Hrun.
  rewrite H in Hrun. injection Hrun as <- <-.
  assert (Hreq : requests_of evs = repeat req (k + if is_some res then 1 else 0)).
  { rewrite <- requests_of_timeline, Htl. apply requests_of_retry_timeline. }
  destruct res as [r|]; cbn [is_some] in Hreq.
  - destruct Hres as (Hk & Hnet & Hst & Hc).
    exists evs, k. replace (k + 1)%nat with (S k) in Hreq by lia.
    now repeat split.
  - destruct Hres as [-> Hc]. exists evs, 4%nat.
    split; [exact Hadd|]. split; [exact Hreq|]. split; [lia|].
    split; [exact Hc|]. split; [intros i Hi; apply Hretry; lia|].
    apply Hretry. lia.
Qed.

(** The accepted bodies among the exchanges of one call for a page. *)
Lemma http_accepted (net : nat -> request -> outcome) (list_id : string)
    (after : json) (st st' : state) (res : option response) :
  http net (Hs_memberships list_id after) st = Returns res st' ->
  exists evs n,
    added st st' evs /\
    requests_of evs = repeat (Hs_memberships list_id after) (S n) /\
    calls st' = (calls st + S n)%nat /\
    accepted_bodies (exchanges net (calls st)
                       (repeat (Hs_memberships list_id after) (S n)))
    = match truthy_response res with
      | Some r => match body r with Some j => [j] | None => [] end
      | None => []
      end.
Proof.
  intros H. apply http_retries in H as (evs & n & Ha & Hr & _ & Hc & Hretry & Hres).
  exists evs, n. split; [exact Ha|]. split; [exact Hr|]. split; [exact Hc|].
  rewrite exchanges_repeat_snoc, accepted_bodies_app,
    (accepted_retries net (calls st) _ n Hretry).
  cbn [app]. destruct res as [r|].
  - destruct Hres as [-> _]. cbn. destruct (ok r); [|reflexivity].
    destruct (body r); reflexivity.
  - now rewrite (accepted_retryable _ _ Hres).
Qed.

Lemma membership_pages_ids (net : nat -> request -> outcome) (repr : json -> string)
    (fuel : nat) (list_id : string) (delay : Q) (after : json)
    (ids ids' : list string) (st st' : state) :
  membership_pages net repr fuel list_id delay after ids st = Returns ids' st' ->
  exists evs,
    added st st' evs /\
    calls st' = (calls st + List.length (requests_of evs))%nat /\
    Forall (is_membership_request list_id) (requests_of evs) /\
    hd_error (requests_of evs) = Some (Hs_memberships list_id after) /\
    ids' = (ids ++ List.concat
                     (map (page_record_ids repr)
                        (accepted_bodies
                           (exchanges net (calls st) (requests_of evs)))))%list.
Proof.
  revert after ids st. induction fuel as [|fuel IH]; intros after ids st H;
    [discriminate H|].
  cbn [membership_pages] in H. inv_bind H. rename a into res, s into s1.
  apply http_accepted in Hrun as (e1 & n & Ha1 & Hr1 & Hc1 & Hacc).
  assert (Hall1 : Forall (is_membership_request list_id) (requests_of e1)).
  { rewrite Hr1. apply Forall_forall. intros x Hx. apply repeat_spec in Hx.
    now exists after. }
  assert (Hhd1 : forall l, hd_error (requests_of e1 ++ l)
                           = Some (Hs_memberships list_id after)).
  { intros l. now rewrite Hr1. }
  assert (Hlen1 : (calls st + List.length (requests_of e1))%nat = calls s1).
  { rewrite Hr1, repeat_length. lia. }
  assert (Hstop : forall more,
             accepted_bodies (exchanges net (calls st) (requests_of e1)) = more ->
             exists evs,
               added st s1 evs /\
               calls s1 = (calls st + List.length (requests_of evs))%nat /\
               Forall (is_membership_request list_id) (requests_of evs) /\
               hd_error (requests_of evs) = Some (Hs_memberships list_id after) /\
               (ids ++ List.concat (map (page_record_ids repr) more))%list
               = (ids ++ List.concat
                           (map (page_record_ids repr)
                              (accepted_bodies
                                 (exchanges net (calls st) (requests_of evs)))))%list).
  { intros more <-. exists e1. split; [exact Ha1|]. split; [now rewrite Hlen1|].
    split; [exact Hall1|].
    split; [rewrite <- (app_nil_r (requests_of e1)); apply Hhd1 | reflexivity]. }
  rewrite <- Hr1 in Hacc.
  destruct (truthy_response res) as [r|] eqn:Et.
  2:{ inv_ret H. destruct (Hstop [] Hacc) as (evs & Hevs).
      exists evs. cbn in Hevs. now rewrite app_nil_r in Hevs. }
  pose proof (truthy_response_some _ _ Et) as [_ Hok].
  rewrite (ok_not_404 r Hok) in H.
  inv_bind H. inv_lift Hrun. inv_bind H. inv_lift Hrun. rename a0 into j.
  inv_bind H. inv_lift Hrun. inv_bind H. inv_lift Hrun.
  inv_bind H. inv_lift Hrun. inv_bind H. inv_lift Hrun.
  apply collect_record_ids_app in E3 as (more & Hmore & ->).
  assert (Hpage : page_record_ids repr j = more).
  { unfold page_record_ids. rewrite E1. cbn [bind]. rewrite E2. cbn [bind].
    now rewrite Hmore. }
  unfold json_of in E0. destruct (body r) as [j'|]; [|discriminate E0].
  injection E0 as ->.
  destruct (negb (truthy a3)).
  - inv_ret H. destruct (Hstop [j] Hacc) as (evs & Hevs).
    exists evs. cbn [map List.concat] in Hevs. rewrite Hpage, app_nil_r in Hevs.
    exact Hevs.
  - inv_bind H. apply sleep_returns in Hrun as [Ha2 Hc2].
    apply IH in H as (e3 & Ha3 & Hc3 & Hall3 & _ & ->).
    exists (e1 ++ [Sleep delay] ++ e3)%list.
    split; [eapply added_trans; [exact Ha1|]; eapply added_trans; eassumption|].
    rewrite !requests_of_app. cbn [requests_of flat_map app].
    fold (requests_of e3).
    split; [rewrite length_app; lia|]. split.
    { apply Forall_app. split; [exact Hall1 | exact Hall3]. }
    split; [apply Hhd1|].
    rewrite exchanges_app, accepted_bodies_app, Hacc, Hlen1, <- Hc2.
    cbn [app map List.concat]. now rewrite Hpage, app_assoc.
Qed.

(** X20.  [hs_get_list_member_ids] (lines 61-87).  When it returns, it
    asked for the list first and then only for pages of the memberships of
    that list, the first of them without a cursor; and the ids it returns
    are the record ids that lines 78-81 collect from the bodies of the
    pages that were accepted: from every accepted page among its
    exchanges, page after page in the order in which they were asked for,
    and within a page in the order of the page. *)
Theorem member_ids_in_page_order (net : nat -> request -> outcome)
    (repr : json -> string) (fuel : nat) (list_id : string) (delay : Q)
    (st st' : state) (ids : list string) (evs : list event) :
  hs_get_list_member_ids net repr fuel list_id delay st = Returns ids st' ->
  added st st' evs ->
  (exists k pages,
     requests_of evs = (repeat (Hs_list list_id) (S k) ++ pages)%list /\
     (k < 5)%nat /\
     Forall (is_membership_request list_id) pages /\
     hd_error pages = Some (Hs_memberships list_id JNull)) /\
  calls st' = (calls st + List.length (requests_of evs))%nat /\
  ids = List.concat
          (map (page_record_ids repr)
             (accepted_bodies (exchanges net (calls st) (requests_of evs)))).
Proof.
  intros H Hadd. unfold hs_get_list_member_ids in H.
  inv_bind H. rename a into res, s into s1.
  apply http_returns_bound in Hrun as (e1 & k & Ha1 & Hr1 & Hk & Hc1 & _).
  destruct (truthy_response res) as [r|]; [|discriminate H].
  destruct (status_code r =? 404)%Z; [discriminate H|].
  inv_bind H. inv_lift Hrun. inv_bind H.
  apply membership_pages_ids in Hrun as (e2 & Ha2 & Hc2 & Hall & Hhd & ->).
  inv_bind H. apply emit_returns in Hrun as [Ha3 Hc3]. inv_ret H.
  rewrite (added_unique _ _ _ _ Hadd
             (added_trans _ _ _ _ _ Ha1 (added_trans _ _ _ _ _ Ha2 Ha3))).
  rewrite !requests_of_app, Hr1. cbn [requests_of flat_map]. rewrite app_nil_r.
  split; [|split].
  - exists k, (requests_of e2). now repeat split.
  - rewrite length_app, repeat_length. lia.
  - rewrite exchanges_app, accepted_bodies_app, accepted_list_lookup, repeat_length.
    cbn [app]. now replace (calls st + S k)%nat with (calls s1) by lia.
Qed.

Lemma member_ids_in_page_order_witness :
  exists st',
    hs_get_list_member_ids two_pages_net repr_examples 10 "7" (1 # 2) state0
    = Returns ["11"; "12"; "13"] st' /\
    (exists k pages,
       requests_of (rev (trace st')) = (repeat (Hs_list "7") (S k) ++ pages)%list /\
       (k < 5)%nat /\
       Forall (is_membership_request "7") pages /\
       hd_error pages = Some (Hs_memberships "7" JNull)) /\
    calls st' = (calls state0 + List.length (requests_of (rev (trace st'))))%nat /\
    ["11"; "12"; "13"]
    = List.concat
        (map (page_record_ids repr_examples)
           (accepted_bodies
              (exchanges two_pages_net (calls state0) (requests_of (rev (trace st')))))).
Proof.
  eexists. split; [vm_compute; reflexivity|].
  eapply (member_ids_in_page_order two_pages_net repr_examples 10 "7" (1 # 2) state0).
  - vm_compute. reflexivity.
  - vm_compute. reflexivity.
Defined.
